(** * Salt flux decomposition

    A shallow embedding of [src/decomposition.py] (class [SFD]) together with
    the part of NumPy it calls ([np.ma.sum], [np.ma.mean], [np.expand_dims]
    and the broadcasting arithmetic of masked arrays), and the properties of
    the decomposition proved over that embedding.

    Numbers are rationals ([Qc], canonical fractions with Leibniz equality):
    the floating-point arithmetic of the program is replaced by exact
    arithmetic, so that an equation between computed values is an equation
    over the rationals, which the program satisfies up to rounding.  An array
    entry is [Some q] or [None]; [None] stands for a masked entry of a masked
    array and for the invalid results NumPy produces (a division by zero, the
    mean of nothing).  An array does not record whether it carries a mask:
    an array without masked entry stands for a plain array and for a masked
    array whose mask is false everywhere. *)

From Stdlib Require Import String DecimalString QArith Qcanon ZArith List Bool Arith Lia.
Import ListNotations.

Set Implicit Arguments.
Open Scope nat_scope.

(** ** Exceptions *)

Inductive exn : Type :=
| ValueError (msg : string)
| BroadcastError (sh1 sh2 : list nat)
    (* the ValueError of NumPy: operands could not be broadcast together *)
| AxisError (axis : Z) (ndim : nat).
    (* axis [axis] is out of bounds for array of dimension [ndim] *)

Inductive result (A : Type) : Type :=
| Ok (a : A)
| Raise (e : exn).

Arguments Ok {A} a.
Arguments Raise {A} e.

Definition bind {A B : Type} (m : result A) (k : A -> result B) : result B :=
  match m with
  | Ok a => k a
  | Raise e => Raise e
  end.

Notation "x <- m ;; k" := (bind m (fun x => k))
  (at level 61, m at next level, right associativity).

(** ** Array entries and their masked arithmetic *)

Definition elt : Type := option Qc.

Definition of_nat (n : nat) : Qc := Q2Qc (inject_Z (Z.of_nat n)).

Definition is_zero (q : Qc) : bool := Qeq_bool q 0%Q.

Definition is_masked (x : elt) : bool :=
  match x with
  | None => true
  | Some _ => false
  end.

(** [filled(0)]: the value of an entry, a masked one counting as zero. *)
Definition filled (x : elt) : Qc :=
  match x with
  | Some q => q
  | None => 0%Qc
  end.

(** A binary operation on two entries: the result is masked when one of the
    operands is. *)
Definition masked_binop (f : Qc -> Qc -> Qc) (x y : elt) : elt :=
  match x, y with
  | Some a, Some b => Some (f a b)
  | _, _ => None
  end.

(** Division is a domained operation: the result is also masked where the
    divisor is zero.  (In floating point NumPy also masks a quotient whose
    divisor is too small for the dividend; over the rationals only zero
    is.) *)
Definition masked_div (x y : elt) : elt :=
  match x, y with
  | Some a, Some b => if is_zero b then None else Some (a / b)%Qc
  | _, _ => None
  end.

Definition qsum (l : list Qc) : Qc := fold_right Qcplus 0%Qc l.

(** Number of entries that are not masked. *)
Definition count (l : list elt) : nat :=
  length (filter (fun x => negb (is_masked x)) l).

(** The sum of the entries along one axis: masked entries count as zero; the
    result is masked when there are entries and every one is masked.  Along
    an axis of size 0 the sum is 0, as for an array that carries no mask;
    the properties below do not rest on this case. *)
Definition masked_sum (l : list elt) : elt :=
  match l with
  | [] => Some 0%Qc
  | _ :: _ => if forallb is_masked l then None else Some (qsum (map filled l))
  end.

(** The mean of the entries along one axis: the sum of the entries that are
    not masked over their number; masked (invalid) when there is none. *)
Definition masked_mean (l : list elt) : elt :=
  match count l with
  | O => None
  | S _ => Some (qsum (map filled l) / of_nat (count l))%Qc
  end.

(** ** The NumPy arrays *)

Module np.

(** An array: its shape and its buffer in row-major order. *)
Record ndarray : Type := mk { shape : list nat; data : list elt }.

Definition size (sh : list nat) : nat := fold_right Nat.mul 1 sh.

(** Every index of an array of shape [sh], in row-major order. *)
Fixpoint indices (sh : list nat) : list (list nat) :=
  match sh with
  | [] => [[]]
  | n :: sh' => flat_map (fun i => map (cons i) (indices sh')) (seq 0 n)
  end.

(** Position of the entry of index [idx] in the buffer. *)
Fixpoint ravel (sh idx : list nat) : nat :=
  match sh, idx with
  | _ :: sh', i :: idx' => i * size sh' + ravel sh' idx'
  | _, _ => 0
  end.

Definition get (a : ndarray) (idx : list nat) : elt :=
  nth (ravel (shape a) idx) (data a) None.

Definition tabulate (sh : list nat) (f : list nat -> elt) : ndarray :=
  mk sh (map f (indices sh)).

(** [np.ones(sh)] times a constant. *)
Definition full (sh : list nat) (q : Qc) : ndarray :=
  tabulate sh (fun _ => Some q).

(** An axis argument is an integer; a negative one counts from the end. *)
Definition normalize_axis (axis : Z) (ndim : nat) : result nat :=
  if ((- Z.of_nat ndim <=? axis) && (axis <? Z.of_nat ndim))%Z
  then Ok (Z.to_nat (if (axis <? 0)%Z then axis + Z.of_nat ndim else axis)%Z)
  else Raise (AxisError axis ndim).

Fixpoint remove_at {A : Type} (k : nat) (l : list A) : list A :=
  match k, l with
  | _, [] => []
  | O, _ :: l' => l'
  | S k', x :: l' => x :: remove_at k' l'
  end.

Fixpoint insert_at {A : Type} (k : nat) (x : A) (l : list A) : list A :=
  match k, l with
  | O, _ => x :: l
  | S _, [] => [x]
  | S k', y :: l' => y :: insert_at k' x l'
  end.

(** Reduction of one axis by [f]: the axis disappears from the shape. *)
Definition reduce (f : list elt -> elt) (a : ndarray) (axis : Z) : result ndarray :=
  ax <- normalize_axis axis (length (shape a)) ;;
  Ok (tabulate (remove_at ax (shape a))
        (fun idx => f (map (fun j => get a (insert_at ax j idx))
                           (seq 0 (nth ax (shape a) 0))))).

(** [np.expand_dims(a, axis)]: a reshape, the buffer is unchanged; the axis
    is normalized against the rank of the result. *)
Definition expand_dims (a : ndarray) (axis : Z) : result ndarray :=
  ax <- normalize_axis axis (S (length (shape a))) ;;
  Ok (mk (insert_at ax 1 (shape a)) (data a)).

(** *** Broadcasting *)

Definition broadcast_dim (sh1 sh2 : list nat) (m n : nat) : result nat :=
  if m =? n then Ok m
  else if m =? 1 then Ok n
  else if n =? 1 then Ok m
  else Raise (BroadcastError sh1 sh2).

(** Shapes are aligned on their last axis: the lists are reversed here. *)
Fixpoint broadcast_rev (sh1 sh2 : list nat) (r1 r2 : list nat) : result (list nat) :=
  match r1, r2 with
  | [], _ => Ok r2
  | _, [] => Ok r1
  | m :: r1', n :: r2' =>
      d <- broadcast_dim sh1 sh2 m n ;;
      r <- broadcast_rev sh1 sh2 r1' r2' ;;
      Ok (d :: r)
  end.

Definition broadcast_shapes (sh1 sh2 : list nat) : result (list nat) :=
  r <- broadcast_rev sh1 sh2 (rev sh1) (rev sh2) ;;
  Ok (rev r).

(** The index read in an operand of shape [sh] for the index [idx] of the
    result: leading axes the operand lacks are dropped, an axis of size 1 is
    read at 0. *)
Fixpoint bindex_rev (r ridx : list nat) : list nat :=
  match r, ridx with
  | n :: r', i :: ridx' => (if n =? 1 then 0 else i) :: bindex_rev r' ridx'
  | _, _ => []
  end.

Definition bindex (sh idx : list nat) : list nat :=
  rev (bindex_rev (rev sh) (rev idx)).

Definition broadcast (f : elt -> elt -> elt) (a b : ndarray) : result ndarray :=
  sh <- broadcast_shapes (shape a) (shape b) ;;
  Ok (tabulate sh (fun idx => f (get a (bindex (shape a) idx))
                                (get b (bindex (shape b) idx)))).

(** *** Masked arrays *)

Module ma.

(** [np.ma.sum(a, axis=axis)].  On an array without axis (a number, or the
    masked constant) NumPy accepts the axes 0 and -1 and returns the
    value. *)
Definition sum (a : ndarray) (axis : Z) : result ndarray :=
  match shape a with
  | [] => if ((axis =? 0) || (axis =? -1))%Z then Ok a
          else Raise (AxisError axis 0)
  | _ :: _ => reduce masked_sum a axis
  end.

(** [np.ma.mean(a, axis=axis)].  A number, as a reduction returns it, has no
    axis to average over: the mean raises whatever the axis.  The masked
    constant [np.ma.masked] takes the branch of the arrays that carry a
    mask, where the sum and the count are reductions that accept the axes
    0 and -1, and the result is masked. *)
Definition mean (a : ndarray) (axis : Z) : result ndarray :=
  match shape a with
  | [] => if forallb is_masked (data a) && ((axis =? 0) || (axis =? -1))%Z
          then Ok a
          else Raise (AxisError axis 0)
  | _ :: _ => reduce masked_mean a axis
  end.

(** [a * b], [a + b], [a - b] and [a / b] on arrays. *)
Definition multiply : ndarray -> ndarray -> result ndarray :=
  broadcast (masked_binop Qcmult).

Definition add : ndarray -> ndarray -> result ndarray :=
  broadcast (masked_binop Qcplus).

Definition subtract : ndarray -> ndarray -> result ndarray :=
  broadcast (masked_binop Qcminus).

Definition true_divide : ndarray -> ndarray -> result ndarray :=
  broadcast masked_div.

End ma.

End np.

Import np.

(** ** The class [SFD] *)

(** The keyword arguments of the constructor: a dictionary from names to
    integers. *)
Definition kwargs_t : Type := list (string * Z).

(** [kwargs.get(key, default)] *)
Fixpoint kwargs_get (kwargs : kwargs_t) (key : string) (default : Z) : Z :=
  match kwargs with
  | [] => default
  | (k, v) :: rest => if String.eqb k key then v else kwargs_get rest key default
  end.

(** An instance.  [_flux0], [_flux1], [_flux3] and [_flux4] are the four
    cache slots of the source, with its names: [_flux0] holds flux 1 and
    [_flux1] holds flux 2.  [calc_log] is a ghost field with no counterpart
    in the source: [_calc_flux] appends to it the product it has computed,
    each time it is called; no method reads it. *)
Record SFD : Type := mkSFD {
  flow : ndarray;
  salinity : ndarray;
  cross_section : ndarray;
  time_axis : Z;
  depth_axis : Z;
  _flux0 : option ndarray;
  _flux1 : option ndarray;
  _flux3 : option ndarray;
  _flux4 : option ndarray;
  calc_log : list ndarray
}.

Fixpoint shape_eqb (sh1 sh2 : list nat) : bool :=
  match sh1, sh2 with
  | [], [] => true
  | m :: sh1', n :: sh2' => (m =? n) && shape_eqb sh1' sh2'
  | _, _ => false
  end.

(** The text of a shape in an f-string: the [str] of a tuple of integers. *)
Definition str_nat (n : nat) : string := NilZero.string_of_uint (Nat.to_uint n).

Definition str_shape (sh : list nat) : string :=
  match sh with
  | [] => "()"
  | [n] => "(" ++ str_nat n ++ ",)"
  | _ => "(" ++ String.concat ", " (map str_nat sh) ++ ")"
  end%string.

Definition shape_msg (f s c : list nat) : string :=
  ("`flow`, `salinity`, and `cross_section` must all have the same shape; "
   ++ "`flow.shape=" ++ str_shape f ++ "`, "
   ++ "`salinity.shape=" ++ str_shape s ++ "`, "
   ++ "`cross_section.shape=" ++ str_shape c ++ "`")%string.

Definition __init__ (flow salinity cross_section : ndarray) (kwargs : kwargs_t)
  : result SFD :=
  (* input check *)
  if negb (shape_eqb (shape flow) (shape salinity)
           && shape_eqb (shape salinity) (shape cross_section))
  then Raise (ValueError (shape_msg (shape flow) (shape salinity) (shape cross_section)))
  else
    Ok {| flow := flow;
          salinity := salinity;
          cross_section := cross_section;
          time_axis := kwargs_get kwargs "time_axis" 0%Z;
          depth_axis := kwargs_get kwargs "depth_axis" (-1)%Z;
          _flux0 := None;
          _flux1 := None;
          _flux3 := None;
          _flux4 := None;
          calc_log := [] |}.

(** *** Matrix computations *)

Definition avg_time (self : SFD) (variable : ndarray) : result ndarray :=
  np.ma.mean variable (time_axis self).

Definition int_depth (self : SFD) (variable : ndarray) : result ndarray :=
  np.ma.sum variable (depth_axis self).

Definition avg_time_int_depth (self : SFD) (variable : ndarray) : result ndarray :=
  v <- int_depth self variable ;;
  avg_time self v.

Definition expand_time (self : SFD) (variable : ndarray) : result ndarray :=
  np.expand_dims variable (time_axis self).

Definition expand_depth (self : SFD) (variable : ndarray) : result ndarray :=
  np.expand_dims variable (depth_axis self).

(** *** Flux components *)

Definition _component (self : SFD) (func : ndarray -> result ndarray)
    (variable : ndarray) : result ndarray :=
  p <- np.ma.multiply variable (cross_section self) ;;
  n <- func p ;;
  d <- func (cross_section self) ;;
  np.ma.true_divide n d.

Definition component1 (self : SFD) (variable : ndarray) : result ndarray :=
  _component self (avg_time_int_depth self) variable.

Definition component2 (self : SFD) (variable : ndarray) (comp1 : option ndarray)
  : result ndarray :=
  (* calculate component 1 *)
  comp1 <- match comp1 with
           | None => component1 self variable
           | Some c => Ok c
           end ;;
  (* return component 2 *)
  a <- _component self (int_depth self) variable ;;
  b <- expand_time self comp1 ;;
  np.ma.subtract a b.

Definition component_ (self : SFD) (variable : ndarray)
    (comp1 comp2 : option ndarray) : result ndarray :=
  (* calculate component 1 *)
  comp1 <- match comp1 with
           | None => component1 self variable
           | Some c => Ok c
           end ;;
  (* calculate component 2 *)
  comp2 <- match comp2 with
           | None => component2 self variable (Some comp1)
           | Some c => Ok c
           end ;;
  (* return intermediate component *)
  e <- expand_time self comp1 ;;
  s <- np.ma.add comp2 e ;;
  b <- expand_depth self s ;;
  np.ma.subtract variable b.

Definition component3 (self : SFD) (variable : ndarray) (var_is_comp_ : bool)
  : result ndarray :=
  (* calculate intermediate component *)
  variable <- (if negb var_is_comp_
               then component_ self variable None None
               else Ok variable) ;;
  (* return component 3 *)
  _component self (avg_time self) variable.

Definition component4 (self : SFD) (variable : ndarray) (var_is_comp_ : bool)
    (comp3 : option ndarray) : result ndarray :=
  (* calculate intermediate component *)
  variable <- (if negb var_is_comp_
               then component_ self variable None None
               else Ok variable) ;;
  (* calculate component 3 *)
  comp3 <- match comp3 with
           | None => component3 self variable true
           | Some c => Ok c
           end ;;
  (* return component 4 *)
  e <- expand_time self comp3 ;;
  np.ma.subtract variable e.

(** *** Fluxes computations *)

(** The ghost field after a call of [_calc_flux] that computed [p]. *)
Definition log_calc (self : SFD) (p : ndarray) : SFD :=
  mkSFD (flow self) (salinity self) (cross_section self) (time_axis self)
        (depth_axis self) (_flux0 self) (_flux1 self) (_flux3 self) (_flux4 self)
        (calc_log self ++ [p]).

(** [_calc_flux] returns the product and the instance, on which the call is
    recorded. *)
Definition _calc_flux (self : SFD) (f_comp f_cross_section : ndarray -> result ndarray)
  : result (ndarray * SFD) :=
  a <- f_comp (flow self) ;;
  b <- f_comp (salinity self) ;;
  ab <- np.ma.multiply a b ;;
  c <- f_cross_section (cross_section self) ;;
  p <- np.ma.multiply ab c ;;
  Ok (p, log_calc self p).

(** The assignments to the cache slots. *)
Definition set_flux0 (self : SFD) (v : ndarray) : SFD :=
  mkSFD (flow self) (salinity self) (cross_section self) (time_axis self)
        (depth_axis self) (Some v) (_flux1 self) (_flux3 self) (_flux4 self)
        (calc_log self).

Definition set_flux1 (self : SFD) (v : ndarray) : SFD :=
  mkSFD (flow self) (salinity self) (cross_section self) (time_axis self)
        (depth_axis self) (_flux0 self) (Some v) (_flux3 self) (_flux4 self)
        (calc_log self).

Definition set_flux3 (self : SFD) (v : ndarray) : SFD :=
  mkSFD (flow self) (salinity self) (cross_section self) (time_axis self)
        (depth_axis self) (_flux0 self) (_flux1 self) (Some v) (_flux4 self)
        (calc_log self).

Definition set_flux4 (self : SFD) (v : ndarray) : SFD :=
  mkSFD (flow self) (salinity self) (cross_section self) (time_axis self)
        (depth_axis self) (_flux0 self) (_flux1 self) (_flux3 self) (Some v)
        (calc_log self).

(** A property returns its value and the instance after the access. *)
Definition flux1 (self : SFD) : result (ndarray * SFD) :=
  match _flux0 self with
  | None =>
      r <- _calc_flux self (component1 self) (avg_time_int_depth self) ;;
      Ok (fst r, set_flux0 (snd r) (fst r))
  | Some v => Ok (v, self)
  end.

Definition flux2 (self : SFD) : result (ndarray * SFD) :=
  match _flux1 self with
  | None =>
      r <- _calc_flux self (fun x => component2 self x None) (int_depth self) ;;
      v <- avg_time (snd r) (fst r) ;;
      Ok (v, set_flux1 (snd r) v)
  | Some v => Ok (v, self)
  end.

Definition flux3 (self : SFD) : result (ndarray * SFD) :=
  match _flux3 self with
  | None =>
      r <- _calc_flux self (fun x => component3 self x false) (avg_time self) ;;
      v <- int_depth (snd r) (fst r) ;;
      Ok (v, set_flux3 (snd r) v)
  | Some v => Ok (v, self)
  end.

Definition flux4 (self : SFD) : result (ndarray * SFD) :=
  match _flux4 self with
  | None =>
      r <- _calc_flux self (fun x => component4 self x false None) (fun x => Ok x) ;;
      v <- avg_time_int_depth (snd r) (fst r) ;;
      Ok (v, set_flux4 (snd r) v)
  | Some v => Ok (v, self)
  end.

Definition fluxes (self : SFD)
  : result ((ndarray * ndarray * ndarray * ndarray) * SFD) :=
  r1 <- flux1 self ;;
  r2 <- flux2 (snd r1) ;;
  r3 <- flux3 (snd r2) ;;
  r4 <- flux4 (snd r3) ;;
  Ok ((fst r1, fst r2, fst r3, fst r4), snd r4).

(** * Notions used to state the properties *)

(** ** Arrays as functions of their indices

    [repr1 a n f]: the array [a] has shape [(n,)] and holds [f i] at index
    [i]; [repr2] and [repr3] are the same for two and three axes. *)

(** An index is in the range of a shape. *)
Definition in_range (sh idx : list nat) : Prop := Forall2 lt idx sh.

Definition repr1 (a : ndarray) (n : nat) (f : nat -> elt) : Prop :=
  shape a = [n] /\ forall i, i < n -> get a [i] = f i.

Definition repr2 (a : ndarray) (m n : nat) (f : nat -> nat -> elt) : Prop :=
  shape a = [m; n] /\ forall i j, i < m -> j < n -> get a [i; j] = f i j.

Definition repr3 (a : ndarray) (m n p : nat) (f : nat -> nat -> nat -> elt) : Prop :=
  shape a = [m; n; p] /\
  forall i j k, i < m -> j < n -> k < p -> get a [i; j; k] = f i j k.

(** Arrays with any number of space axes, of shape [sp]: [reprS] for an
    array that has only these, [repr_axis] for one more axis of size [n] at
    the position [k], [reprF] for a field, with a time axis of size [T]
    inserted at the position [p] and then a depth axis of size [D] at the
    position [q]. *)
Definition reprS (sp : list nat) (a : ndarray) (f : list nat -> elt) : Prop :=
  shape a = sp /\ forall x, in_range sp x -> get a x = f x.

Definition repr_axis (sp : list nat) (k n : nat) (a : ndarray)
    (f : nat -> list nat -> elt) : Prop :=
  shape a = insert_at k n sp /\
  forall i x, i < n -> in_range sp x -> get a (insert_at k i x) = f i x.

Definition reprF (sp : list nat) (p q T D : nat) (a : ndarray)
    (f : nat -> list nat -> nat -> elt) : Prop :=
  shape a = insert_at q D (insert_at p T sp) /\
  forall t x d, t < T -> in_range sp x -> d < D ->
    get a (insert_at q d (insert_at p t x)) = f t x d.

(** The entries of a field at the place [x], by time and depth. *)
Definition at_place (f : nat -> list nat -> nat -> elt) (x : list nat)
  : nat -> nat -> nat -> elt :=
  fun t _ d => f t x d.

(** ** Valid arrays and arrays without masked entries *)

(** The buffer of a valid array has one entry for each index. *)
Definition valid (a : ndarray) : bool := length (data a) =? size (shape a).

Definition no_mask (a : ndarray) : bool :=
  forallb (fun e => negb (is_masked e)) (data a).

(** ** What the methods compute, entry by entry

    For arrays of shape [(T, S, D)] and the default axes (time first, depth
    last), the value of every method at one index, as a function of the
    entries of its arguments.  [A] gives the entries of the cross-sectional
    areas, [V] those of the variable, at time [t], place [x] and depth
    [d]. *)

Definition mmul : elt -> elt -> elt := masked_binop Qcmult.
Definition madd : elt -> elt -> elt := masked_binop Qcplus.
Definition msub : elt -> elt -> elt := masked_binop Qcminus.

Section Denotation.

Variables T D : nat.
Variable A : nat -> nat -> nat -> elt.

Definition times (V W : nat -> nat -> nat -> elt) : nat -> nat -> nat -> elt :=
  fun t x d => mmul (V t x d) (W t x d).

Definition sum_depth (V : nat -> nat -> nat -> elt) (t x : nat) : elt :=
  masked_sum (map (V t x) (seq 0 D)).

Definition mean_time (V : nat -> nat -> nat -> elt) (x d : nat) : elt :=
  masked_mean (map (fun t => V t x d) (seq 0 T)).

Definition mean_sum (V : nat -> nat -> nat -> elt) (x : nat) : elt :=
  masked_mean (map (fun t => sum_depth V t x) (seq 0 T)).

Definition den_component1 (V : nat -> nat -> nat -> elt) (x : nat) : elt :=
  masked_div (mean_sum (times V A) x) (mean_sum A x).

Definition den_component2 (V : nat -> nat -> nat -> elt) (t x : nat) : elt :=
  msub (masked_div (sum_depth (times V A) t x) (sum_depth A t x))
       (den_component1 V x).

Definition den_component_ (V : nat -> nat -> nat -> elt) (t x d : nat) : elt :=
  msub (V t x d) (madd (den_component2 V t x) (den_component1 V x)).

Definition den_component3 (V : nat -> nat -> nat -> elt) (x d : nat) : elt :=
  masked_div (mean_time (times (den_component_ V) A) x d) (mean_time A x d).

Definition den_component4 (V : nat -> nat -> nat -> elt) (t x d : nat) : elt :=
  msub (den_component_ V t x d) (den_component3 V x d).

Variables U Sa : nat -> nat -> nat -> elt.

Definition den_flux1 (x : nat) : elt :=
  mmul (mmul (den_component1 U x) (den_component1 Sa x)) (mean_sum A x).

Definition den_flux2 (x : nat) : elt :=
  masked_mean
    (map (fun t => mmul (mmul (den_component2 U t x) (den_component2 Sa t x))
                        (sum_depth A t x))
         (seq 0 T)).

Definition den_flux3 (x : nat) : elt :=
  masked_sum
    (map (fun d => mmul (mmul (den_component3 U x d) (den_component3 Sa x d))
                        (mean_time A x d))
         (seq 0 D)).

Definition den_flux4 (x : nat) : elt :=
  mean_sum (times (times (den_component4 U) (den_component4 Sa)) A) x.

(** The total transport: the product of the three fields, summed over depth
    and averaged over time. *)
Definition den_total (x : nat) : elt :=
  mean_sum (times (times U Sa) A) x.

End Denotation.

(** ** The decomposition over the rationals, at one place

    [a t d], [u t d] and [s t d] are the area, the flow velocity and the
    salinity at time [t] and depth [d]; there are [T] times and [D]
    depths. *)

Definition sumT (T : nat) (f : nat -> Qc) : Qc := qsum (map f (seq O T)).
Definition sumD (D : nat) (f : nat -> Qc) : Qc := qsum (map f (seq O D)).

Definition area_t (D : nat) (a : nat -> nat -> Qc) (t : nat) : Qc := sumD D (a t).
Definition area_d (T : nat) (a : nat -> nat -> Qc) (d : nat) : Qc :=
  sumT T (fun t => a t d).
Definition area (T D : nat) (a : nat -> nat -> Qc) : Qc := sumT T (area_t D a).

Definition q_comp1 (T D : nat) (a v : nat -> nat -> Qc) : Qc :=
  ((sumT T (fun t => sumD D (fun d => v t d * a t d)) / of_nat T)
   / (area T D a / of_nat T))%Qc.

Definition q_comp2 (T D : nat) (a v : nat -> nat -> Qc) (t : nat) : Qc :=
  (sumD D (fun d => v t d * a t d) / area_t D a t - q_comp1 T D a v)%Qc.

Definition q_comp_ (T D : nat) (a v : nat -> nat -> Qc) (t d : nat) : Qc :=
  (v t d - (q_comp2 T D a v t + q_comp1 T D a v))%Qc.

Definition q_comp3 (T D : nat) (a v : nat -> nat -> Qc) (d : nat) : Qc :=
  ((sumT T (fun t => q_comp_ T D a v t d * a t d) / of_nat T)
   / (area_d T a d / of_nat T))%Qc.

Definition q_comp4 (T D : nat) (a v : nat -> nat -> Qc) (t d : nat) : Qc :=
  (q_comp_ T D a v t d - q_comp3 T D a v d)%Qc.

Definition q_flux1 (T D : nat) (a u s : nat -> nat -> Qc) : Qc :=
  (q_comp1 T D a u * q_comp1 T D a s * (area T D a / of_nat T))%Qc.

Definition q_flux2 (T D : nat) (a u s : nat -> nat -> Qc) : Qc :=
  (sumT T (fun t => q_comp2 T D a u t * q_comp2 T D a s t * area_t D a t)
   / of_nat T)%Qc.

Definition q_flux3 (T D : nat) (a u s : nat -> nat -> Qc) : Qc :=
  sumD D (fun d => q_comp3 T D a u d * q_comp3 T D a s d
                   * (area_d T a d / of_nat T))%Qc.

Definition q_flux4 (T D : nat) (a u s : nat -> nat -> Qc) : Qc :=
  (sumT T (fun t => sumD D (fun d => q_comp4 T D a u t d * q_comp4 T D a s t d
                                     * a t d))
   / of_nat T)%Qc.

Definition q_total (T D : nat) (a u s : nat -> nat -> Qc) : Qc :=
  (sumT T (fun t => sumD D (fun d => u t d * s t d * a t d)) / of_nat T)%Qc.

(** The depth mean of a variable at a time, weighted by the areas. *)
Definition q_bar (D : nat) (a v : nat -> nat -> Qc) (t : nat) : Qc :=
  (sumD D (fun d => v t d * a t d) / area_t D a t)%Qc.

(** ** Masked time steps and depth levels *)

(** The indices below [n] that [m] does not mask, in increasing order. *)
Definition unmasked (m : nat -> bool) (n : nat) : list nat :=
  filter (fun i => negb (m i)) (seq 0 n).

(** Their number, and the [i]-th of them. *)
Definition n_unmasked (m : nat -> bool) (n : nat) : nat := length (unmasked m n).

Definition nth_unmasked (m : nat -> bool) (n i : nat) : nat :=
  nth i (unmasked m n) 0.

(** ** Values of the properties, total transport *)

(** The value a property returns. *)
Definition value (A : Type) (r : result (A * SFD)) : result A :=
  match r with
  | Ok (v, _) => Ok v
  | Raise e => Raise e
  end.

(** The products [_calc_flux] computes for the four fluxes. *)
Definition flux1_product (self : SFD) : result ndarray :=
  value (_calc_flux self (component1 self) (avg_time_int_depth self)).

Definition flux2_product (self : SFD) : result ndarray :=
  value (_calc_flux self (fun x => component2 self x None) (int_depth self)).

Definition flux3_product (self : SFD) : result ndarray :=
  value (_calc_flux self (fun x => component3 self x false) (avg_time self)).

Definition flux4_product (self : SFD) : result ndarray :=
  value (_calc_flux self (fun x => component4 self x false None) (fun x => Ok x)).

(** The values the four properties compute when their slot is empty. *)
Definition flux1_value (self : SFD) : result ndarray :=
  flux1_product self.

Definition flux2_value (self : SFD) : result ndarray :=
  p <- flux2_product self ;;
  avg_time self p.

Definition flux3_value (self : SFD) : result ndarray :=
  p <- flux3_product self ;;
  int_depth self p.

Definition flux4_value (self : SFD) : result ndarray :=
  p <- flux4_product self ;;
  avg_time_int_depth self p.

(** The fluxes whose slot is empty, in the order of [fluxes]. *)
Definition pending (self : SFD) : list nat :=
  (match _flux0 self with None => [1] | Some _ => [] end)
  ++ (match _flux1 self with None => [2] | Some _ => [] end)
  ++ (match _flux3 self with None => [3] | Some _ => [] end)
  ++ (match _flux4 self with None => [4] | Some _ => [] end).

(** The products [_calc_flux] has to compute in an access to [fluxes]: those
    of the fluxes whose slot is empty, in the order of [fluxes]. *)
Definition products (r : result ndarray) : list ndarray :=
  match r with
  | Ok p => [p]
  | Raise _ => []
  end.

Definition computed (self : SFD) : list ndarray :=
  (match _flux0 self with None => products (flux1_product self) | Some _ => [] end)
  ++ (match _flux1 self with None => products (flux2_product self) | Some _ => [] end)
  ++ (match _flux3 self with None => products (flux3_product self) | Some _ => [] end)
  ++ (match _flux4 self with None => products (flux4_product self) | Some _ => [] end).

(** The total transport: [avg_time_int_depth(flow * salinity * cross_section)]. *)
Definition total_transport (self : SFD) : result ndarray :=
  p <- np.ma.multiply (flow self) (salinity self) ;;
  q <- np.ma.multiply p (cross_section self) ;;
  avg_time_int_depth self q.

(** [flux1 + flux2 + flux3 + flux4] *)
Definition sum_fluxes (f1 f2 f3 f4 : ndarray) : result ndarray :=
  s12 <- np.ma.add f1 f2 ;;
  s123 <- np.ma.add s12 f3 ;;
  np.ma.add s123 f4.

(** ** Comparison of computed values

    The fractions are compared, not the proofs that they are canonical. *)

Definition elt_eqb (x y : elt) : bool :=
  match x, y with
  | None, None => true
  | Some a, Some b => Qeq_bool a b
  | _, _ => false
  end.

Fixpoint data_eqb (l1 l2 : list elt) : bool :=
  match l1, l2 with
  | [], [] => true
  | x :: l1', y :: l2' => elt_eqb x y && data_eqb l1' l2'
  | _, _ => false
  end.

Definition nd_eqb (a b : ndarray) : bool :=
  shape_eqb (shape a) (shape b) && data_eqb (data a) (data b).

Definition result_eqb (r : result ndarray) (e : ndarray) : bool :=
  match r with
  | Ok a => nd_eqb a e
  | Raise _ => false
  end.

(** The four fluxes an access to [fluxes] returned are the expected ones. *)
Definition fluxes_check (r : result ((ndarray * ndarray * ndarray * ndarray) * SFD))
    (e1 e2 e3 e4 : ndarray) : bool :=
  match r with
  | Ok ((f1, f2, f3, f4), _) =>
      nd_eqb f1 e1 && nd_eqb f2 e2 && nd_eqb f3 e3 && nd_eqb f4 e4
  | Raise _ => false
  end.

(** The entry of a computed array at an index is not zero. *)
Definition nonzero_at (r : result ndarray) (idx : list nat) : bool :=
  match r with
  | Ok a => negb (elt_eqb (get a idx) (Some 0%Qc))
  | Raise _ => false
  end.

(** No denominator of a component is zero at the place [x]: the three
    reductions of the cross-sectional areas by which [_component] divides. *)
Definition denominators_nonzero (self : SFD) (T D x : nat) : bool :=
  nonzero_at (avg_time_int_depth self (cross_section self)) [x]
  && forallb (fun t => nonzero_at (int_depth self (cross_section self)) [t; x])
             (seq 0 T)
  && forallb (fun d => nonzero_at (avg_time self (cross_section self)) [x; d])
             (seq 0 D).

(** ** The layout of the fields

    The fields have a time axis, a depth axis and, for the rest, space axes;
    a place is an index along the space axes. *)

(** The axis that an axis argument names in an array with [ndim] axes. *)
Definition axis_pos (axis : Z) (ndim : nat) : nat :=
  match normalize_axis axis ndim with
  | Ok k => k
  | Raise _ => 0
  end.

Definition ndim (self : SFD) : nat := length (shape (cross_section self)).

Definition time_pos (self : SFD) : nat := axis_pos (time_axis self) (ndim self).
Definition depth_pos (self : SFD) : nat := axis_pos (depth_axis self) (ndim self).

Definition n_times (self : SFD) : nat :=
  nth (time_pos self) (shape (cross_section self)) 0.
Definition n_depths (self : SFD) : nat :=
  nth (depth_pos self) (shape (cross_section self)) 0.

(** The place of the time axis once the depth axis is gone, and of the
    depth axis once the time axis is gone. *)
Definition time_pos_reduced (self : SFD) : nat :=
  if depth_pos self <? time_pos self then time_pos self - 1 else time_pos self.
Definition depth_pos_reduced (self : SFD) : nat :=
  if time_pos self <? depth_pos self then depth_pos self - 1 else depth_pos self.

(** From the place [p] of the time axis without the depth axis and the place
    [q] of the depth axis: the place of the time axis in a field, and the
    place of the depth axis without the time axis. *)
Definition time_full (p q : nat) : nat := if q <=? p then S p else p.
Definition depth_reduced (p q : nat) : nat := if q <=? p then q else q - 1.

(** The shape along the space axes. *)
Definition space_shape (self : SFD) : list nat :=
  remove_at (time_pos_reduced self)
    (remove_at (depth_pos self) (shape (cross_section self))).

(** The index of the entry at the time [t], the place [x] and the depth [d],
    and that entry of a field. *)
Definition entry_index (self : SFD) (t : nat) (x : list nat) (d : nat) : list nat :=
  insert_at (depth_pos self) d (insert_at (time_pos_reduced self) t x).

Definition entry (self : SFD) (a : ndarray) (t : nat) (x : list nat) (d : nat) : elt :=
  get a (entry_index self t x d).

(** The axis arguments with which every reduction of the class takes the
    axis it is meant to take, on full fields and on fields reduced once: the
    time axis counted from the front and the depth axis from the end, the
    time axis before the depth axis (as with the default 0 and -1), or the
    depth axis counted from the front and the time axis from the end, the
    depth axis before the time axis. *)
Definition supported_axes (ndim : nat) (time_axis depth_axis : Z) : bool :=
  ((0 <=? time_axis) && (depth_axis <? 0)
   && (time_axis <? depth_axis + Z.of_nat ndim))%Z
  || ((0 <=? depth_axis) && (time_axis <? 0)
      && (depth_axis <? time_axis + Z.of_nat ndim))%Z.

(** At the place [x], the areas of a whole time step, or of a whole depth
    level, are masked. *)
Definition step_masked (self : SFD) (x : list nat) (t : nat) : bool :=
  forallb (fun d => is_masked (entry self (cross_section self) t x d))
          (seq 0 (n_depths self)).
Definition level_masked (self : SFD) (x : list nat) (d : nat) : bool :=
  forallb (fun t => is_masked (entry self (cross_section self) t x d))
          (seq 0 (n_times self)).

(** The masks at the place [x] are regular: an area is masked only in a time
    step or a depth level that is masked as a whole, and the flow velocity
    and the salinity are masked only where the area is. *)
Definition regular_masks (self : SFD) (x : list nat) : bool :=
  forallb (fun t =>
    forallb (fun d =>
      Bool.eqb (is_masked (entry self (cross_section self) t x d))
               (step_masked self x t || level_masked self x d)
      && implb (is_masked (entry self (flow self) t x d))
               (is_masked (entry self (cross_section self) t x d))
      && implb (is_masked (entry self (salinity self) t x d))
               (is_masked (entry self (cross_section self) t x d)))
      (seq 0 (n_depths self)))
    (seq 0 (n_times self)).

(** No denominator of a component is zero at the place [x]. *)
Definition denominators_nonzero_at (self : SFD) (x : list nat) : bool :=
  nonzero_at (avg_time_int_depth self (cross_section self)) x
  && forallb (fun t => nonzero_at (int_depth self (cross_section self))
                         (insert_at (time_pos_reduced self) t x))
             (seq 0 (n_times self))
  && forallb (fun d => nonzero_at (avg_time self (cross_section self))
                         (insert_at (depth_pos_reduced self) d x))
             (seq 0 (n_depths self)).

(** ** What the specification states where the code differs *)

(** The formula of the specification for [flux1], with its outer reduction:
    [avg_time_int_depth] applied to the product that [flux1] computes. *)
Definition flux1_spec_formula (self : SFD) : result ndarray :=
  p <- flux1_value self ;;
  avg_time_int_depth self p.

(** What the specification asks of [avg_time_int_depth]: the sum over the
    depth axis, then the mean over the time axis, whose index is one less
    once an axis before it is gone. *)
Definition avg_time_int_depth_tracked (self : SFD) (variable : ndarray)
  : result ndarray :=
  d <- normalize_axis (depth_axis self) (length (shape variable)) ;;
  t <- normalize_axis (time_axis self) (length (shape variable)) ;;
  v <- np.ma.sum variable (Z.of_nat d) ;;
  np.ma.mean v (Z.of_nat (if d <? t then t - 1 else t)).

(** ** Test fixtures *)

Definition uniform_flow : ndarray := np.full [10; 10; 10] 1%Qc.
Definition uniform_salinity : ndarray := np.full [10; 10; 10] (of_nat 30).
Definition uniform_cross_section : ndarray := np.full [10; 10; 10] 1%Qc.

(** [test_output_uniform] *)
Definition test_uniform : bool :=
  match __init__ uniform_flow uniform_salinity uniform_cross_section [] with
  | Ok self =>
      fluxes_check (fluxes self)
        (np.full [10] (of_nat 300)) (np.full [10] 0%Qc)
        (np.full [10] 0%Qc) (np.full [10] 0%Qc)
  | Raise _ => false
  end.

(** The fixture [wedge]: beyond the fifth depth the flow is reversed and the
    salinity is zero. *)
Definition wedge_flow : ndarray :=
  np.tabulate [10; 10; 10]
    (fun idx => if nth 2 idx 0 <? 5 then Some 1%Qc else Some (- (1))%Qc).
Definition wedge_salinity : ndarray :=
  np.tabulate [10; 10; 10]
    (fun idx => if nth 2 idx 0 <? 5 then Some (of_nat 30) else Some 0%Qc).

(** [test_output_wedge] *)
Definition test_wedge : bool :=
  match __init__ wedge_flow wedge_salinity uniform_cross_section [] with
  | Ok self =>
      fluxes_check (fluxes self)
        (np.full [10] 0%Qc) (np.full [10] 0%Qc)
        (np.full [10] (of_nat 150)) (np.full [10] 0%Qc)
  | Raise _ => false
  end.

(** Two fields with different values at every entry, and areas. *)
Definition small_flow : ndarray :=
  np.mk [2; 1; 2] [Some (of_nat 1); Some (of_nat 2); Some (of_nat 3); Some (of_nat 4)].
Definition small_salinity : ndarray :=
  np.mk [2; 1; 2] [Some (of_nat 30); Some (of_nat 10); Some (of_nat 20); Some (of_nat 5)].
Definition small_cross_section : ndarray :=
  np.mk [2; 1; 2] [Some (of_nat 1); Some (of_nat 2); Some (of_nat 2); Some (of_nat 1)].

Definition small_self : SFD :=
  mkSFD small_flow small_salinity small_cross_section 0%Z (-1)%Z
        None None None None [].

(** The result of the first access to [fluxes] on the small instance. *)
Definition small_fluxes : (ndarray * ndarray * ndarray * ndarray) * SFD :=
  match fluxes small_self with
  | Ok r => r
  | Raise _ => ((small_flow, small_flow, small_flow, small_flow), small_self)
  end.

(** A field and areas with one masked entry, at the second time and the
    second depth; the flow velocity and the salinity are the same field. *)
Definition masked_field : ndarray :=
  np.mk [2; 1; 2] [Some 1%Qc; Some (- (1))%Qc; Some 0%Qc; None].
Definition masked_cross_section : ndarray :=
  np.mk [2; 1; 2] [Some 1%Qc; Some 1%Qc; Some 1%Qc; None].

Definition test_masked_decomposition : bool :=
  match __init__ masked_field masked_field masked_cross_section [] with
  | Ok self =>
      match fluxes self with
      | Ok ((f1, f2, f3, f4), _) =>
          match total_transport self with
          | Ok total =>
              match sum_fluxes f1 f2 f3 f4 with
              | Ok sum =>
                  denominators_nonzero self 2 2 0
                  && elt_eqb (get sum [0]) (Some (of_nat 3 / of_nat 2)%Qc)
                  && elt_eqb (get total [0]) (Some 1%Qc)
              | Raise _ => false
              end
          | Raise _ => false
          end
      | Raise _ => false
      end
  | Raise _ => false
  end.

(** A field of shape (2, 2, 2) with the entries 1 to 8 in row-major order. *)
Definition cube : ndarray :=
  np.mk [2; 2; 2] (map (fun n => Some (of_nat n)) (seq 1 8)).

(** An instance whose axes are depth, time, space. *)
Definition depth_first_self : SFD :=
  mkSFD cube cube cube 1%Z 0%Z None None None None [].

(** An instance whose axes are depth, space, time. *)
Definition time_last_self : SFD :=
  mkSFD cube cube cube 2%Z 0%Z None None None None [].

(** Areas that are zero at the first of two places, and a variable. *)
Definition dry_cross_section : ndarray :=
  np.mk [1; 2; 1] [Some 0%Qc; Some 1%Qc].
Definition dry_variable : ndarray :=
  np.mk [1; 2; 1] [Some (of_nat 5); Some (of_nat 7)].
Definition dry_self : SFD :=
  mkSFD dry_variable dry_variable dry_cross_section 0%Z (-1)%Z
        None None None None [].

(** A flow velocity that is 3 at every time and depth. *)
Definition constant_flow : ndarray := np.full [2; 1; 2] (of_nat 3).

(** A flow velocity and areas that depend on the depth only. *)
Definition steady_flow : ndarray :=
  np.mk [2; 1; 2] [Some (of_nat 1); Some (of_nat 3); Some (of_nat 1); Some (of_nat 3)].
Definition steady_cross_section : ndarray :=
  np.mk [2; 1; 2] [Some (of_nat 1); Some (of_nat 2); Some (of_nat 1); Some (of_nat 2)].

(** Fields whose space dimension has two axes, of shape (2, 2, 3, 2). *)
Definition wide_field (q : Qc) : ndarray := np.full [2; 2; 3; 2] q.

(** The result of the first access to [flux2] on the small instance. *)
Definition small_flux2 : ndarray * SFD :=
  match flux2 small_self with
  | Ok r => r
  | Raise _ => (small_flow, small_self)
  end.

(** Fields of shape (2, 3, 2) with the time axis in the middle: at the first
    place the areas of the last time step are masked, at the second place
    those of the last depth level; the flow velocity and the salinity are
    masked at some of these entries. *)
Definition tidal_flow : ndarray :=
  np.mk [2; 3; 2]
    [Some 1%Qc; Some (- (1))%Qc; Some (of_nat 2); Some 0%Qc; None; Some (of_nat 5);
     Some 1%Qc; None; Some (- of_nat 2)%Qc; Some (of_nat 4); Some (of_nat 3); None].
Definition tidal_salinity : ndarray :=
  np.mk [2; 3; 2]
    [Some (of_nat 30); Some (of_nat 20); Some (of_nat 10); Some (of_nat 5);
     Some (of_nat 7); None;
     Some (of_nat 12); Some 1%Qc; Some (of_nat 8); None; Some (of_nat 4);
     Some (of_nat 2)].
Definition tidal_cross_section : ndarray :=
  np.mk [2; 3; 2]
    [Some 1%Qc; Some (of_nat 2); Some 1%Qc; Some 1%Qc; None; None;
     Some (of_nat 2); None; Some 1%Qc; None; Some (of_nat 3); None].
Definition tidal_kwargs : kwargs_t :=
  [("time_axis"%string, 1%Z); ("depth_axis"%string, (-1)%Z)].

Definition tidal_self : SFD :=
  mkSFD tidal_flow tidal_salinity tidal_cross_section 1%Z (-1)%Z
        None None None None [].

(** The sum of the four fluxes and the total transport at the place [x]. *)
Definition decomposition_at (self : SFD) (x : list nat) : option (elt * elt) :=
  match fluxes self with
  | Ok ((f1, f2, f3, f4), _) =>
      match sum_fluxes f1 f2 f3 f4, total_transport self with
      | Ok sum, Ok total => Some (get sum x, get total x)
      | _, _ => None
      end
  | Raise _ => None
  end.

Definition decomposition_differs (self : SFD) (x : list nat) : bool :=
  match decomposition_at self x with
  | Some (sum, total) => negb (elt_eqb sum total)
  | None => false
  end.

(** The instance of the fields with one masked entry; an instance whose flow
    velocity alone has a masked entry; instances whose axes are both counted
    from the front. *)
Definition masked_self : SFD :=
  mkSFD masked_field masked_field masked_cross_section 0%Z (-1)%Z
        None None None None [].

Definition flow_masked_self : SFD :=
  mkSFD masked_field small_salinity small_cross_section 0%Z (-1)%Z
        None None None None [].

Definition front_axes_self : SFD :=
  mkSFD cube cube cube 0%Z 1%Z None None None None [].

Definition front_axes_small_self : SFD :=
  mkSFD small_flow small_salinity small_cross_section 0%Z 2%Z
        None None None None [].

(** Two instances hold the same fields and the same axes. *)
Definition same_fields (s self : SFD) : Prop :=
  flow s = flow self /\ salinity s = salinity self /\
  cross_section s = cross_section self /\
  time_axis s = time_axis self /\ depth_axis s = depth_axis self.

(** * Properties of the model *)

(** ** Indices and buffers *)

Lemma length_indices (sh : list nat) : length (indices sh) = size sh.
Proof.
  induction sh as [|n sh IH]; simpl; [reflexivity|].
  rewrite (@flat_map_constant_length _ _ (size sh)).
  - now rewrite length_seq.
  - intros k _. now rewrite length_map.
Qed.

Lemma nth_flat_map_chunks (X : Type) (g : nat -> list X) (m : nat) (d : X) :
  (forall k, length (g k) = m) ->
  forall n s i j, i < n -> j < m ->
  nth (i * m + j) (flat_map g (seq s n)) d = nth j (g (s + i)) d.
Proof.
  intros Hg. induction n as [|n IH]; intros s i j Hi Hj; [lia|].
  simpl. destruct i as [|i].
  - simpl. rewrite app_nth1 by (rewrite Hg; exact Hj).
    now rewrite Nat.add_0_r.
  - replace (S i * m + j) with (length (g s) + (i * m + j)) by (rewrite Hg; lia).
    rewrite app_nth2_plus, IH by lia.
    f_equal. f_equal. lia.
Qed.

Lemma nth_indices (sh idx : list nat) (d : list nat) :
  in_range sh idx ->
  ravel sh idx < size sh /\ nth (ravel sh idx) (indices sh) d = idx.
Proof.
  intros H. induction H as [|i n idx sh Hi H IH]; simpl.
  - split; [lia | reflexivity].
  - destruct IH as [IH1 IH2]. split; [nia|].
    rewrite (@nth_flat_map_chunks _ _ (size sh)); trivial.
    + simpl. rewrite (nth_indep _ d (i :: d))
        by (now rewrite length_map, length_indices).
      rewrite (map_nth (cons i)). now rewrite IH2.
    + intros k. now rewrite length_map, length_indices.
Qed.

Lemma get_tabulate (sh : list nat) (f : list nat -> elt) (idx : list nat) :
  in_range sh idx -> get (tabulate sh f) idx = f idx.
Proof.
  intros H. unfold get, tabulate; simpl.
  destruct (nth_indices [] H) as [H1 H2].
  rewrite (nth_indep _ None (f [])) by (now rewrite length_map, length_indices).
  rewrite (map_nth f). now rewrite H2.
Qed.

Lemma in_range_1 (n i : nat) : i < n -> in_range [n] [i].
Proof. intros; repeat constructor; assumption. Qed.

Lemma in_range_2 (m n i j : nat) : i < m -> j < n -> in_range [m; n] [i; j].
Proof. intros; repeat constructor; assumption. Qed.

Lemma in_range_3 (m n p i j k : nat) :
  i < m -> j < n -> k < p -> in_range [m; n; p] [i; j; k].
Proof. intros; repeat constructor; assumption. Qed.

(** An axis of size 1 is read at 0, any other axis where the result is. *)
Lemma bsel_lt (n i : nat) : i < n -> (if n =? 1 then 0 else i) = i.
Proof. intros H. destruct (Nat.eqb_spec n 1); lia. Qed.

Lemma bindex_rev_same (r ridx : list nat) :
  Forall2 lt ridx r -> bindex_rev r ridx = ridx.
Proof.
  induction 1 as [|i n ridx r Hi H IH]; simpl; [reflexivity|].
  now rewrite IH, bsel_lt.
Qed.

Lemma Forall2_lt_rev (l1 l2 : list nat) :
  Forall2 lt l1 l2 -> Forall2 lt (rev l1) (rev l2).
Proof.
  induction 1; simpl; [constructor|].
  apply Forall2_app; [assumption | repeat constructor; assumption].
Qed.

Lemma bindex_same (sh idx : list nat) : in_range sh idx -> bindex sh idx = idx.
Proof.
  intros H. unfold bindex.
  rewrite bindex_rev_same by (apply Forall2_lt_rev; exact H).
  apply rev_involutive.
Qed.

Lemma broadcast_dim_same (sh1 sh2 : list nat) (n : nat) :
  broadcast_dim sh1 sh2 n n = Ok n.
Proof. unfold broadcast_dim. now rewrite Nat.eqb_refl. Qed.

Lemma broadcast_dim_one_r (sh1 sh2 : list nat) (n : nat) :
  broadcast_dim sh1 sh2 n 1 = Ok n.
Proof.
  unfold broadcast_dim. destruct (Nat.eqb_spec n 1); [now subst|].
  reflexivity.
Qed.

Lemma broadcast_rev_same (sh1 sh2 r : list nat) :
  broadcast_rev sh1 sh2 r r = Ok r.
Proof.
  induction r as [|n r IH]; simpl; [reflexivity|].
  now rewrite broadcast_dim_same, IH.
Qed.

Lemma broadcast_shapes_same (sh : list nat) : broadcast_shapes sh sh = Ok sh.
Proof.
  unfold broadcast_shapes. rewrite broadcast_rev_same. simpl.
  now rewrite rev_involutive.
Qed.

(** Entry by entry, an operation on two arrays of one shape. *)
Lemma broadcast_same_shape (f : elt -> elt -> elt) (a b : ndarray) :
  shape a = shape b ->
  exists r, broadcast f a b = Ok r /\ shape r = shape a /\
    forall idx, in_range (shape a) idx -> get r idx = f (get a idx) (get b idx).
Proof.
  intros E. unfold broadcast. rewrite <- E, broadcast_shapes_same. simpl.
  eexists; split; [reflexivity|]. split; [reflexivity|].
  intros idx H. rewrite get_tabulate by assumption.
  now rewrite bindex_same.
Qed.

(** ** Reductions, expansions and broadcasts on arrays of known shape *)

Lemma repr1_ext (a : ndarray) (n : nat) (f g : nat -> elt) :
  repr1 a n f -> (forall i, i < n -> f i = g i) -> repr1 a n g.
Proof.
  intros [Hs Hg] E. split; [assumption|].
  intros i Hi. now rewrite Hg, E.
Qed.

Lemma repr1_self (a : ndarray) (n : nat) :
  shape a = [n] -> repr1 a n (fun i => get a [i]).
Proof. intros H; split; [assumption | reflexivity]. Qed.

Lemma repr3_self (a : ndarray) (m n p : nat) :
  shape a = [m; n; p] -> repr3 a m n p (fun i j k => get a [i; j; k]).
Proof. intros H; split; [assumption | reflexivity]. Qed.

Lemma normalize_axis_ok (axis : Z) (ndim : nat) :
  (- Z.of_nat ndim <= axis < Z.of_nat ndim)%Z ->
  normalize_axis axis ndim =
  Ok (Z.to_nat (if (axis <? 0)%Z then axis + Z.of_nat ndim else axis)%Z).
Proof.
  intros [H1 H2]. unfold normalize_axis.
  apply Z.leb_le in H1. apply Z.ltb_lt in H2. now rewrite H1, H2.
Qed.

Lemma normalize_axis_raise (axis : Z) (ndim : nat) :
  ~ (- Z.of_nat ndim <= axis < Z.of_nat ndim)%Z ->
  normalize_axis axis ndim = Raise (AxisError axis ndim).
Proof.
  intros H. unfold normalize_axis.
  destruct (Z.leb_spec (- Z.of_nat ndim) axis); [|reflexivity].
  destruct (Z.ltb_spec axis (Z.of_nat ndim)); [lia | reflexivity].
Qed.

Lemma reduce_ok (g : list elt -> elt) (a : ndarray) (axis : Z) (ax : nat) :
  normalize_axis axis (length (shape a)) = Ok ax ->
  reduce g a axis =
  Ok (tabulate (remove_at ax (shape a))
        (fun idx => g (map (fun j => get a (insert_at ax j idx))
                           (seq 0 (nth ax (shape a) 0))))).
Proof. intros H. unfold reduce. now rewrite H. Qed.

(** On an array with an axis, the sum and the mean are reductions. *)
Lemma sum_reduce (a : ndarray) (axis : Z) :
  shape a <> [] -> np.ma.sum a axis = reduce masked_sum a axis.
Proof. unfold ma.sum. now destruct (shape a). Qed.

Lemma mean_reduce (a : ndarray) (axis : Z) :
  shape a <> [] -> np.ma.mean a axis = reduce masked_mean a axis.
Proof. unfold ma.mean. now destruct (shape a). Qed.

Lemma shape3_neq (a : ndarray) (m n p : nat) (f : nat -> nat -> nat -> elt) :
  repr3 a m n p f -> shape a <> [].
Proof. intros [H _]. now rewrite H. Qed.

Lemma shape2_neq (a : ndarray) (m n : nat) (f : nat -> nat -> elt) :
  repr2 a m n f -> shape a <> [].
Proof. intros [H _]. now rewrite H. Qed.

Section Reductions.

Variable g : list elt -> elt.

Lemma reduce3_last (a : ndarray) (m n p : nat) (f : nat -> nat -> nat -> elt) :
  repr3 a m n p f ->
  exists r, reduce g a (-1) = Ok r /\
            repr2 r m n (fun i j => g (map (f i j) (seq 0 p))).
Proof.
  intros [Hs Hg]. rewrite (@reduce_ok _ _ _ 2) by (now rewrite Hs).
  rewrite Hs. eexists; split; [reflexivity|]. split; [reflexivity|].
  intros i j Hi Hj. simpl remove_at. simpl nth.
  rewrite get_tabulate by (now apply in_range_2).
  f_equal. apply map_ext_in. intros k Hk. apply in_seq in Hk.
  apply Hg; lia.
Qed.

Lemma reduce3_first (a : ndarray) (m n p : nat) (f : nat -> nat -> nat -> elt) :
  repr3 a m n p f ->
  exists r, reduce g a 0 = Ok r /\
            repr2 r n p (fun j k => g (map (fun i => f i j k) (seq 0 m))).
Proof.
  intros [Hs Hg]. rewrite (@reduce_ok _ _ _ 0) by (now rewrite Hs).
  rewrite Hs. eexists; split; [reflexivity|]. split; [reflexivity|].
  intros j k Hj Hk. simpl remove_at. simpl nth.
  rewrite get_tabulate by (now apply in_range_2).
  f_equal. apply map_ext_in. intros i Hi. apply in_seq in Hi.
  apply Hg; lia.
Qed.

Lemma reduce2_last (a : ndarray) (m n : nat) (f : nat -> nat -> elt) :
  repr2 a m n f ->
  exists r, reduce g a (-1) = Ok r /\
            repr1 r m (fun i => g (map (f i) (seq 0 n))).
Proof.
  intros [Hs Hg]. rewrite (@reduce_ok _ _ _ 1) by (now rewrite Hs).
  rewrite Hs. eexists; split; [reflexivity|]. split; [reflexivity|].
  intros i Hi. simpl remove_at. simpl nth.
  rewrite get_tabulate by (now apply in_range_1).
  f_equal. apply map_ext_in. intros k Hk. apply in_seq in Hk.
  apply Hg; lia.
Qed.

Lemma reduce2_first (a : ndarray) (m n : nat) (f : nat -> nat -> elt) :
  repr2 a m n f ->
  exists r, reduce g a 0 = Ok r /\
            repr1 r n (fun j => g (map (fun i => f i j) (seq 0 m))).
Proof.
  intros [Hs Hg]. rewrite (@reduce_ok _ _ _ 0) by (now rewrite Hs).
  rewrite Hs. eexists; split; [reflexivity|]. split; [reflexivity|].
  intros j Hj. simpl remove_at. simpl nth.
  rewrite get_tabulate by (now apply in_range_1).
  f_equal. apply map_ext_in. intros i Hi. apply in_seq in Hi.
  apply Hg; lia.
Qed.

End Reductions.

(** *** [np.expand_dims] *)

Lemma expand1_first (a : ndarray) (n : nat) (f : nat -> elt) :
  repr1 a n f ->
  exists r, expand_dims a 0 = Ok r /\ repr2 r 1 n (fun _ j => f j).
Proof.
  intros [Hs Hg]. unfold expand_dims. rewrite Hs.
  eexists; split; [reflexivity|]. split; [reflexivity|].
  intros i j Hi Hj. rewrite <- Hg by assumption.
  unfold get. rewrite Hs. simpl. f_equal. lia.
Qed.

Lemma expand2_first (a : ndarray) (m n : nat) (f : nat -> nat -> elt) :
  repr2 a m n f ->
  exists r, expand_dims a 0 = Ok r /\ repr3 r 1 m n (fun _ i j => f i j).
Proof.
  intros [Hs Hg]. unfold expand_dims. rewrite Hs.
  eexists; split; [reflexivity|]. split; [reflexivity|].
  intros i j k Hi Hj Hk. rewrite <- Hg by assumption.
  unfold get. rewrite Hs. simpl. f_equal. lia.
Qed.

Lemma expand2_last (a : ndarray) (m n : nat) (f : nat -> nat -> elt) :
  repr2 a m n f ->
  exists r, expand_dims a (-1) = Ok r /\ repr3 r m n 1 (fun i j _ => f i j).
Proof.
  intros [Hs Hg]. unfold expand_dims. rewrite Hs.
  eexists; split; [reflexivity|]. split; [reflexivity|].
  intros i j k Hi Hj Hk. rewrite <- Hg by assumption.
  unfold get. rewrite Hs. simpl. f_equal. lia.
Qed.

(** *** Arithmetic with broadcasting *)

Section Broadcast.

Variable op : elt -> elt -> elt.

Lemma bc1 (a b : ndarray) (n : nat) (f h : nat -> elt) :
  repr1 a n f -> repr1 b n h ->
  exists r, broadcast op a b = Ok r /\ repr1 r n (fun i => op (f i) (h i)).
Proof.
  intros [Hs Hg] [Hs' Hg'].
  destruct (@broadcast_same_shape op a b) as (r & E & Hr & Hv); [congruence|].
  exists r; split; [assumption|]. split; [congruence|].
  intros i Hi. rewrite Hv by (rewrite Hs; now apply in_range_1).
  now rewrite Hg, Hg'.
Qed.

Lemma bc2 (a b : ndarray) (m n : nat) (f h : nat -> nat -> elt) :
  repr2 a m n f -> repr2 b m n h ->
  exists r, broadcast op a b = Ok r /\ repr2 r m n (fun i j => op (f i j) (h i j)).
Proof.
  intros [Hs Hg] [Hs' Hg'].
  destruct (@broadcast_same_shape op a b) as (r & E & Hr & Hv); [congruence|].
  exists r; split; [assumption|]. split; [congruence|].
  intros i j Hi Hj. rewrite Hv by (rewrite Hs; now apply in_range_2).
  now rewrite Hg, Hg'.
Qed.

Lemma bc3 (a b : ndarray) (m n p : nat) (f h : nat -> nat -> nat -> elt) :
  repr3 a m n p f -> repr3 b m n p h ->
  exists r, broadcast op a b = Ok r /\
            repr3 r m n p (fun i j k => op (f i j k) (h i j k)).
Proof.
  intros [Hs Hg] [Hs' Hg'].
  destruct (@broadcast_same_shape op a b) as (r & E & Hr & Hv); [congruence|].
  exists r; split; [assumption|]. split; [congruence|].
  intros i j k Hi Hj Hk. rewrite Hv by (rewrite Hs; now apply in_range_3).
  now rewrite Hg, Hg'.
Qed.

(** Shape [(m, n)] against shape [(1, n)]. *)
Lemma bc2_row (a b : ndarray) (m n : nat) (f h : nat -> nat -> elt) :
  repr2 a m n f -> repr2 b 1 n h ->
  exists r, broadcast op a b = Ok r /\ repr2 r m n (fun i j => op (f i j) (h 0 j)).
Proof.
  intros [Hs Hg] [Hs' Hg']. unfold broadcast, broadcast_shapes.
  rewrite Hs, Hs'. cbn [rev app broadcast_rev].
  rewrite broadcast_dim_same, broadcast_dim_one_r. cbn [bind rev app].
  eexists; split; [reflexivity|]. split; [reflexivity|].
  intros i j Hi Hj. rewrite get_tabulate by (now apply in_range_2).
  unfold bindex. cbn [rev app bindex_rev]. rewrite !bsel_lt by assumption.
  cbn [Nat.eqb]. now rewrite Hg, Hg' by lia.
Qed.

(** Shape [(m, n, p)] against shape [(m, n, 1)]. *)
Lemma bc3_last1 (a b : ndarray) (m n p : nat) (f h : nat -> nat -> nat -> elt) :
  repr3 a m n p f -> repr3 b m n 1 h ->
  exists r, broadcast op a b = Ok r /\
            repr3 r m n p (fun i j k => op (f i j k) (h i j 0)).
Proof.
  intros [Hs Hg] [Hs' Hg']. unfold broadcast, broadcast_shapes.
  rewrite Hs, Hs'. cbn [rev app broadcast_rev].
  rewrite !broadcast_dim_same, broadcast_dim_one_r. cbn [bind rev app].
  eexists; split; [reflexivity|]. split; [reflexivity|].
  intros i j k Hi Hj Hk. rewrite get_tabulate by (now apply in_range_3).
  unfold bindex. cbn [rev app bindex_rev]. rewrite !bsel_lt by assumption.
  cbn [Nat.eqb]. now rewrite Hg, Hg' by lia.
Qed.

(** Shape [(m, n, p)] against shape [(1, n, p)]. *)
Lemma bc3_first1 (a b : ndarray) (m n p : nat) (f h : nat -> nat -> nat -> elt) :
  repr3 a m n p f -> repr3 b 1 n p h ->
  exists r, broadcast op a b = Ok r /\
            repr3 r m n p (fun i j k => op (f i j k) (h 0 j k)).
Proof.
  intros [Hs Hg] [Hs' Hg']. unfold broadcast, broadcast_shapes.
  rewrite Hs, Hs'. cbn [rev app broadcast_rev].
  rewrite !broadcast_dim_same, broadcast_dim_one_r. cbn [bind rev app].
  eexists; split; [reflexivity|]. split; [reflexivity|].
  intros i j k Hi Hj Hk. rewrite get_tabulate by (now apply in_range_3).
  unfold bindex. cbn [rev app bindex_rev]. rewrite !bsel_lt by assumption.
  cbn [Nat.eqb]. now rewrite Hg, Hg' by lia.
Qed.

End Broadcast.

(** *** Shapes of the results, whatever the entries *)

Lemma reduce_shape (g : list elt -> elt) (a : ndarray) (axis : Z) (ax : nat) :
  normalize_axis axis (length (shape a)) = Ok ax ->
  exists r, reduce g a axis = Ok r /\ shape r = remove_at ax (shape a).
Proof.
  intros H. rewrite (reduce_ok g a axis H). eexists. split; reflexivity.
Qed.

Lemma expand_dims_shape (a : ndarray) (axis : Z) (ax : nat) :
  normalize_axis axis (S (length (shape a))) = Ok ax ->
  exists r, expand_dims a axis = Ok r /\ shape r = insert_at ax 1 (shape a) /\
            data r = data a.
Proof.
  intros H. unfold expand_dims. rewrite H. eexists. repeat split.
Qed.

Lemma broadcast_shape (f : elt -> elt -> elt) (a b : ndarray) (sh : list nat) :
  broadcast_shapes (shape a) (shape b) = Ok sh ->
  exists r, broadcast f a b = Ok r /\ shape r = sh.
Proof.
  intros H. unfold broadcast. rewrite H. eexists. split; reflexivity.
Qed.

Lemma normalize_axis_last (n : nat) : normalize_axis (-1) (S n) = Ok n.
Proof.
  rewrite normalize_axis_ok by lia. f_equal.
  change (-1 <? 0)%Z with true. cbv iota. lia.
Qed.

Lemma normalize_axis_first (n : nat) : normalize_axis 0 (S n) = Ok 0.
Proof. rewrite normalize_axis_ok by lia. reflexivity. Qed.

Lemma remove_at_last (X : Type) (l : list X) (x : X) :
  remove_at (length l) (l ++ [x]) = l.
Proof. induction l as [|y l IH]; simpl; [reflexivity|]. now rewrite IH. Qed.

Lemma insert_at_last (X : Type) (l : list X) (x : X) :
  insert_at (length l) x l = l ++ [x].
Proof. induction l as [|y l IH]; simpl; [reflexivity|]. now rewrite IH. Qed.

Lemma length_remove_at (X : Type) (k : nat) (l : list X) :
  k < length l -> S (length (remove_at k l)) = length l.
Proof.
  revert l. induction k as [|k IH]; intros [|y l] H; simpl in *; try lia.
  rewrite IH; lia.
Qed.

Lemma insert_remove_at (X : Type) (k : nat) (x : X) (l : list X) :
  k < length l ->
  insert_at k x (remove_at k l) = firstn k l ++ x :: skipn (S k) l.
Proof.
  revert l. induction k as [|k IH]; intros [|y l] H; simpl in *; try lia.
  - reflexivity.
  - destruct l as [|z l]; [simpl in H; lia|].
    f_equal. apply (IH (z :: l)). simpl in *. lia.
Qed.

Lemma size_insert_one (k : nat) (sh : list nat) :
  size (insert_at k 1 sh) = size sh.
Proof.
  revert sh. induction k as [|k IH]; intros [|n sh]; simpl; try lia.
  unfold size in *. simpl. now rewrite IH.
Qed.

(** In a reshape that adds an axis of size 1, an entry keeps its position
    in the buffer. *)
Lemma ravel_insert_one (k : nat) (sh idx : list nat) :
  k <= length sh -> in_range (insert_at k 1 sh) idx ->
  ravel (insert_at k 1 sh) idx = ravel sh (remove_at k idx).
Proof.
  revert sh idx. induction k as [|k IH]; intros sh idx Hk Hr.
  - simpl in Hr. inversion Hr as [|i n idx' sh' Hi Hr' E1 E2]; subst.
    simpl. replace i with 0 by lia. destruct idx'; reflexivity.
  - destruct sh as [|n sh]; [simpl in Hk; lia|].
    simpl in Hr. inversion Hr as [|i n' idx' sh' Hi Hr' E1 E2]; subst.
    simpl. rewrite size_insert_one.
    rewrite (IH sh idx') by (simpl in Hk; lia || assumption).
    reflexivity.
Qed.

Lemma normalize_axis_lt (axis : Z) (ndim k : nat) :
  normalize_axis axis ndim = Ok k -> k < ndim.
Proof.
  unfold normalize_axis.
  destruct (Z.leb_spec (- Z.of_nat ndim) axis); [|discriminate].
  destruct (Z.ltb_spec axis (Z.of_nat ndim)); [|discriminate].
  cbn [andb]. intros E. injection E as <-.
  destruct (Z.ltb_spec axis 0); lia.
Qed.

Lemma normalize_axis_neq (axis : Z) (sh : list nat) (k : nat) :
  normalize_axis axis (length sh) = Ok k -> sh <> [].
Proof.
  intros H E. subst sh. apply normalize_axis_lt in H. simpl in H. lia.
Qed.




(** ** The methods on fields of shape [(T, S, D)] with the default axes *)

(** One call in a chain of calls: its result and what it holds. *)
Ltac step L :=
  let r := fresh "r" in
  let E := fresh "E" in
  let H := fresh "H" in
  destruct L as (r & E & H);
  unfold ma.multiply, ma.add, ma.subtract, ma.true_divide in E |- *;
  rewrite E; cbn [bind].

Section Methods.

Variables T S D : nat.
Variable self : SFD.
Variable A : nat -> nat -> nat -> elt.

Hypothesis Htime : time_axis self = 0%Z.
Hypothesis Hdepth : depth_axis self = (-1)%Z.
Hypothesis Harea : repr3 (cross_section self) T S D A.

Lemma int_depth_3 (v : ndarray) (V : nat -> nat -> nat -> elt) :
  repr3 v T S D V ->
  exists r, int_depth self v = Ok r /\ repr2 r T S (sum_depth D V).
Proof.
  intros Hv. unfold int_depth. rewrite sum_reduce by apply (shape3_neq Hv).
  rewrite Hdepth. now apply reduce3_last.
Qed.

Lemma int_depth_2 (v : ndarray) (V : nat -> nat -> elt) :
  repr2 v S D V ->
  exists r, int_depth self v = Ok r /\
            repr1 r S (fun x => masked_sum (map (V x) (seq 0 D))).
Proof.
  intros Hv. unfold int_depth. rewrite sum_reduce by apply (shape2_neq Hv).
  rewrite Hdepth. now apply reduce2_last.
Qed.

Lemma avg_time_3 (v : ndarray) (V : nat -> nat -> nat -> elt) :
  repr3 v T S D V ->
  exists r, avg_time self v = Ok r /\ repr2 r S D (mean_time T V).
Proof.
  intros Hv. unfold avg_time. rewrite mean_reduce by apply (shape3_neq Hv).
  rewrite Htime. now apply reduce3_first.
Qed.

Lemma avg_time_2 (v : ndarray) (V : nat -> nat -> elt) :
  repr2 v T S V ->
  exists r, avg_time self v = Ok r /\
            repr1 r S (fun x => masked_mean (map (fun t => V t x) (seq 0 T))).
Proof.
  intros Hv. unfold avg_time. rewrite mean_reduce by apply (shape2_neq Hv).
  rewrite Htime. now apply reduce2_first.
Qed.

Lemma avg_time_int_depth_3 (v : ndarray) (V : nat -> nat -> nat -> elt) :
  repr3 v T S D V ->
  exists r, avg_time_int_depth self v = Ok r /\ repr1 r S (mean_sum T D V).
Proof.
  intros Hv. unfold avg_time_int_depth.
  step (int_depth_3 Hv). apply (avg_time_2 H).
Qed.

Lemma times_area (v : ndarray) (V : nat -> nat -> nat -> elt) :
  repr3 v T S D V ->
  exists r, np.ma.multiply v (cross_section self) = Ok r /\
            repr3 r T S D (times V A).
Proof. intros Hv. apply (bc3 (masked_binop Qcmult) Hv Harea). Qed.

Lemma component1_repr (v : ndarray) (V : nat -> nat -> nat -> elt) :
  repr3 v T S D V ->
  exists r, component1 self v = Ok r /\ repr1 r S (den_component1 T D A V).
Proof.
  intros Hv. unfold component1, _component.
  step (times_area Hv).
  step (avg_time_int_depth_3 H).
  step (avg_time_int_depth_3 Harea).
  apply (bc1 masked_div H0 H1).
Qed.

Lemma component2_repr (v : ndarray) (V : nat -> nat -> nat -> elt) :
  repr3 v T S D V ->
  exists r, component2 self v None = Ok r /\ repr2 r T S (den_component2 T D A V).
Proof.
  intros Hv. unfold component2, _component.
  step (component1_repr Hv).
  step (times_area Hv).
  step (int_depth_3 H0).
  step (int_depth_3 Harea).
  step (bc2 masked_div H1 H2).
  unfold expand_time. rewrite Htime.
  step (expand1_first H).
  apply (bc2_row (masked_binop Qcminus) H3 H4).
Qed.

Lemma component__repr (v : ndarray) (V : nat -> nat -> nat -> elt) :
  repr3 v T S D V ->
  exists r, component_ self v None None = Ok r /\
            repr3 r T S D (den_component_ T D A V).
Proof.
  intros Hv. unfold component_.
  step (component1_repr Hv).
  (* component 2, from the component 1 just computed *)
  unfold component2, _component. cbn [bind].
  step (times_area Hv).
  step (int_depth_3 H0).
  step (int_depth_3 Harea).
  step (bc2 masked_div H1 H2).
  unfold expand_time. rewrite Htime.
  step (expand1_first H).
  step (bc2_row (masked_binop Qcminus) H3 H4).
  step (bc2_row (masked_binop Qcplus) H5 H4).
  unfold expand_depth. rewrite Hdepth.
  step (expand2_last H6).
  apply (bc3_last1 (masked_binop Qcminus) Hv H7).
Qed.

Lemma component3_of_comp_ (w : ndarray) (W : nat -> nat -> nat -> elt) :
  repr3 w T S D W ->
  exists r, component3 self w true = Ok r /\
            repr2 r S D (fun x d => masked_div (mean_time T (times W A) x d)
                                               (mean_time T A x d)).
Proof.
  intros Hw. unfold component3, _component. cbn [negb bind].
  step (times_area Hw).
  step (avg_time_3 H).
  step (avg_time_3 Harea).
  apply (bc2 masked_div H0 H1).
Qed.

Lemma component3_repr (v : ndarray) (V : nat -> nat -> nat -> elt) :
  repr3 v T S D V ->
  exists r, component3 self v false = Ok r /\ repr2 r S D (den_component3 T D A V).
Proof.
  intros Hv. unfold component3, _component. cbn [negb].
  step (component__repr Hv).
  step (times_area H).
  step (avg_time_3 H0).
  step (avg_time_3 Harea).
  apply (bc2 masked_div H1 H2).
Qed.

Lemma component4_repr (v : ndarray) (V : nat -> nat -> nat -> elt) :
  repr3 v T S D V ->
  exists r, component4 self v false None = Ok r /\
            repr3 r T S D (den_component4 T D A V).
Proof.
  intros Hv. unfold component4. cbn [negb].
  step (component__repr Hv).
  step (component3_of_comp_ H).
  unfold expand_time. rewrite Htime.
  step (expand2_first H0).
  apply (bc3_first1 (masked_binop Qcminus) H H1).
Qed.

End Methods.

(** The product [_calc_flux] returns, apart from the record of the call. *)
Lemma calc_flux_value (self : SFD) (f g : ndarray -> result ndarray) :
  value (_calc_flux self f g) =
  (a <- f (flow self) ;;
   b <- f (salinity self) ;;
   ab <- np.ma.multiply a b ;;
   c <- g (cross_section self) ;;
   np.ma.multiply ab c).
Proof.
  unfold _calc_flux.
  destruct (f (flow self)) as [a|]; [|reflexivity]. cbn [bind].
  destruct (f (salinity self)) as [b|]; [|reflexivity]. cbn [bind].
  destruct (np.ma.multiply a b) as [ab|]; [|reflexivity]. cbn [bind].
  destruct (g (cross_section self)) as [c|]; [|reflexivity]. cbn [bind].
  now destruct (np.ma.multiply ab c).
Qed.

(** A call of [_calc_flux] that returns leaves the instance as it was, with
    the product added to the record of the calls. *)
Lemma calc_flux_state (self s : SFD) (f g : ndarray -> result ndarray)
    (p : ndarray) :
  _calc_flux self f g = Ok (p, s) -> s = log_calc self p.
Proof.
  unfold _calc_flux.
  destruct (f (flow self)) as [a|]; [|discriminate]. cbn [bind].
  destruct (f (salinity self)) as [b|]; [|discriminate]. cbn [bind].
  destruct (np.ma.multiply a b) as [ab|]; [|discriminate]. cbn [bind].
  destruct (g (cross_section self)) as [c|]; [|discriminate]. cbn [bind].
  destruct (np.ma.multiply ab c) as [q|]; [|discriminate]. cbn [bind].
  intros H. now injection H as <- <-.
Qed.

Lemma value_Ok (X : Type) (r : result (X * SFD)) (v : X) :
  value r = Ok v -> exists s, r = Ok (v, s).
Proof.
  destruct r as [[w s]|]; [|discriminate].
  intros H. injection H as <-. now exists s.
Qed.

(** A call of [_calc_flux], from the product it computes. *)
Lemma calc_flux_call (self : SFD) (f g : ndarray -> result ndarray) :
  _calc_flux self f g =
  (p <- value (_calc_flux self f g) ;; Ok (p, log_calc self p)).
Proof.
  destruct (_calc_flux self f g) as [[p s]|] eqn:E; [|reflexivity].
  cbn [value bind]. now rewrite (calc_flux_state _ _ _ E).
Qed.

Section Fluxes.

Variables T S D : nat.
Variable self : SFD.
Variables U Sa A : nat -> nat -> nat -> elt.

Hypothesis Htime : time_axis self = 0%Z.
Hypothesis Hdepth : depth_axis self = (-1)%Z.
Hypothesis Hflow : repr3 (flow self) T S D U.
Hypothesis Hsalinity : repr3 (salinity self) T S D Sa.
Hypothesis Harea : repr3 (cross_section self) T S D A.

Lemma calc_flux1_repr :
  exists r, flux1_value self = Ok r /\ repr1 r S (den_flux1 T D A U Sa).
Proof.
  unfold flux1_value, flux1_product. rewrite calc_flux_value.
  step (component1_repr self Htime Hdepth Harea Hflow).
  step (component1_repr self Htime Hdepth Harea Hsalinity).
  step (bc1 (masked_binop Qcmult) H H0).
  step (avg_time_int_depth_3 self Htime Hdepth Harea).
  apply (bc1 (masked_binop Qcmult) H1 H2).
Qed.

Lemma calc_flux2_repr :
  exists r, flux2_value self = Ok r /\ repr1 r S (den_flux2 T D A U Sa).
Proof.
  unfold flux2_value, flux2_product. rewrite calc_flux_value.
  step (component2_repr self Htime Hdepth Harea Hflow).
  step (component2_repr self Htime Hdepth Harea Hsalinity).
  step (bc2 (masked_binop Qcmult) H H0).
  step (int_depth_3 self Hdepth Harea).
  step (bc2 (masked_binop Qcmult) H1 H2).
  apply (avg_time_2 self Htime H3).
Qed.

Lemma calc_flux3_repr :
  exists r, flux3_value self = Ok r /\ repr1 r S (den_flux3 T D A U Sa).
Proof.
  unfold flux3_value, flux3_product. rewrite calc_flux_value.
  step (component3_repr self Htime Hdepth Harea Hflow).
  step (component3_repr self Htime Hdepth Harea Hsalinity).
  step (bc2 (masked_binop Qcmult) H H0).
  step (avg_time_3 self Htime Harea).
  step (bc2 (masked_binop Qcmult) H1 H2).
  apply (int_depth_2 self Hdepth H3).
Qed.

Lemma calc_flux4_repr :
  exists r, flux4_value self = Ok r /\ repr1 r S (den_flux4 T D A U Sa).
Proof.
  unfold flux4_value, flux4_product. rewrite calc_flux_value.
  step (component4_repr self Htime Hdepth Harea Hflow).
  step (component4_repr self Htime Hdepth Harea Hsalinity).
  step (bc3 (masked_binop Qcmult) H H0).
  step (bc3 (masked_binop Qcmult) H1 Harea).
  apply (avg_time_int_depth_3 self Htime Hdepth H2).
Qed.

Lemma total_transport_repr :
  exists r, total_transport self = Ok r /\ repr1 r S (den_total T D A U Sa).
Proof.
  unfold total_transport.
  step (bc3 (masked_binop Qcmult) Hflow Hsalinity).
  step (bc3 (masked_binop Qcmult) H Harea).
  apply (avg_time_int_depth_3 self Htime Hdepth H0).
Qed.

End Fluxes.

(** ** Sums of rationals *)

Section Sums.

Local Open Scope Qc_scope.

Lemma qsum_map_ext_in (X : Type) (f g : X -> Qc) (l : list X) :
  (forall i, In i l -> f i = g i) -> qsum (map f l) = qsum (map g l).
Proof. intros H. f_equal. now apply map_ext_in. Qed.

Lemma qsum_map_zero (X : Type) (l : list X) : qsum (map (fun _ => 0) l) = 0.
Proof. induction l as [|i l IH]; simpl; [reflexivity|]. rewrite IH. ring. Qed.

Lemma qsum_map_plus (X : Type) (f g : X -> Qc) (l : list X) :
  qsum (map (fun i => f i + g i) l) = qsum (map f l) + qsum (map g l).
Proof. induction l as [|i l IH]; simpl; [ring|]. rewrite IH. ring. Qed.

Lemma qsum_map_scal (X : Type) (c : Qc) (f : X -> Qc) (l : list X) :
  qsum (map (fun i => f i * c) l) = qsum (map f l) * c.
Proof. induction l as [|i l IH]; simpl; [ring|]. rewrite IH. ring. Qed.

Lemma qsum_exchange (X Y : Type) (f : X -> Y -> Qc) (l1 : list X) (l2 : list Y) :
  qsum (map (fun i => qsum (map (fun j => f i j) l2)) l1) =
  qsum (map (fun j => qsum (map (fun i => f i j) l1)) l2).
Proof.
  induction l1 as [|i l1 IH]; simpl.
  - now rewrite qsum_map_zero.
  - now rewrite qsum_map_plus, IH.
Qed.

(** A weighted sum of products, split around two values [fb] and [gb]. *)
Lemma qsum_deviations (X : Type) (f g w : X -> Qc) (fb gb : Qc) (l : list X) :
  qsum (map (fun i => (f i - fb) * (g i - gb) * w i) l) =
  qsum (map (fun i => f i * g i * w i) l)
  - gb * qsum (map (fun i => f i * w i) l)
  - fb * qsum (map (fun i => g i * w i) l)
  + fb * gb * qsum (map w l).
Proof. induction l as [|i l IH]; simpl; [ring|]. rewrite IH. ring. Qed.

(** When [fb] and [gb] are the weighted means of [f] and [g], the weighted
    sum of the products is the product of the means plus the weighted sum of
    the products of the deviations. *)
Lemma qsum_mean_split (X : Type) (f g w : X -> Qc) (fb gb : Qc) (l : list X) :
  fb * qsum (map w l) = qsum (map (fun i => f i * w i) l) ->
  gb * qsum (map w l) = qsum (map (fun i => g i * w i) l) ->
  qsum (map (fun i => f i * g i * w i) l) =
  fb * gb * qsum (map w l)
  + qsum (map (fun i => (f i - fb) * (g i - gb) * w i) l).
Proof.
  intros Hf Hg. rewrite qsum_deviations, <- Hf, <- Hg. ring.
Qed.

End Sums.

(** ** The rational algebra of the decomposition *)

Section Algebra.

Local Open Scope Qc_scope.

Variables T D : nat.
Variable a : nat -> nat -> Qc.

Variables u s : nat -> nat -> Qc.

Hypothesis HT : of_nat T <> 0.
Hypothesis Harea : area T D a <> 0.
Hypothesis Harea_t : forall t, (t < T)%nat -> area_t D a t <> 0.
Hypothesis Harea_d : forall d, (d < D)%nat -> area_d T a d <> 0.

Lemma q_bar_area (v : nat -> nat -> Qc) (t : nat) :
  (t < T)%nat -> q_bar D a v t * area_t D a t = sumD D (fun d => v t d * a t d).
Proof. intros Ht. unfold q_bar. field. now apply Harea_t. Qed.

Lemma q_comp1_area (v : nat -> nat -> Qc) :
  q_comp1 T D a v * area T D a = sumT T (fun t => q_bar D a v t * area_t D a t).
Proof.
  unfold sumT at 1.
  rewrite (@qsum_map_ext_in _ _ (fun t => sumD D (fun d => v t d * a t d)))
    by (intros t Ht; apply in_seq in Ht; apply q_bar_area; lia).
  unfold q_comp1, sumT. field. split; assumption.
Qed.

Lemma q_comp__bar (v : nat -> nat -> Qc) (t d : nat) :
  q_comp_ T D a v t d = v t d - q_bar D a v t.
Proof. unfold q_comp_, q_comp2, q_bar. ring. Qed.

Lemma q_comp3_area (v : nat -> nat -> Qc) (d : nat) :
  (d < D)%nat ->
  q_comp3 T D a v d * area_d T a d
  = sumT T (fun t => q_comp_ T D a v t d * a t d).
Proof.
  intros Hd. unfold q_comp3. field. split; [assumption | now apply Harea_d].
Qed.

(** Step 1: at each time, the depth sum of the products. *)
Lemma split_depth (t : nat) :
  (t < T)%nat ->
  sumD D (fun d => u t d * s t d * a t d) =
  q_bar D a u t * q_bar D a s t * area_t D a t
  + sumD D (fun d => q_comp_ T D a u t d * q_comp_ T D a s t d * a t d).
Proof.
  intros Ht. unfold sumD at 1.
  rewrite (@qsum_mean_split _ (u t) (s t) (a t) (q_bar D a u t) (q_bar D a s t)).
  - f_equal. apply qsum_map_ext_in. intros d _.
    now rewrite !q_comp__bar.
  - apply (q_bar_area u Ht).
  - apply (q_bar_area s Ht).
Qed.

(** Step 2: the time sum of the products of the depth means. *)
Lemma split_time :
  sumT T (fun t => q_bar D a u t * q_bar D a s t * area_t D a t) =
  q_comp1 T D a u * q_comp1 T D a s * area T D a
  + sumT T (fun t => q_comp2 T D a u t * q_comp2 T D a s t * area_t D a t).
Proof.
  unfold sumT at 1.
  rewrite (@qsum_mean_split _ (q_bar D a u) (q_bar D a s) (area_t D a)
             (q_comp1 T D a u) (q_comp1 T D a s)).
  - reflexivity.
  - apply q_comp1_area.
  - apply q_comp1_area.
Qed.

(** Step 3: at each depth, the time sum of the products of the remainders. *)
Lemma split_remainder (d : nat) :
  (d < D)%nat ->
  sumT T (fun t => q_comp_ T D a u t d * q_comp_ T D a s t d * a t d) =
  q_comp3 T D a u d * q_comp3 T D a s d * area_d T a d
  + sumT T (fun t => q_comp4 T D a u t d * q_comp4 T D a s t d * a t d).
Proof.
  intros Hd. unfold sumT at 1.
  rewrite (@qsum_mean_split _ (fun t => q_comp_ T D a u t d)
             (fun t => q_comp_ T D a s t d)
             (fun t => a t d) (q_comp3 T D a u d) (q_comp3 T D a s d)).
  - reflexivity.
  - apply (q_comp3_area u Hd).
  - apply (q_comp3_area s Hd).
Qed.

Lemma q_decomposition_sums :
  sumT T (fun t => sumD D (fun d => u t d * s t d * a t d)) =
  q_comp1 T D a u * q_comp1 T D a s * area T D a
  + sumT T (fun t => q_comp2 T D a u t * q_comp2 T D a s t * area_t D a t)
  + sumD D (fun d => q_comp3 T D a u d * q_comp3 T D a s d * area_d T a d)
  + sumT T (fun t => sumD D (fun d => q_comp4 T D a u t d * q_comp4 T D a s t d
                                     * a t d)).
Proof.
  unfold sumT at 1.
  rewrite (@qsum_map_ext_in _ _
             (fun t => q_bar D a u t * q_bar D a s t * area_t D a t
                       + sumD D (fun d => q_comp_ T D a u t d
                                          * q_comp_ T D a s t d * a t d)))
    by (intros t Ht; apply in_seq in Ht; apply split_depth; lia).
  rewrite qsum_map_plus.
  fold (sumT T (fun t => q_bar D a u t * q_bar D a s t * area_t D a t)).
  rewrite split_time. unfold sumD at 1.
  rewrite (qsum_exchange (fun t d => q_comp_ T D a u t d * q_comp_ T D a s t d * a t d)
             (seq O T) (seq O D)).
  rewrite (@qsum_map_ext_in _ _
             (fun d => q_comp3 T D a u d * q_comp3 T D a s d * area_d T a d
                       + sumT T (fun t => q_comp4 T D a u t d
                                          * q_comp4 T D a s t d * a t d)))
    by (intros d Hd; apply in_seq in Hd; apply split_remainder; lia).
  rewrite qsum_map_plus. unfold sumT at 2.
  rewrite <- (qsum_exchange (fun t d => q_comp4 T D a u t d * q_comp4 T D a s t d * a t d)
             (seq O T) (seq O D)).
  unfold sumT, sumD. ring.
Qed.

Lemma q_decomposition :
  q_total T D a u s =
  q_flux1 T D a u s + q_flux2 T D a u s + q_flux3 T D a u s + q_flux4 T D a u s.
Proof.
  unfold q_total, q_flux1, q_flux2, q_flux3, q_flux4.
  rewrite q_decomposition_sums.
  unfold sumD at 3.
  rewrite (@qsum_map_ext_in _ _
             (fun d => q_comp3 T D a u d * q_comp3 T D a s d * area_d T a d
                       * / of_nat T))
    by (intros d _; unfold Qcdiv; ring).
  rewrite qsum_map_scal. unfold sumD. field. assumption.
Qed.

End Algebra.

(** ** From masked entries to rationals *)

Lemma is_zero_true (q : Qc) : is_zero q = true -> q = 0%Qc.
Proof.
  unfold is_zero. intros H. apply Qeq_bool_eq in H.
  apply Qc_is_canon. exact H.
Qed.

Lemma is_zero_false (q : Qc) : q <> 0%Qc -> is_zero q = false.
Proof.
  intros H. destruct (is_zero q) eqn:E; [|reflexivity].
  elim H. now apply is_zero_true.
Qed.

Lemma masked_div_Some (a b : Qc) :
  b <> 0%Qc -> masked_div (Some a) (Some b) = Some (a / b)%Qc.
Proof. intros H. simpl. now rewrite is_zero_false. Qed.

Lemma masked_binop_None_r (f : Qc -> Qc -> Qc) (x : elt) :
  masked_binop f x None = None.
Proof. now destruct x. Qed.

Lemma masked_sum_eval (X : Type) (F : X -> elt) (f : X -> Qc) (l : list X) :
  (forall i, In i l -> F i = Some (f i)) ->
  masked_sum (map F l) = Some (qsum (map f l)).
Proof.
  intros H. destruct l as [|i l]; [reflexivity|].
  cbn [map masked_sum forallb]. rewrite (H i) by (now left).
  cbn [is_masked andb]. do 2 f_equal; cbn [map filled].
  rewrite map_map. f_equal.
  apply map_ext_in. intros j Hj. now rewrite H by (now right).
Qed.

Lemma count_eval (X : Type) (F : X -> elt) (f : X -> Qc) (l : list X) :
  (forall i, In i l -> F i = Some (f i)) -> count (map F l) = length l.
Proof.
  intros H. unfold count. induction l as [|i l IH]; [reflexivity|].
  cbn [map filter]. rewrite (H i) by (now left). cbn [is_masked negb length].
  f_equal. apply IH. intros j Hj. apply H. now right.
Qed.

Lemma masked_mean_eval (X : Type) (F : X -> elt) (f : X -> Qc) (l : list X) :
  l <> [] ->
  (forall i, In i l -> F i = Some (f i)) ->
  masked_mean (map F l) = Some (qsum (map f l) / of_nat (length l))%Qc.
Proof.
  intros Hl H. unfold masked_mean. rewrite (count_eval F f l H).
  destruct l as [|i l]; [now elim Hl|]. cbn [length].
  do 3 f_equal. rewrite map_map. apply map_ext_in. intros j Hj. now rewrite H.
Qed.

Lemma masked_mean_nil : masked_mean [] = None.
Proof. reflexivity. Qed.

Lemma of_nat_neq0 (n : nat) : n <> 0 -> of_nat n <> 0%Qc.
Proof.
  intros H E. unfold of_nat in E. apply Q2Qc_eq_iff in E.
  unfold Qeq in E. simpl in E. lia.
Qed.

Lemma Qcdiv_neq0_l (p q : Qc) : (p / q)%Qc <> 0%Qc -> p <> 0%Qc.
Proof. intros H E. apply H. subst p. unfold Qcdiv. ring. Qed.

Section Bridge.

Variables T D x : nat.
Variables A U Sa : nat -> nat -> nat -> elt.
Variables a u s : nat -> nat -> Qc.

Hypothesis HA : forall t d, A t x d = Some (a t d).
Hypothesis HU : forall t d, U t x d = Some (u t d).
Hypothesis HS : forall t d, Sa t x d = Some (s t d).

Lemma seq_neq_nil (n : nat) : n <> 0 -> seq 0 n <> [].
Proof. destruct n; [congruence | discriminate]. Qed.

Lemma eval_sum_depth (V : nat -> nat -> nat -> elt) (v : nat -> nat -> Qc) (t : nat) :
  (forall d, d < D -> V t x d = Some (v t d)) ->
  sum_depth D V t x = Some (sumD D (v t)).
Proof.
  intros HV. apply masked_sum_eval. intros d Hd. apply in_seq in Hd.
  apply HV; lia.
Qed.

Lemma eval_mean_time (V : nat -> nat -> nat -> elt) (v : nat -> nat -> Qc) (d : nat) :
  T <> 0 ->
  (forall t, t < T -> V t x d = Some (v t d)) ->
  mean_time T V x d = Some (sumT T (fun t => v t d) / of_nat T)%Qc.
Proof.
  intros HT HV. unfold mean_time.
  rewrite (@masked_mean_eval _ _ (fun t => v t d)).
  - now rewrite length_seq.
  - now apply seq_neq_nil.
  - intros t Ht. apply in_seq in Ht. apply HV; lia.
Qed.

Lemma eval_mean_sum (V : nat -> nat -> nat -> elt) (v : nat -> nat -> Qc) :
  T <> 0 ->
  (forall t d, t < T -> d < D -> V t x d = Some (v t d)) ->
  mean_sum T D V x = Some (sumT T (fun t => sumD D (v t)) / of_nat T)%Qc.
Proof.
  intros HT HV. unfold mean_sum.
  rewrite (@masked_mean_eval _ _ (fun t => sumD D (v t))).
  - now rewrite length_seq.
  - now apply seq_neq_nil.
  - intros t Ht. apply in_seq in Ht. apply eval_sum_depth.
    intros d Hd. apply HV; lia.
Qed.

Lemma eval_times (V W : nat -> nat -> nat -> elt) (v w : Qc) (t d : nat) :
  V t x d = Some v -> W t x d = Some w ->
  times V W t x d = Some (v * w)%Qc.
Proof. intros HV HW. unfold times. now rewrite HV, HW. Qed.

Hypothesis HT : T <> 0.
Hypothesis Hden1 : mean_sum T D A x <> Some 0%Qc.
Hypothesis Hden2 : forall t, t < T -> sum_depth D A t x <> Some 0%Qc.
Hypothesis Hden3 : forall d, d < D -> mean_time T A x d <> Some 0%Qc.

Lemma den1_neq0 : (area T D a / of_nat T)%Qc <> 0%Qc.
Proof.
  intros E. apply Hden1. rewrite (@eval_mean_sum A a HT) by (intros; apply HA).
  f_equal. exact E.
Qed.

Lemma den2_neq0 (t : nat) : t < T -> area_t D a t <> 0%Qc.
Proof.
  intros Ht E. apply (Hden2 Ht).
  rewrite (@eval_sum_depth A a t) by (intros; apply HA).
  f_equal. exact E.
Qed.

Lemma den3_neq0 (d : nat) : d < D -> (area_d T a d / of_nat T)%Qc <> 0%Qc.
Proof.
  intros Hd E. apply (Hden3 Hd).
  rewrite (@eval_mean_time A a d HT) by (intros; apply HA).
  f_equal. exact E.
Qed.

Section Components.

Variable V : nat -> nat -> nat -> elt.
Variable v : nat -> nat -> Qc.
Hypothesis HV : forall t d, V t x d = Some (v t d).

Lemma eval_component1 : den_component1 T D A V x = Some (q_comp1 T D a v).
Proof.
  unfold den_component1.
  rewrite (@eval_mean_sum (times V A) (fun t d => v t d * a t d)%Qc HT)
    by (intros; now apply eval_times).
  rewrite (@eval_mean_sum A a HT) by (intros; apply HA).
  rewrite masked_div_Some by apply den1_neq0.
  reflexivity.
Qed.

Lemma eval_component2 (t : nat) :
  t < T -> den_component2 T D A V t x = Some (q_comp2 T D a v t).
Proof.
  intros Ht. unfold den_component2.
  rewrite (@eval_sum_depth (times V A) (fun t d => v t d * a t d)%Qc)
    by (intros; now apply eval_times).
  rewrite (@eval_sum_depth A a t) by (intros; apply HA).
  rewrite masked_div_Some by (now apply den2_neq0).
  rewrite eval_component1. reflexivity.
Qed.

Lemma eval_component_ (t d : nat) :
  t < T -> den_component_ T D A V t x d = Some (q_comp_ T D a v t d).
Proof.
  intros Ht. unfold den_component_.
  rewrite HV, eval_component2, eval_component1 by assumption. reflexivity.
Qed.

Lemma eval_component3 (d : nat) :
  d < D -> den_component3 T D A V x d = Some (q_comp3 T D a v d).
Proof.
  intros Hd. unfold den_component3.
  rewrite (@eval_mean_time (times (den_component_ T D A V) A)
             (fun t d => q_comp_ T D a v t d * a t d)%Qc d HT)
    by (intros; apply eval_times; [now apply eval_component_ | apply HA]).
  rewrite (@eval_mean_time A a d HT) by (intros; apply HA).
  rewrite masked_div_Some by (now apply den3_neq0).
  reflexivity.
Qed.

Lemma eval_component4 (t d : nat) :
  t < T -> d < D -> den_component4 T D A V t x d = Some (q_comp4 T D a v t d).
Proof.
  intros Ht Hd. unfold den_component4.
  rewrite eval_component_, eval_component3 by assumption. reflexivity.
Qed.

End Components.

Lemma eval_flux1 : den_flux1 T D A U Sa x = Some (q_flux1 T D a u s).
Proof.
  unfold den_flux1.
  rewrite (@eval_component1 U u HU), (@eval_component1 Sa s HS).
  rewrite (@eval_mean_sum A a HT) by (intros; apply HA).
  reflexivity.
Qed.

Lemma eval_flux2 : den_flux2 T D A U Sa x = Some (q_flux2 T D a u s).
Proof.
  unfold den_flux2.
  rewrite (@masked_mean_eval _ _
             (fun t => q_comp2 T D a u t * q_comp2 T D a s t * area_t D a t)%Qc).
  - now rewrite length_seq.
  - now apply seq_neq_nil.
  - intros t Ht. apply in_seq in Ht.
    rewrite (@eval_component2 U u HU), (@eval_component2 Sa s HS) by lia.
    rewrite (@eval_sum_depth A a t) by (intros; apply HA).
    reflexivity.
Qed.

Lemma eval_flux3 : den_flux3 T D A U Sa x = Some (q_flux3 T D a u s).
Proof.
  unfold den_flux3.
  apply (@masked_sum_eval _ _
           (fun d => q_comp3 T D a u d * q_comp3 T D a s d
                     * (area_d T a d / of_nat T))%Qc).
  intros d Hd. apply in_seq in Hd.
  rewrite (@eval_component3 U u HU), (@eval_component3 Sa s HS) by lia.
  rewrite (@eval_mean_time A a d HT) by (intros; apply HA).
  reflexivity.
Qed.

Lemma eval_flux4 : den_flux4 T D A U Sa x = Some (q_flux4 T D a u s).
Proof.
  unfold den_flux4.
  apply (@eval_mean_sum _
           (fun t d => q_comp4 T D a u t d * q_comp4 T D a s t d * a t d)%Qc HT).
  intros t d Ht Hd. apply eval_times; [|apply HA].
  apply eval_times; [apply (@eval_component4 U u HU) | apply (@eval_component4 Sa s HS)];
    assumption.
Qed.

Lemma eval_total : den_total T D A U Sa x = Some (q_total T D a u s).
Proof.
  unfold den_total.
  apply (@eval_mean_sum _ (fun t d => u t d * s t d * a t d)%Qc HT).
  intros t d Ht Hd. apply eval_times; [|apply HA].
  apply eval_times; [apply HU | apply HS].
Qed.

End Bridge.

(** The decomposition at one place, on masked entries: when the three fields
    have no masked entry at the place [x] and no denominator is zero there,
    the total transport is the sum of the four fluxes. *)
Lemma den_decomposition (T D x : nat) (A U Sa : nat -> nat -> nat -> elt)
    (a u s : nat -> nat -> Qc) :
  (forall t d, A t x d = Some (a t d)) ->
  (forall t d, U t x d = Some (u t d)) ->
  (forall t d, Sa t x d = Some (s t d)) ->
  mean_sum T D A x <> Some 0%Qc ->
  (forall t, t < T -> sum_depth D A t x <> Some 0%Qc) ->
  (forall d, d < D -> mean_time T A x d <> Some 0%Qc) ->
  madd (madd (madd (den_flux1 T D A U Sa x) (den_flux2 T D A U Sa x))
             (den_flux3 T D A U Sa x))
       (den_flux4 T D A U Sa x)
  = den_total T D A U Sa x.
Proof.
  intros HA HU HS H1 H2 H3.
  destruct (Nat.eq_dec T 0) as [E|HT].
  - (* no time step: every mean is invalid *)
    subst T. unfold den_total, den_flux1, mean_sum. cbn [seq map].
    rewrite masked_mean_nil. unfold mmul. rewrite masked_binop_None_r.
    reflexivity.
  - rewrite (@eval_flux1 T D x A U Sa a u s), (@eval_flux2 T D x A U Sa a u s),
      (@eval_flux3 T D x A U Sa a u s), (@eval_flux4 T D x A U Sa a u s),
      (@eval_total T D x A U Sa a u s) by assumption.
    cbn [madd masked_binop]. f_equal. symmetry. apply q_decomposition.
    + now apply of_nat_neq0.
    + apply Qcdiv_neq0_l with (q := of_nat T).
      now apply (@den1_neq0 T D x A a).
    + intros t Ht. now apply (@den2_neq0 T D x A a).
    + intros d Hd. apply Qcdiv_neq0_l with (q := of_nat T).
      now apply (@den3_neq0 T D x A a).
Qed.

(** ** The properties and the fluxes of a fresh instance *)

Lemma bind_assoc (X Y Z : Type) (m : result X) (f : X -> result Y)
    (g : Y -> result Z) :
  bind (bind m f) g = bind m (fun x => bind (f x) g).
Proof. now destruct m. Qed.

Lemma flux1_miss (self : SFD) :
  _flux0 self = None ->
  flux1 self = (v <- flux1_value self ;; Ok (v, set_flux0 (log_calc self v) v)).
Proof.
  intros H. unfold flux1, flux1_value, flux1_product. rewrite H, calc_flux_call.
  now destruct (value (_calc_flux self (component1 self) (avg_time_int_depth self))).
Qed.

Lemma flux2_miss (self : SFD) :
  _flux1 self = None ->
  flux2 self =
  (p <- flux2_product self ;;
   v <- avg_time self p ;;
   Ok (v, set_flux1 (log_calc self p) v)).
Proof.
  intros H. unfold flux2, flux2_product. rewrite H, calc_flux_call.
  now destruct (value (_calc_flux self (fun x => component2 self x None)
                         (int_depth self))).
Qed.

Lemma flux3_miss (self : SFD) :
  _flux3 self = None ->
  flux3 self =
  (p <- flux3_product self ;;
   v <- int_depth self p ;;
   Ok (v, set_flux3 (log_calc self p) v)).
Proof.
  intros H. unfold flux3, flux3_product. rewrite H, calc_flux_call.
  now destruct (value (_calc_flux self (fun x => component3 self x false)
                         (avg_time self))).
Qed.

Lemma flux4_miss (self : SFD) :
  _flux4 self = None ->
  flux4 self =
  (p <- flux4_product self ;;
   v <- avg_time_int_depth self p ;;
   Ok (v, set_flux4 (log_calc self p) v)).
Proof.
  intros H. unfold flux4, flux4_product. rewrite H, calc_flux_call.
  now destruct (value (_calc_flux self (fun x => component4 self x false None)
                         (fun x => Ok x))).
Qed.

(** The value of a property whose slot is empty. *)
Lemma value_flux1_miss (self : SFD) :
  _flux0 self = None -> value (flux1 self) = flux1_value self.
Proof.
  intros H. rewrite (flux1_miss self H). now destruct (flux1_value self).
Qed.

Lemma value_flux2_miss (self : SFD) :
  _flux1 self = None -> value (flux2 self) = flux2_value self.
Proof.
  intros H. rewrite (flux2_miss self H). unfold flux2_value.
  destruct (flux2_product self) as [p|]; [|reflexivity]. cbn [bind].
  now destruct (avg_time self p).
Qed.

Lemma value_flux3_miss (self : SFD) :
  _flux3 self = None -> value (flux3 self) = flux3_value self.
Proof.
  intros H. rewrite (flux3_miss self H). unfold flux3_value.
  destruct (flux3_product self) as [p|]; [|reflexivity]. cbn [bind].
  now destruct (int_depth self p).
Qed.

Lemma value_flux4_miss (self : SFD) :
  _flux4 self = None -> value (flux4 self) = flux4_value self.
Proof.
  intros H. rewrite (flux4_miss self H). unfold flux4_value.
  destruct (flux4_product self) as [p|]; [|reflexivity]. cbn [bind].
  now destruct (avg_time_int_depth self p).
Qed.

Lemma flux1_hit (self : SFD) (v : ndarray) :
  _flux0 self = Some v -> flux1 self = Ok (v, self).
Proof. intros H. unfold flux1. now rewrite H. Qed.

Lemma flux2_hit (self : SFD) (v : ndarray) :
  _flux1 self = Some v -> flux2 self = Ok (v, self).
Proof. intros H. unfold flux2. now rewrite H. Qed.

Lemma flux3_hit (self : SFD) (v : ndarray) :
  _flux3 self = Some v -> flux3 self = Ok (v, self).
Proof. intros H. unfold flux3. now rewrite H. Qed.

Lemma flux4_hit (self : SFD) (v : ndarray) :
  _flux4 self = Some v -> flux4 self = Ok (v, self).
Proof. intros H. unfold flux4. now rewrite H. Qed.

(** Two instances hold the same fields and the same axes: the methods
    compute the same values on both. *)
Lemma flux_values_same_fields (s self : SFD) :
  same_fields s self ->
  flux1_value s = flux1_value self /\ flux2_value s = flux2_value self /\
  flux3_value s = flux3_value self /\ flux4_value s = flux4_value self.
Proof.
  unfold flux1_value, flux2_value, flux3_value, flux4_value,
    flux1_product, flux2_product, flux3_product, flux4_product.
  rewrite !calc_flux_value.
  destruct s, self. unfold same_fields. cbn.
  intros (-> & -> & -> & -> & ->). repeat split.
Qed.

(** An access that returns keeps the fields and the axes, and fills the slot
    of its flux only. *)
Lemma flux1_access (self self' : SFD) (v : ndarray) :
  flux1 self = Ok (v, self') ->
  same_fields self' self /\
  _flux0 self' = Some v /\ _flux1 self' = _flux1 self /\
  _flux3 self' = _flux3 self /\ _flux4 self' = _flux4 self.
Proof.
  destruct (_flux0 self) as [c|] eqn:E.
  - rewrite (flux1_hit self E). intros H. injection H as <- <-.
    rewrite E. repeat split.
  - rewrite (flux1_miss self E).
    destruct (flux1_value self); [|discriminate].
    intros H. injection H as <- <-. repeat split.
Qed.

Lemma flux2_access (self self' : SFD) (v : ndarray) :
  flux2 self = Ok (v, self') ->
  same_fields self' self /\
  _flux0 self' = _flux0 self /\ _flux1 self' = Some v /\
  _flux3 self' = _flux3 self /\ _flux4 self' = _flux4 self.
Proof.
  destruct (_flux1 self) as [c|] eqn:E.
  - rewrite (flux2_hit self E). intros H. injection H as <- <-.
    rewrite E. repeat split.
  - rewrite (flux2_miss self E).
    destruct (flux2_product self) as [p|]; [|discriminate]. cbn [bind].
    destruct (avg_time self p); [|discriminate].
    intros H. injection H as <- <-. repeat split.
Qed.

Lemma flux3_access (self self' : SFD) (v : ndarray) :
  flux3 self = Ok (v, self') ->
  same_fields self' self /\
  _flux0 self' = _flux0 self /\ _flux1 self' = _flux1 self /\
  _flux3 self' = Some v /\ _flux4 self' = _flux4 self.
Proof.
  destruct (_flux3 self) as [c|] eqn:E.
  - rewrite (flux3_hit self E). intros H. injection H as <- <-.
    rewrite E. repeat split.
  - rewrite (flux3_miss self E).
    destruct (flux3_product self) as [p|]; [|discriminate]. cbn [bind].
    destruct (int_depth self p); [|discriminate].
    intros H. injection H as <- <-. repeat split.
Qed.

Lemma flux4_access (self self' : SFD) (v : ndarray) :
  flux4 self = Ok (v, self') ->
  same_fields self' self /\
  _flux0 self' = _flux0 self /\ _flux1 self' = _flux1 self /\
  _flux3 self' = _flux3 self /\ _flux4 self' = Some v.
Proof.
  destruct (_flux4 self) as [c|] eqn:E.
  - rewrite (flux4_hit self E). intros H. injection H as <- <-.
    rewrite E. repeat split.
  - rewrite (flux4_miss self E).
    destruct (flux4_product self) as [p|]; [|discriminate]. cbn [bind].
    destruct (avg_time_int_depth self p); [|discriminate].
    intros H. injection H as <- <-. repeat split.
Qed.

(** On an instance whose four slots are empty, [fluxes] computes the four
    values one after the other. *)
Lemma fluxes_fresh (self : SFD) :
  _flux0 self = None -> _flux1 self = None ->
  _flux3 self = None -> _flux4 self = None ->
  value (fluxes self) =
  (v1 <- flux1_value self ;;
   v2 <- flux2_value self ;;
   v3 <- flux3_value self ;;
   v4 <- flux4_value self ;;
   Ok (v1, v2, v3, v4)).
Proof.
  intros H0 H1 H3 H4. unfold fluxes.
  pose proof (value_flux1_miss self H0) as V1.
  destruct (flux1 self) as [[v1 s1]|e] eqn:E1; cbn [value] in V1;
    rewrite <- V1; [|reflexivity].
  destruct (flux1_access _ E1) as (F1 & _ & A1 & A3 & A4).
  cbn [bind snd fst].
  pose proof (value_flux2_miss s1 (eq_trans A1 H1)) as V2.
  rewrite (proj1 (proj2 (flux_values_same_fields F1))) in V2.
  destruct (flux2 s1) as [[v2 s2]|e] eqn:E2; cbn [value] in V2;
    rewrite <- V2; [|reflexivity].
  destruct (flux2_access _ E2) as (F2 & _ & _ & B3 & B4).
  cbn [bind snd fst].
  assert (F12 : same_fields s2 self).
  { destruct F1 as (? & ? & ? & ? & ?), F2 as (? & ? & ? & ? & ?).
    repeat split; congruence. }
  pose proof (value_flux3_miss s2 (eq_trans B3 (eq_trans A3 H3))) as V3.
  rewrite (proj1 (proj2 (proj2 (flux_values_same_fields F12)))) in V3.
  destruct (flux3 s2) as [[v3 s3]|e] eqn:E3; cbn [value] in V3;
    rewrite <- V3; [|reflexivity].
  destruct (flux3_access _ E3) as (F3 & _ & _ & _ & C4).
  cbn [bind snd fst].
  assert (F123 : same_fields s3 self).
  { destruct F12 as (? & ? & ? & ? & ?), F3 as (? & ? & ? & ? & ?).
    repeat split; congruence. }
  pose proof (value_flux4_miss s3
                (eq_trans C4 (eq_trans B4 (eq_trans A4 H4)))) as V4.
  rewrite (proj2 (proj2 (proj2 (flux_values_same_fields F123)))) in V4.
  destruct (flux4 s3) as [[v4 s4]|e] eqn:E4; cbn [value] in V4;
    rewrite <- V4; reflexivity.
Qed.

(** The four values of a fresh instance, as [fluxes] returns them. *)
Lemma fluxes_fresh_ok (self : SFD) (v1 v2 v3 v4 : ndarray) :
  _flux0 self = None -> _flux1 self = None ->
  _flux3 self = None -> _flux4 self = None ->
  flux1_value self = Ok v1 -> flux2_value self = Ok v2 ->
  flux3_value self = Ok v3 -> flux4_value self = Ok v4 ->
  exists self', fluxes self = Ok ((v1, v2, v3, v4), self').
Proof.
  intros H0 H1 H3 H4 E1 E2 E3 E4. apply value_Ok.
  rewrite (fluxes_fresh self H0 H1 H3 H4), E1, E2, E3, E4. reflexivity.
Qed.

Lemma shape_eqb_refl (sh : list nat) : shape_eqb sh sh = true.
Proof. induction sh as [|n sh IH]; simpl; [reflexivity|]. now rewrite Nat.eqb_refl. Qed.

Lemma shape_eqb_eq (sh1 sh2 : list nat) : shape_eqb sh1 sh2 = true <-> sh1 = sh2.
Proof.
  split; [|intros ->; apply shape_eqb_refl].
  revert sh2. induction sh1 as [|m sh1 IH]; intros [|n sh2] H; simpl in H;
    try discriminate; [reflexivity|].
  apply andb_prop in H as [H1 H2]. apply Nat.eqb_eq in H1.
  now rewrite H1, (IH _ H2).
Qed.

(** Construction with fields of one shape. *)
Lemma init_ok (fl sa cs : ndarray) (kwargs : kwargs_t) :
  shape fl = shape sa -> shape sa = shape cs ->
  __init__ fl sa cs kwargs =
  Ok (mkSFD fl sa cs (kwargs_get kwargs "time_axis" 0%Z)
        (kwargs_get kwargs "depth_axis" (-1)%Z) None None None None []).
Proof.
  intros H1 H2. unfold __init__. now rewrite H1, H2, !shape_eqb_refl.
Qed.

(** The fluxes of a fresh instance with fields of shape [(T, S, D)] and the
    default axes. *)
Lemma fluxes_repr (fl sa cs : ndarray) (T S D : nat)
    (U Sa A : nat -> nat -> nat -> elt) :
  repr3 fl T S D U -> repr3 sa T S D Sa -> repr3 cs T S D A ->
  exists self f1 f2 f3 f4 self' tot,
    __init__ fl sa cs [] = Ok self /\
    fluxes self = Ok ((f1, f2, f3, f4), self') /\
    total_transport self = Ok tot /\
    flux1_value self = Ok f1 /\ flux2_value self = Ok f2 /\
    flux3_value self = Ok f3 /\ flux4_value self = Ok f4 /\
    repr1 f1 S (den_flux1 T D A U Sa) /\
    repr1 f2 S (den_flux2 T D A U Sa) /\
    repr1 f3 S (den_flux3 T D A U Sa) /\
    repr1 f4 S (den_flux4 T D A U Sa) /\
    repr1 tot S (den_total T D A U Sa).
Proof.
  intros HU HS HA.
  set (self := mkSFD fl sa cs 0%Z (-1)%Z None None None None []).
  assert (Ht : time_axis self = 0%Z) by reflexivity.
  assert (Hd : depth_axis self = (-1)%Z) by reflexivity.
  destruct (calc_flux1_repr self Ht Hd HU HS HA) as (f1 & E1 & R1).
  destruct (calc_flux2_repr self Ht Hd HU HS HA) as (f2 & E2 & R2).
  destruct (calc_flux3_repr self Ht Hd HU HS HA) as (f3 & E3 & R3).
  destruct (calc_flux4_repr self Ht Hd HU HS HA) as (f4 & E4 & R4).
  destruct (total_transport_repr self Ht Hd HU HS HA) as (tot & E5 & R5).
  destruct (@fluxes_fresh_ok self f1 f2 f3 f4 eq_refl eq_refl eq_refl eq_refl
              E1 E2 E3 E4) as (self' & Hfl).
  exists self, f1, f2, f3, f4, self', tot.
  split.
  { apply init_ok; [destruct HU, HS | destruct HS, HA]; congruence. }
  split; [exact Hfl|].
  repeat split; (assumption || apply R1 || apply R2 || apply R3 || apply R4
                 || apply R5).
Qed.

Lemma get_unmasked (a : ndarray) (idx : list nat) :
  valid a = true -> no_mask a = true -> in_range (shape a) idx ->
  get a idx = Some (filled (get a idx)).
Proof.
  unfold valid, no_mask, get. intros Hv Hm Hr.
  apply Nat.eqb_eq in Hv.
  destruct (nth_indices [] Hr) as [Hlt _]. rewrite <- Hv in Hlt.
  pose proof (nth_In (data a) None Hlt) as Hin.
  rewrite forallb_forall in Hm. specialize (Hm _ Hin).
  destruct (nth (ravel (shape a) idx) (data a) None); [reflexivity | discriminate].
Qed.

Lemma repr3_filled (a : ndarray) (m n p : nat) :
  shape a = [m; n; p] -> valid a = true -> no_mask a = true ->
  repr3 a m n p (fun i j k => Some (filled (get a [i; j; k]))).
Proof.
  intros Hs Hv Hm. split; [assumption|].
  intros i j k Hi Hj Hk. apply get_unmasked; trivial.
  rewrite Hs. now apply in_range_3.
Qed.

Lemma nonzero_at_neq (a : ndarray) (idx : list nat) :
  nonzero_at (Ok a) idx = true -> get a idx <> Some 0%Qc.
Proof.
  simpl. intros H E. rewrite E in H. discriminate.
Qed.

(** C4.  For fields of shape [(T, S, D)] and the default axes (time first, depth
    last), construction succeeds, [fluxes] returns four arrays, each of
    shape [(S,)], and they are, in order, the values of [flux1], [flux2],
    [flux3] and [flux4]. *)
Theorem fluxes_shape (fl sa cs : ndarray) (T S D : nat) :
  shape fl = [T; S; D] -> shape sa = [T; S; D] -> shape cs = [T; S; D] ->
  exists self f1 f2 f3 f4 self',
    __init__ fl sa cs [] = Ok self /\
    fluxes self = Ok ((f1, f2, f3, f4), self') /\
    shape f1 = [S] /\ shape f2 = [S] /\ shape f3 = [S] /\ shape f4 = [S] /\
    value (flux1 self) = Ok f1 /\ value (flux2 self) = Ok f2 /\
    value (flux3 self) = Ok f3 /\ value (flux4 self) = Ok f4.
Proof.
  intros Hf Hs Hc.
  destruct (fluxes_repr (repr3_self fl Hf) (repr3_self sa Hs) (repr3_self cs Hc))
    as (self & f1 & f2 & f3 & f4 & self' & tot & Hinit & Hfl & _ &
        E1 & E2 & E3 & E4 & R1 & R2 & R3 & R4 & _).
  exists self, f1, f2, f3, f4, self'.
  rewrite init_ok in Hinit by congruence. injection Hinit as <-.
  split; [apply init_ok; congruence|].
  split; [assumption|].
  split; [apply R1|]. split; [apply R2|]. split; [apply R3|].
  split; [apply R4|].
  rewrite value_flux1_miss, value_flux2_miss, value_flux3_miss,
    value_flux4_miss by reflexivity.
  repeat split; assumption.
Qed.

Lemma fluxes_shape_witness :
  exists self f1 f2 f3 f4 self',
    __init__ uniform_flow uniform_salinity uniform_cross_section [] = Ok self /\
    fluxes self = Ok ((f1, f2, f3, f4), self') /\
    shape f1 = [10] /\ shape f2 = [10] /\ shape f3 = [10] /\ shape f4 = [10] /\
    value (flux1 self) = Ok f1 /\ value (flux2 self) = Ok f2 /\
    value (flux3 self) = Ok f3 /\ value (flux4 self) = Ok f4.
Proof.
  apply (@fluxes_shape uniform_flow uniform_salinity uniform_cross_section
           10 10 10); reflexivity.
Defined.

(** ** Computed values *)

Lemma elt_eqb_eq (x y : elt) : elt_eqb x y = true -> x = y.
Proof.
  destruct x as [p|], y as [q|]; simpl; try discriminate; [|reflexivity].
  intros H. f_equal. apply Qc_is_canon. now apply Qeq_bool_eq.
Qed.

Lemma data_eqb_eq (l1 l2 : list elt) : data_eqb l1 l2 = true -> l1 = l2.
Proof.
  revert l2. induction l1 as [|x l1 IH]; intros [|y l2] H; simpl in H;
    try discriminate; [reflexivity|].
  apply andb_prop in H as [H1 H2].
  now rewrite (elt_eqb_eq _ _ H1), (IH _ H2).
Qed.

Lemma nd_eqb_eq (a b : ndarray) : nd_eqb a b = true -> a = b.
Proof.
  destruct a as [sa da], b as [sb db]. unfold nd_eqb; simpl. intros H.
  apply andb_prop in H as [H1 H2]. apply shape_eqb_eq in H1.
  now rewrite H1, (data_eqb_eq _ _ H2).
Qed.

Lemma get_full (sh idx : list nat) (q : Qc) :
  in_range sh idx -> get (np.full sh q) idx = Some q.
Proof. intros H. unfold np.full. now rewrite get_tabulate. Qed.

Lemma test_masked_decomposition_true : test_masked_decomposition = true.
Proof. vm_compute. reflexivity. Qed.


Lemma fluxes_check_sound
    (r : result ((ndarray * ndarray * ndarray * ndarray) * SFD))
    (e1 e2 e3 e4 : ndarray) :
  fluxes_check r e1 e2 e3 e4 = true ->
  exists self', r = Ok ((e1, e2, e3, e4), self').
Proof.
  destruct r as [[[[[f1 f2] f3] f4] self']|]; simpl; [|discriminate].
  intros H. apply andb_prop in H as [H H4]. apply andb_prop in H as [H H3].
  apply andb_prop in H as [H1 H2].
  apply nd_eqb_eq in H1, H2, H3, H4. subst. now exists self'.
Qed.

(** The embedding passes the tests of the repository on the fluxes of the
    uniform and of the wedge fixture. *)
Example test_uniform_true : test_uniform = true.
Proof. vm_compute. reflexivity. Qed.

Example test_wedge_true : test_wedge = true.
Proof. vm_compute. reflexivity. Qed.

(** C7.  For the uniform input of shape (10, 10, 10), flow velocity 1, salinity 30
    and area 1 everywhere, [flux1] is 300 at every place and [flux2],
    [flux3] and [flux4] are 0 at every place. *)
Theorem fluxes_uniform :
  exists self f1 f2 f3 f4 self',
    __init__ uniform_flow uniform_salinity uniform_cross_section [] = Ok self /\
    fluxes self = Ok ((f1, f2, f3, f4), self') /\
    shape f1 = [10] /\ shape f2 = [10] /\ shape f3 = [10] /\ shape f4 = [10] /\
    forall x, x < 10 ->
      get f1 [x] = Some (of_nat 300) /\ get f2 [x] = Some 0%Qc /\
      get f3 [x] = Some 0%Qc /\ get f4 [x] = Some 0%Qc.
Proof.
  destruct (@fluxes_check_sound
              (fluxes (mkSFD uniform_flow uniform_salinity uniform_cross_section
                         0%Z (-1)%Z None None None None []))
              (np.full [10] (of_nat 300)) (np.full [10] 0%Qc)
              (np.full [10] 0%Qc) (np.full [10] 0%Qc)) as [self' E].
  { vm_compute. reflexivity. }
  exists (mkSFD uniform_flow uniform_salinity uniform_cross_section
            0%Z (-1)%Z None None None None []),
    (np.full [10] (of_nat 300)), (np.full [10] 0%Qc),
    (np.full [10] 0%Qc), (np.full [10] 0%Qc), self'.
  split; [now apply init_ok|]. split; [exact E|].
  repeat (split; [reflexivity|]).
  intros x Hx. rewrite !get_full by (now apply in_range_1). repeat split.
Qed.

(** ** The formula of [flux1] *)

(** On the small fields [flux1] returns an array, and the formula with the
    outer reduction raises: the product has one axis, and once
    [int_depth] has summed it there is no axis left for [avg_time]. *)
Lemma flux1_not_reduced :
  __init__ small_flow small_salinity small_cross_section [] = Ok small_self /\
  (exists f1, value (flux1 small_self) = Ok f1) /\
  flux1_spec_formula small_self = Raise (AxisError 0 0) /\
  value (flux1 small_self) <> flux1_spec_formula small_self.
Proof.
  assert (E : flux1_spec_formula small_self = Raise (AxisError 0 0))
    by (vm_compute; reflexivity).
  assert (F : exists f1, value (flux1 small_self) = Ok f1).
  { destruct (fluxes_repr (repr3_self small_flow eq_refl)
                (repr3_self small_salinity eq_refl)
                (repr3_self small_cross_section eq_refl))
      as (self & f1 & _ & _ & _ & _ & _ & Hi & _ & _ & H1 & _).
    rewrite init_ok in Hi by reflexivity. injection Hi as <-.
    exists f1. unfold small_self. rewrite flux1_miss by reflexivity.
    now rewrite H1. }
  split; [now apply init_ok|]. split; [exact F|]. split; [exact E|].
  destruct F as [f1 F]. rewrite F, E. discriminate.
Qed.

(** ** Construction *)

(** C3.  Construction succeeds when the three fields have one shape, and raises a
    [ValueError] whose message gives the three shapes when two of them
    differ; it then returns no instance. *)
Theorem init_shape_check (fl sa cs : ndarray) (kwargs : kwargs_t) :
  (shape fl = shape sa /\ shape sa = shape cs ->
   exists self, __init__ fl sa cs kwargs = Ok self /\
                flow self = fl /\ salinity self = sa /\ cross_section self = cs) /\
  (~ (shape fl = shape sa /\ shape sa = shape cs) ->
   __init__ fl sa cs kwargs =
   Raise (ValueError (shape_msg (shape fl) (shape sa) (shape cs)))).
Proof.
  split.
  - intros [H1 H2]. rewrite (init_ok fl sa cs kwargs H1 H2).
    eexists. split; [reflexivity|]. repeat split.
  - intros H. unfold __init__.
    destruct (shape_eqb (shape fl) (shape sa)) eqn:E1;
      [destruct (shape_eqb (shape sa) (shape cs)) eqn:E2|]; try reflexivity.
    elim H. split; now apply shape_eqb_eq.
Qed.

(** [test_invalid_input]: a flow field of shape (10, 8, 10). *)
Lemma init_shape_check_witness :
  (exists self,
     __init__ uniform_flow uniform_salinity uniform_cross_section [] = Ok self /\
     flow self = uniform_flow /\ salinity self = uniform_salinity /\
     cross_section self = uniform_cross_section) /\
  __init__ (np.full [10; 8; 10] 1%Qc) uniform_salinity uniform_cross_section [] =
  Raise (ValueError
    ("`flow`, `salinity`, and `cross_section` must all have the same shape; "
     ++ "`flow.shape=(10, 8, 10)`, `salinity.shape=(10, 10, 10)`, "
     ++ "`cross_section.shape=(10, 10, 10)`")).
Proof.
  split.
  - apply (init_shape_check uniform_flow uniform_salinity uniform_cross_section []).
    split; reflexivity.
  - apply (init_shape_check (np.full [10; 8; 10] 1%Qc) uniform_salinity
             uniform_cross_section []).
    intros [H _]. discriminate H.
Defined.

(** The first reduction of [flux1] raises when the depth axis is out of
    range for the fields, and the second one when the time axis is out of
    range once the depth axis is gone. *)
Lemma flux1_axis_error (self : SFD) :
  _flux0 self = None ->
  shape (flow self) = shape (cross_section self) ->
  shape (flow self) <> [] ->
  (~ (- Z.of_nat (length (shape (flow self))) <= depth_axis self
      < Z.of_nat (length (shape (flow self))))%Z ->
   flux1 self =
   Raise (AxisError (depth_axis self) (length (shape (flow self))))) /\
  ((- Z.of_nat (length (shape (flow self))) <= depth_axis self
    < Z.of_nat (length (shape (flow self))))%Z ->
   2 <= length (shape (flow self)) ->
   ~ (- Z.of_nat (length (shape (flow self)) - 1) <= time_axis self
      < Z.of_nat (length (shape (flow self)) - 1))%Z ->
   flux1 self =
   Raise (AxisError (time_axis self) (length (shape (flow self)) - 1))).
Proof.
  intros H0 Hs Hne.
  destruct (@broadcast_same_shape (masked_binop Qcmult) (flow self)
              (cross_section self) Hs) as (p & Ep & Hp & _).
  assert (Hpne : shape p <> []) by (now rewrite Hp).
  assert (F : forall e, avg_time_int_depth self p = Raise e -> flux1 self = Raise e).
  { intros e He. rewrite (flux1_miss self H0).
    unfold flux1_value, flux1_product. rewrite calc_flux_value.
    unfold component1 at 1, _component. unfold ma.multiply at 1.
    rewrite Ep. cbn [bind]. now rewrite He. }
  split.
  - intros Hd. apply F. unfold avg_time_int_depth, int_depth.
    rewrite sum_reduce by exact Hpne. unfold reduce.
    now rewrite Hp, normalize_axis_raise.
  - intros Hd Hn Ht. apply F. unfold avg_time_int_depth, int_depth.
    rewrite sum_reduce by exact Hpne.
    destruct (@reduce_shape masked_sum p (depth_axis self)
                (Z.to_nat (if (depth_axis self <? 0)%Z
                           then depth_axis self
                                + Z.of_nat (length (shape (flow self)))
                           else depth_axis self)%Z))
      as (r & Er & Hr).
    { rewrite Hp. now apply normalize_axis_ok. }
    rewrite Er. cbn [bind].
    assert (Hlen : length (shape r) = length (shape (flow self)) - 1).
    { rewrite Hr, Hp.
      pose proof (@length_remove_at _
                    (Z.to_nat (if (depth_axis self <? 0)%Z
                               then depth_axis self
                                    + Z.of_nat (length (shape (flow self)))
                               else depth_axis self)%Z)
                    (shape (flow self))) as L.
      destruct (Z.ltb_spec (depth_axis self) 0); lia. }
    unfold avg_time. rewrite mean_reduce.
    + unfold reduce. rewrite Hlen. now rewrite normalize_axis_raise.
    + intros Hnil. rewrite Hnil in Hlen. simpl in Hlen. lia.
Qed.

(** *** The shapes along a computation

    Each operation returns when the shapes of its arguments allow it, and the
    shape of its result follows from theirs. *)

Lemma sum_ex (a : ndarray) (axis : Z) (sh : list nat) (ax : nat) :
  shape a = sh -> normalize_axis axis (length sh) = Ok ax ->
  exists r, np.ma.sum a axis = Ok r /\ shape r = remove_at ax sh.
Proof.
  intros Hs Hn. subst sh. rewrite sum_reduce by apply (@normalize_axis_neq _ _ _ Hn).
  now apply reduce_shape.
Qed.

Lemma mean_ex (a : ndarray) (axis : Z) (sh : list nat) (ax : nat) :
  shape a = sh -> normalize_axis axis (length sh) = Ok ax ->
  exists r, np.ma.mean a axis = Ok r /\ shape r = remove_at ax sh.
Proof.
  intros Hs Hn. subst sh. rewrite mean_reduce by apply (@normalize_axis_neq _ _ _ Hn).
  now apply reduce_shape.
Qed.

Lemma expand_ex (a : ndarray) (axis : Z) (sh : list nat) (ax : nat) :
  shape a = sh -> normalize_axis axis (S (length sh)) = Ok ax ->
  exists r, expand_dims a axis = Ok r /\ shape r = insert_at ax 1 sh.
Proof.
  intros Hs Hn. subst sh. destruct (expand_dims_shape a axis Hn) as (r & E & H & _).
  now exists r.
Qed.

Lemma broadcast_ex (f : elt -> elt -> elt) (a b : ndarray) (sh1 sh2 sh : list nat) :
  shape a = sh1 -> shape b = sh2 -> broadcast_shapes sh1 sh2 = Ok sh ->
  exists r, broadcast f a b = Ok r /\ shape r = sh.
Proof. intros <- <- H. now apply broadcast_shape. Qed.

Ltac solve_bshape :=
  unfold broadcast_shapes; cbn [rev app broadcast_rev];
  rewrite ?broadcast_dim_same, ?broadcast_dim_one_r; cbn [bind rev app];
  reflexivity.

Ltac shape_hyp a :=
  lazymatch goal with
  | H : shape a = _ |- _ => H
  end.

Ltac sh_reduce lem a ax :=
  let H := shape_hyp a in
  let r := fresh "r" in let E := fresh "E" in let Hr := fresh "Hr" in
  let N := fresh "N" in
  lazymatch type of H with
  | shape _ = ?sh =>
      eassert (N : normalize_axis ax (length sh) = Ok _) by (vm_compute; reflexivity);
      destruct (@lem a ax sh _ H N) as (r & E & Hr); clear N;
      cbn [remove_at] in Hr; rewrite E; cbn [bind]
  end.

Ltac sh_expand a ax :=
  let H := shape_hyp a in
  let r := fresh "r" in let E := fresh "E" in let Hr := fresh "Hr" in
  let N := fresh "N" in
  lazymatch type of H with
  | shape _ = ?sh =>
      eassert (N : normalize_axis ax (S (length sh)) = Ok _) by (vm_compute; reflexivity);
      destruct (@expand_ex a ax sh _ H N) as (r & E & Hr); clear N;
      cbn [insert_at] in Hr; rewrite E; cbn [bind]
  end.

Ltac sh_broadcast f a b :=
  let Ha := shape_hyp a in
  let Hb := shape_hyp b in
  let r := fresh "r" in let E := fresh "E" in let Hr := fresh "Hr" in
  let N := fresh "N" in
  lazymatch type of Ha with
  | shape _ = ?sh1 =>
      lazymatch type of Hb with
      | shape _ = ?sh2 =>
          eassert (N : broadcast_shapes sh1 sh2 = Ok _) by solve_bshape;
          destruct (@broadcast_ex f a b sh1 sh2 _ Ha Hb N) as (r & E & Hr); clear N;
          rewrite E; cbn [bind]
      end
  end.

Ltac sh_step :=
  match goal with
  | |- context [np.ma.sum ?a ?ax] => sh_reduce sum_ex a ax
  | |- context [np.ma.mean ?a ?ax] => sh_reduce mean_ex a ax
  | |- context [expand_dims ?a ?ax] => sh_expand a ax
  | |- context [broadcast ?f ?a ?b] => sh_broadcast f a b
  end.

Ltac sh_unfold :=
  unfold flux1_value, flux2_value, flux3_value, flux4_value,
    flux1_product, flux2_product, flux3_product, flux4_product;
  rewrite ?calc_flux_value;
  unfold component4, component3, component_, component2, component1, _component,
    avg_time_int_depth, avg_time, int_depth, expand_time, expand_depth,
    ma.multiply, ma.add, ma.subtract, ma.true_divide;
  cbn [negb bind].

Ltac sh_done :=
  eexists; split; [reflexivity | assumption].

Section EqualAxes.

Variables T S D : nat.
Variable self : SFD.
Hypothesis Hf : shape (flow self) = [T; S; D].
Hypothesis Hs : shape (salinity self) = [T; S; D].
Hypothesis Hc : shape (cross_section self) = [T; S; D].

Lemma equal_axes_front (k : Z) :
  time_axis self = k -> depth_axis self = k -> (k = 0 \/ k = -2)%Z ->
  (exists r, flux1_value self = Ok r /\ shape r = [D]) /\
  (exists r, flux2_value self = Ok r /\ shape r = [D]) /\
  (exists r, flux3_value self = Ok r /\ shape r = [D]) /\
  (exists r, flux4_value self = Ok r /\ shape r = [D]).
Proof.
  intros Hta Hda Hk. repeat split; sh_unfold; rewrite Hta, Hda;
    destruct Hk as [-> | ->]; repeat sh_step; sh_done.
Qed.

Lemma equal_axes_back (k : Z) :
  time_axis self = k -> depth_axis self = k -> (k = 1 \/ k = -1)%Z ->
  (exists r, flux1_value self = Ok r /\ shape r = [T]) /\
  (exists r, flux2_value self = Ok r /\ shape r = [T]) /\
  (exists r, flux3_value self = Ok r /\ shape r = [T]) /\
  (exists r, flux4_value self = Ok r /\ shape r = [T]).
Proof.
  intros Hta Hda Hk. repeat split; sh_unfold; rewrite Hta, Hda;
    destruct Hk as [-> | ->]; repeat sh_step; sh_done.
Qed.

End EqualAxes.

(** The fluxes of a fresh instance whose four values are computed. *)
Lemma fluxes_of_values (self : SFD) (sh : list nat) :
  _flux0 self = None -> _flux1 self = None ->
  _flux3 self = None -> _flux4 self = None ->
  (exists r, flux1_value self = Ok r /\ shape r = sh) /\
  (exists r, flux2_value self = Ok r /\ shape r = sh) /\
  (exists r, flux3_value self = Ok r /\ shape r = sh) /\
  (exists r, flux4_value self = Ok r /\ shape r = sh) ->
  exists f1 f2 f3 f4 self',
    fluxes self = Ok ((f1, f2, f3, f4), self') /\
    shape f1 = sh /\ shape f2 = sh /\ shape f3 = sh /\ shape f4 = sh.
Proof.
  intros H0 H1 H3 H4
    ((f1 & E1 & S1) & (f2 & E2 & S2) & (f3 & E3 & S3) & (f4 & E4 & S4)).
  destruct (@fluxes_fresh_ok self f1 f2 f3 f4 H0 H1 H3 H4 E1 E2 E3 E4)
    as (self' & Hfl).
  exists f1, f2, f3, f4, self'. repeat split; assumption.
Qed.

(** C10.  Construction does not check the axes: with fields of one shape it
    succeeds for every pair of integers, equal or out of range, and stores
    them as given.  A wrong choice shows only when something is computed.
    An axis out of range for an array that has axes raises [AxisError] in
    [avg_time] and in [int_depth], and in [flux1]: for the depth axis in the
    first reduction, for the time axis in the second one, which works on
    one axis less.  Equal axes on fields with three axes never raise when
    they are in range for two axes: the axis is removed twice, and the four
    fluxes are returned with the depth or the time axis left instead of the
    space axis. *)
Theorem init_ignores_axes (fl sa cs : ndarray) (ta da : Z) :
  shape fl = shape sa -> shape sa = shape cs ->
  exists self,
    __init__ fl sa cs [("time_axis"%string, ta); ("depth_axis"%string, da)] = Ok self /\
    time_axis self = ta /\ depth_axis self = da /\
    (forall v, shape v <> [] ->
       ~ (- Z.of_nat (length (shape v)) <= ta < Z.of_nat (length (shape v)))%Z ->
       avg_time self v = Raise (AxisError ta (length (shape v)))) /\
    (forall v, shape v <> [] ->
       ~ (- Z.of_nat (length (shape v)) <= da < Z.of_nat (length (shape v)))%Z ->
       int_depth self v = Raise (AxisError da (length (shape v)))) /\
    (shape fl <> [] ->
     ~ (- Z.of_nat (length (shape fl)) <= da < Z.of_nat (length (shape fl)))%Z ->
     flux1 self = Raise (AxisError da (length (shape fl)))) /\
    ((- Z.of_nat (length (shape fl)) <= da < Z.of_nat (length (shape fl)))%Z ->
     2 <= length (shape fl) ->
     ~ (- Z.of_nat (length (shape fl) - 1) <= ta
        < Z.of_nat (length (shape fl) - 1))%Z ->
     flux1 self = Raise (AxisError ta (length (shape fl) - 1))) /\
    (forall T S D, shape fl = [T; S; D] -> ta = da ->
       ((ta = 0 \/ ta = -2)%Z ->
        exists f1 f2 f3 f4 self',
          fluxes self = Ok ((f1, f2, f3, f4), self') /\
          shape f1 = [D] /\ shape f2 = [D] /\ shape f3 = [D] /\ shape f4 = [D]) /\
       ((ta = 1 \/ ta = -1)%Z ->
        exists f1 f2 f3 f4 self',
          fluxes self = Ok ((f1, f2, f3, f4), self') /\
          shape f1 = [T] /\ shape f2 = [T] /\ shape f3 = [T] /\ shape f4 = [T])).
Proof.
  intros H1 H2.
  set (self := mkSFD fl sa cs ta da None None None None []).
  exists self. split; [now rewrite (init_ok fl sa cs _ H1 H2)|].
  split; [reflexivity|]. split; [reflexivity|].
  assert (Hfc : shape (flow self) = shape (cross_section self))
    by (cbn; congruence).
  split; [|split; [|split; [|split; [|]]]].
  - intros v Hne Hv. unfold avg_time. rewrite mean_reduce by exact Hne.
    unfold reduce. change (time_axis self) with ta.
    rewrite normalize_axis_raise by exact Hv. reflexivity.
  - intros v Hne Hv. unfold int_depth. rewrite sum_reduce by exact Hne.
    unfold reduce. change (depth_axis self) with da.
    rewrite normalize_axis_raise by exact Hv. reflexivity.
  - intros Hne Hd.
    apply (proj1 (@flux1_axis_error self eq_refl Hfc Hne)). exact Hd.
  - intros Hd Hn Ht.
    assert (Hne : shape (flow self) <> []).
    { cbn. intros E. rewrite E in Hn. simpl in Hn. lia. }
    apply (proj2 (@flux1_axis_error self eq_refl Hfc Hne)); assumption.
  - intros T S D Hf Hk.
    assert (Hs : shape (salinity self) = [T; S; D]) by (cbn; congruence).
    assert (Hc : shape (cross_section self) = [T; S; D]) by (cbn; congruence).
    split; intros Hk'.
    + apply fluxes_of_values; try reflexivity.
      apply (@equal_axes_front T S D self Hf Hs Hc ta); trivial.
      cbn. now symmetry.
    + apply fluxes_of_values; try reflexivity.
      apply (@equal_axes_back T S D self Hf Hs Hc ta); trivial.
      cbn. now symmetry.
Qed.

Lemma init_ignores_axes_witness :
  exists self,
    __init__ uniform_flow uniform_salinity uniform_cross_section
      [("time_axis"%string, 0%Z); ("depth_axis"%string, 0%Z)] = Ok self /\
    time_axis self = 0%Z /\ depth_axis self = 0%Z /\
    exists f1 f2 f3 f4 self',
      fluxes self = Ok ((f1, f2, f3, f4), self') /\
      shape f1 = [10] /\ shape f2 = [10] /\ shape f3 = [10] /\ shape f4 = [10].
Proof.
  destruct (@init_ignores_axes uniform_flow uniform_salinity
              uniform_cross_section 0%Z 0%Z eq_refl eq_refl)
    as (self & Hi & Ht & Hd & _ & _ & _ & _ & H).
  exists self. split; [exact Hi|]. split; [exact Ht|]. split; [exact Hd|].
  destruct (H 10 10 10 eq_refl eq_refl) as [Hfront _].
  apply Hfront. now left.
Defined.

(** ** The axes of [avg_time_int_depth] *)

Lemma result_eqb_eq (r : result ndarray) (e : ndarray) :
  result_eqb r e = true -> r = Ok e.
Proof.
  destruct r as [a|]; simpl; [|discriminate].
  intros H. now rewrite (nd_eqb_eq _ _ H).
Qed.

(** C5.  With the depth axis 0 and the time axis 1, [avg_time_int_depth] sums
    over depth and then averages over space, the axis that follows time:
    the result is (7, 11), indexed by time, where the mean over time is
    (8, 10), indexed by space.  With the depth axis 0 and the time axis 2 it
    raises, where the mean over time is (7, 11). *)
Theorem avg_time_int_depth_wrong_axis :
  __init__ cube cube cube [("time_axis"%string, 1%Z); ("depth_axis"%string, 0%Z)]
    = Ok depth_first_self /\
  avg_time_int_depth depth_first_self cube
    = Ok (np.mk [2] [Some (of_nat 7); Some (of_nat 11)]) /\
  avg_time_int_depth_tracked depth_first_self cube
    = Ok (np.mk [2] [Some (of_nat 8); Some (of_nat 10)]) /\
  __init__ cube cube cube [("time_axis"%string, 2%Z); ("depth_axis"%string, 0%Z)]
    = Ok time_last_self /\
  avg_time_int_depth time_last_self cube = Raise (AxisError 2 2) /\
  avg_time_int_depth_tracked time_last_self cube
    = Ok (np.mk [2] [Some (of_nat 7); Some (of_nat 11)]).
Proof.
  split; [reflexivity|].
  split; [apply result_eqb_eq; vm_compute; reflexivity|].
  split; [apply result_eqb_eq; vm_compute; reflexivity|].
  split; [reflexivity|].
  split; [vm_compute; reflexivity|].
  apply result_eqb_eq; vm_compute; reflexivity.
Qed.

(** ** Division by a zero area *)

(** C6.  Whatever the reduction, when it returns arrays of one shape for the
    weighted variable and for the areas, [_component] returns an array, and
    at every index where the reduced area is zero or masked, the entry of
    that array is masked: neither a zero nor an exception. *)
Theorem component_zero_area (self : SFD) (func : ndarray -> result ndarray)
    (variable p n d : ndarray) :
  np.ma.multiply variable (cross_section self) = Ok p ->
  func p = Ok n ->
  func (cross_section self) = Ok d ->
  shape n = shape d ->
  exists r, _component self func variable = Ok r /\
            shape r = shape d /\
            forall idx, in_range (shape d) idx ->
              get d idx = None \/ get d idx = Some 0%Qc ->
              get r idx = None /\ get r idx <> Some 0%Qc.
Proof.
  intros Hp Hn Hd Hs. unfold _component. rewrite Hp. cbn [bind].
  rewrite Hn. cbn [bind]. rewrite Hd. cbn [bind].
  destruct (@broadcast_same_shape masked_div n d Hs) as (r & Er & Hr & Hv).
  exists r. split; [exact Er|]. split; [congruence|].
  intros idx Hi Hz. rewrite Hs in Hv. rewrite (Hv idx Hi).
  assert (E : masked_div (get n idx) (get d idx) = None).
  { destruct Hz as [-> | ->]; destruct (get n idx); reflexivity. }
  rewrite E. split; [reflexivity | discriminate].
Qed.

Lemma component_zero_area_witness :
  exists r, _component dry_self (int_depth dry_self) dry_variable = Ok r /\
            shape r = [1; 2] /\
            forall idx, in_range [1; 2] idx ->
              get (np.mk [1; 2] [Some 0%Qc; Some 1%Qc]) idx = None \/
              get (np.mk [1; 2] [Some 0%Qc; Some 1%Qc]) idx = Some 0%Qc ->
              get r idx = None /\ get r idx <> Some 0%Qc.
Proof.
  apply (@component_zero_area dry_self (int_depth dry_self) dry_variable
           (np.mk [1; 2; 1] [Some 0%Qc; Some (of_nat 7)])
           (np.mk [1; 2] [Some 0%Qc; Some (of_nat 7)])
           (np.mk [1; 2] [Some 0%Qc; Some 1%Qc]));
    try (apply result_eqb_eq; vm_compute; reflexivity); reflexivity.
Defined.

(** ** Components computed beforehand *)

(** C8.  A component computed beforehand by the method of the class can be passed
    to [component2], [component_] and [component4]: the result is the one
    obtained when it is left out. *)
Theorem components_precomputed (self : SFD) (field : ndarray) :
  (c1 <- component1 self field ;; component2 self field (Some c1))
    = component2 self field None /\
  (c1 <- component1 self field ;;
   c2 <- component2 self field None ;;
   component_ self field (Some c1) (Some c2))
    = component_ self field None None /\
  (c3 <- component3 self field false ;; component4 self field false (Some c3))
    = component4 self field false None.
Proof.
  split; [|split].
  - unfold component2.
    destruct (component1 self field); reflexivity.
  - unfold component_, component2.
    destruct (component1 self field); reflexivity.
  - unfold component4, component3. cbn [negb].
    destruct (component_ self field None None) as [w|]; [|reflexivity].
    cbn [bind].
    destruct (_component self (avg_time self) w); reflexivity.
Qed.

(** ** The cache of the fluxes *)

Lemma flux_products_same_fields (s self : SFD) :
  same_fields s self ->
  flux1_product s = flux1_product self /\ flux2_product s = flux2_product self /\
  flux3_product s = flux3_product self /\ flux4_product s = flux4_product self.
Proof.
  unfold flux1_product, flux2_product, flux3_product, flux4_product.
  rewrite !calc_flux_value.
  destruct s, self. unfold same_fields. cbn.
  intros (-> & -> & -> & -> & ->). repeat split.
Qed.

(** What an access that returns has computed: nothing when the slot holds
    a value, which is returned with the instance as it is; one product,
    recorded by [_calc_flux], when the slot is empty. *)
Lemma flux1_log (self self' : SFD) (v : ndarray) :
  flux1 self = Ok (v, self') ->
  match _flux0 self with
  | Some c => v = c /\ self' = self
  | None => exists p, flux1_product self = Ok p /\ v = p /\
                      calc_log self' = calc_log self ++ [p]
  end.
Proof.
  destruct (_flux0 self) as [c|] eqn:E.
  - rewrite (flux1_hit self E). intros H. now injection H as <- <-.
  - rewrite (flux1_miss self E). unfold flux1_value.
    destruct (flux1_product self) as [p|]; [|discriminate].
    intros H. injection H as <- <-. exists p. repeat split.
Qed.

Lemma flux2_log (self self' : SFD) (v : ndarray) :
  flux2 self = Ok (v, self') ->
  match _flux1 self with
  | Some c => v = c /\ self' = self
  | None => exists p, flux2_product self = Ok p /\ avg_time self p = Ok v /\
                      calc_log self' = calc_log self ++ [p]
  end.
Proof.
  destruct (_flux1 self) as [c|] eqn:E.
  - rewrite (flux2_hit self E). intros H. now injection H as <- <-.
  - rewrite (flux2_miss self E).
    destruct (flux2_product self) as [p|]; [|discriminate]. cbn [bind].
    destruct (avg_time self p) as [w|] eqn:Ew; [|discriminate].
    intros H. injection H as <- <-. exists p. repeat split. exact Ew.
Qed.

Lemma flux3_log (self self' : SFD) (v : ndarray) :
  flux3 self = Ok (v, self') ->
  match _flux3 self with
  | Some c => v = c /\ self' = self
  | None => exists p, flux3_product self = Ok p /\ int_depth self p = Ok v /\
                      calc_log self' = calc_log self ++ [p]
  end.
Proof.
  destruct (_flux3 self) as [c|] eqn:E.
  - rewrite (flux3_hit self E). intros H. now injection H as <- <-.
  - rewrite (flux3_miss self E).
    destruct (flux3_product self) as [p|]; [|discriminate]. cbn [bind].
    destruct (int_depth self p) as [w|] eqn:Ew; [|discriminate].
    intros H. injection H as <- <-. exists p. repeat split. exact Ew.
Qed.

Lemma flux4_log (self self' : SFD) (v : ndarray) :
  flux4 self = Ok (v, self') ->
  match _flux4 self with
  | Some c => v = c /\ self' = self
  | None => exists p, flux4_product self = Ok p /\
                      avg_time_int_depth self p = Ok v /\
                      calc_log self' = calc_log self ++ [p]
  end.
Proof.
  destruct (_flux4 self) as [c|] eqn:E.
  - rewrite (flux4_hit self E). intros H. now injection H as <- <-.
  - rewrite (flux4_miss self E).
    destruct (flux4_product self) as [p|]; [|discriminate]. cbn [bind].
    destruct (avg_time_int_depth self p) as [w|] eqn:Ew; [|discriminate].
    intros H. injection H as <- <-. exists p. repeat split. exact Ew.
Qed.

(** The record of the calls after an access that returns. *)
Lemma log_after (self self' : SFD) (slot : option ndarray)
    (product : result ndarray) (v : ndarray) (P : ndarray -> Prop) :
  match slot with
  | Some c => v = c /\ self' = self
  | None => exists p, product = Ok p /\ P p /\
                      calc_log self' = calc_log self ++ [p]
  end ->
  calc_log self' =
  calc_log self ++ match slot with None => products product | Some _ => [] end
  /\ length (match slot with None => products product | Some _ => [] end)
     = length (match slot with None => [1] | Some _ => [] end).
Proof.
  destruct slot as [c|].
  - intros [_ ->]. now rewrite app_nil_r.
  - intros (p & -> & _ & ->). split; reflexivity.
Qed.

Lemma same_fields_trans (s1 s2 s3 : SFD) :
  same_fields s1 s2 -> same_fields s2 s3 -> same_fields s1 s3.
Proof.
  intros (? & ? & ? & ? & ?) (? & ? & ? & ? & ?). repeat split; congruence.
Qed.

(** An access to [fluxes]: the four slots are filled with the values
    returned, and the products computed are those of the slots that were
    empty, in the order 1, 2, 3, 4. *)
Lemma fluxes_access (self self' : SFD) (f1 f2 f3 f4 : ndarray) :
  fluxes self = Ok ((f1, f2, f3, f4), self') ->
  _flux0 self' = Some f1 /\ _flux1 self' = Some f2 /\
  _flux3 self' = Some f3 /\ _flux4 self' = Some f4 /\
  calc_log self' = calc_log self ++ computed self /\
  length (computed self) = length (pending self).
Proof.
  unfold fluxes.
  destruct (flux1 self) as [[v1 s1]|] eqn:E1; [|discriminate].
  cbn [bind snd fst].
  destruct (flux2 s1) as [[v2 s2]|] eqn:E2; [|discriminate].
  cbn [bind snd fst].
  destruct (flux3 s2) as [[v3 s3]|] eqn:E3; [|discriminate].
  cbn [bind snd fst].
  destruct (flux4 s3) as [[v4 s4]|] eqn:E4; [|discriminate].
  cbn [bind snd fst].
  intros H. injection H as <- <- <- <- <-.
  destruct (flux1_access _ E1) as (F1 & A0 & A1 & A3 & A4).
  destruct (flux2_access _ E2) as (F2 & B0 & B1 & B3 & B4).
  destruct (flux3_access _ E3) as (F3 & C0 & C1 & C3 & C4).
  destruct (flux4_access _ E4) as (F4 & D0 & D1 & D3 & D4).
  pose proof (same_fields_trans F2 F1) as F12.
  pose proof (same_fields_trans F3 F12) as F123.
  destruct (@log_after self s1 (_flux0 self) (flux1_product self) v1
              (fun p => v1 = p) (flux1_log _ E1)) as (L1 & N1).
  destruct (@log_after s1 s2 (_flux1 s1) (flux2_product s1) v2
              (fun p => avg_time s1 p = Ok v2) (flux2_log _ E2)) as (L2 & N2).
  destruct (@log_after s2 s3 (_flux3 s2) (flux3_product s2) v3
              (fun p => int_depth s2 p = Ok v3) (flux3_log _ E3)) as (L3 & N3).
  destruct (@log_after s3 s4 (_flux4 s3) (flux4_product s3) v4
              (fun p => avg_time_int_depth s3 p = Ok v4) (flux4_log _ E4))
    as (L4 & N4).
  rewrite (proj1 (proj2 (flux_products_same_fields F1))), A1 in L2, N2.
  rewrite (proj1 (proj2 (proj2 (flux_products_same_fields F12)))), B3, A3
    in L3, N3.
  rewrite (proj2 (proj2 (proj2 (flux_products_same_fields F123)))), C4, B4, A4
    in L4, N4.
  split; [congruence|]. split; [congruence|]. split; [congruence|].
  split; [congruence|]. split.
  - unfold computed. rewrite L4, L3, L2, L1. now rewrite <- !app_assoc.
  - unfold computed, pending. rewrite !length_app, N1, N2, N3, N4.
    destruct (_flux0 self), (_flux1 self), (_flux3 self), (_flux4 self);
      reflexivity.
Qed.

(** C9.  Each flux is computed on the first access and kept.  An access that
    finds a value in the slot returns that value, whatever it is, and leaves
    the instance as it is: [_calc_flux] is not called.  An access that finds
    the slot empty calls [_calc_flux] once, which the record of the calls
    shows, and stores the value it returns.  In both cases the next access
    returns the same value and leaves the instance, the record of the calls
    included, as it is.  An access to [fluxes] calls [_calc_flux] for the
    fluxes whose slot is empty and for no other, in the order 1, 2, 3, 4,
    and a second access computes nothing. *)
Theorem flux_memoized (self : SFD) :
  (forall v self', flux1 self = Ok (v, self') ->
     flux1 self' = Ok (v, self') /\
     match _flux0 self with
     | Some c => v = c /\ self' = self
     | None => exists p, flux1_product self = Ok p /\ v = p /\
                         calc_log self' = calc_log self ++ [p]
     end) /\
  (forall v self', flux2 self = Ok (v, self') ->
     flux2 self' = Ok (v, self') /\
     match _flux1 self with
     | Some c => v = c /\ self' = self
     | None => exists p, flux2_product self = Ok p /\ avg_time self p = Ok v /\
                         calc_log self' = calc_log self ++ [p]
     end) /\
  (forall v self', flux3 self = Ok (v, self') ->
     flux3 self' = Ok (v, self') /\
     match _flux3 self with
     | Some c => v = c /\ self' = self
     | None => exists p, flux3_product self = Ok p /\ int_depth self p = Ok v /\
                         calc_log self' = calc_log self ++ [p]
     end) /\
  (forall v self', flux4 self = Ok (v, self') ->
     flux4 self' = Ok (v, self') /\
     match _flux4 self with
     | Some c => v = c /\ self' = self
     | None => exists p, flux4_product self = Ok p /\
                         avg_time_int_depth self p = Ok v /\
                         calc_log self' = calc_log self ++ [p]
     end) /\
  (forall r self', fluxes self = Ok (r, self') ->
     fluxes self' = Ok (r, self') /\
     calc_log self' = calc_log self ++ computed self /\
     length (computed self) = length (pending self) /\
     pending self' = [] /\ computed self' = []).
Proof.
  split; [|split; [|split; [|split]]].
  - intros v self' H. destruct (flux1_access _ H) as (_ & A0 & _).
    split; [now apply flux1_hit | now apply flux1_log].
  - intros v self' H. destruct (flux2_access _ H) as (_ & _ & A1 & _).
    split; [now apply flux2_hit | now apply flux2_log].
  - intros v self' H. destruct (flux3_access _ H) as (_ & _ & _ & A3 & _).
    split; [now apply flux3_hit | now apply flux3_log].
  - intros v self' H. destruct (flux4_access _ H) as (_ & _ & _ & _ & A4).
    split; [now apply flux4_hit | now apply flux4_log].
  - intros [[[f1 f2] f3] f4] self' H.
    destruct (fluxes_access _ H) as (A0 & A1 & A3 & A4 & AL & AN).
    split; [|split; [exact AL|split; [exact AN|]]].
    + unfold fluxes. rewrite (flux1_hit _ A0). cbn [bind snd fst].
      rewrite (flux2_hit _ A1). cbn [bind snd fst].
      rewrite (flux3_hit _ A3). cbn [bind snd fst].
      rewrite (flux4_hit _ A4). reflexivity.
    + unfold pending, computed. now rewrite A0, A1, A3, A4.
Qed.

(** On the small instance the four products are computed, in order, by the
    first access to [fluxes], and none by the second. *)
Lemma flux_memoized_witness :
  fluxes small_self = Ok (fst small_fluxes, snd small_fluxes) /\
  fluxes (snd small_fluxes) = Ok (fst small_fluxes, snd small_fluxes) /\
  calc_log (snd small_fluxes) = calc_log small_self ++ computed small_self /\
  length (computed small_self) = length (pending small_self) /\
  pending (snd small_fluxes) = [] /\ computed (snd small_fluxes) = [].
Proof.
  assert (E : fluxes small_self = Ok (fst small_fluxes, snd small_fluxes))
    by (vm_compute; reflexivity).
  split; [exact E|].
  destruct (flux_memoized small_self) as (_ & _ & _ & _ & H).
  exact (H (fst small_fluxes) (snd small_fluxes) E).
Defined.

(** * The fluxes on fields of any supported layout *)

(** ** Sums and means of masked entries, shapes that broadcast *)

(** A sum of entries of which one is not masked is not masked. *)
Lemma masked_sum_not_masked (X : Type) (F : X -> elt) (l : list X) (i : X) :
  In i l -> F i <> None -> is_masked (masked_sum (map F l)) = false.
Proof.
  intros Hi Hn. destruct l as [|j l]; [now elim Hi|].
  cbn [map masked_sum].
  destruct (forallb is_masked (F j :: map F l)) eqn:E; [|reflexivity].
  rewrite forallb_forall in E.
  specialize (E (F i) (in_map F (j :: l) i Hi)).
  destruct (F i); [discriminate | now elim Hn].
Qed.

Lemma bind_Ok_r (X : Type) (m : result X) : bind m (fun x => Ok x) = m.
Proof. now destruct m. Qed.

Lemma broadcast_rev_app (sh1 sh2 p r1 r2 : list nat) :
  broadcast_rev sh1 sh2 (p ++ r1) (p ++ r2) =
  (r <- broadcast_rev sh1 sh2 r1 r2 ;; Ok (p ++ r)).
Proof.
  induction p as [|n p IH]; cbn [app].
  - now rewrite bind_Ok_r.
  - cbn [broadcast_rev]. rewrite broadcast_dim_same, IH. cbn [bind].
    now destruct (broadcast_rev sh1 sh2 r1 r2).
Qed.

Lemma masked_mean_all_None (X : Type) (F : X -> elt) (l : list X) :
  (forall i, In i l -> F i = None) -> masked_mean (map F l) = None.
Proof.
  intros H. unfold masked_mean, count.
  replace (filter (fun x => negb (is_masked x)) (map F l)) with (@nil elt);
    [reflexivity|].
  induction l as [|i l IH]; [reflexivity|].
  cbn [map filter]. rewrite (H i) by (now left). cbn [is_masked negb].
  apply IH. intros j Hj. apply H. now right.
Qed.

Lemma masked_sum_all_None (X : Type) (F : X -> elt) (l : list X) :
  l <> [] -> (forall i, In i l -> F i = None) -> masked_sum (map F l) = None.
Proof.
  intros Hl H. destruct l as [|i l]; [now elim Hl|].
  cbn [map masked_sum].
  replace (forallb is_masked (F i :: map F l)) with true; [reflexivity|].
  symmetry. apply forallb_forall. intros e He.
  change (F i :: map F l) with (map F (i :: l)) in He.
  apply in_map_iff in He as (j & <- & Hj). now rewrite (H j Hj).
Qed.

(** ** Insertion into shapes and indices *)

Lemma length_insert_at (X : Type) (k : nat) (x : X) (l : list X) :
  length (insert_at k x l) = S (length l).
Proof.
  revert l. induction k as [|k IH]; intros [|y l]; simpl; try reflexivity.
  now rewrite IH.
Qed.

Lemma remove_insert_at (X : Type) (k : nat) (x : X) (l : list X) :
  k <= length l -> remove_at k (insert_at k x l) = l.
Proof.
  revert l. induction k as [|k IH]; intros [|y l] H; simpl in *; try reflexivity;
    try lia.
  rewrite IH by lia. reflexivity.
Qed.

Lemma nth_insert_at (X : Type) (k : nat) (x d : X) (l : list X) :
  k <= length l -> nth k (insert_at k x l) d = x.
Proof.
  revert l. induction k as [|k IH]; intros [|y l] H; simpl in *; try reflexivity;
    try lia.
  apply IH. lia.
Qed.

Lemma insert_at_nth (X : Type) (k : nat) (d : X) (l : list X) :
  k < length l -> insert_at k (nth k l d) (remove_at k l) = l.
Proof.
  revert l. induction k as [|k IH]; intros [|y l] H; simpl in *; try lia.
  - reflexivity.
  - destruct l as [|z l]; [simpl in H; lia|].
    f_equal. apply (IH (z :: l)). simpl in *. lia.
Qed.

Lemma nth_remove_at (X : Type) (j k : nat) (d : X) (l : list X) :
  nth j (remove_at k l) d = nth (if j <? k then j else S j) l d.
Proof.
  revert j l. induction k as [|k IH]; intros j [|y l]; simpl.
  - now destruct j.
  - reflexivity.
  - destruct (j <? S k); now destruct j.
  - destruct j as [|j]; [reflexivity|]. simpl. rewrite IH.
    change (S j <? S k) with (j <? k). now destruct (j <? k).
Qed.

(** Two insertions, in the other order. *)
Lemma insert_at_swap (X : Type) (p q : nat) (a b : X) (l : list X) :
  p <= length l -> q <= S (length l) ->
  insert_at q b (insert_at p a l) =
  insert_at (time_full p q) a (insert_at (depth_reduced p q) b l).
Proof.
  unfold time_full, depth_reduced.
  revert q l. induction p as [|p IH]; intros q l Hp Hq.
  - destruct q as [|q]; [reflexivity|].
    change (S q <=? 0) with false. cbv iota.
    replace (S q - 1) with q by lia. reflexivity.
  - destruct l as [|y l]; [simpl in Hp; lia|]. simpl in Hp, Hq.
    destruct q as [|q]; [reflexivity|].
    cbn [insert_at]. rewrite (IH q l) by lia.
    change (S q <=? S p) with (q <=? p).
    replace (S q - 1) with q by lia.
    destruct (Nat.leb_spec q p) as [H|H]; [reflexivity|].
    destruct q as [|q]; [lia|].
    replace (S q - 1) with q by lia. reflexivity.
Qed.

Lemma in_range_length (sh idx : list nat) :
  in_range sh idx -> length idx = length sh.
Proof. unfold in_range. induction 1; simpl; congruence. Qed.

Lemma in_range_insert_at (k n i : nat) (sh idx : list nat) :
  i < n -> in_range sh idx -> in_range (insert_at k n sh) (insert_at k i idx).
Proof.
  intros Hi H. revert k. unfold in_range in *.
  induction H as [|j m idx sh Hj H IH]; intros [|k]; simpl.
  - constructor; [exact Hi | constructor].
  - constructor; [exact Hi | constructor].
  - constructor; [exact Hi | constructor; assumption].
  - constructor; [exact Hj | apply IH].
Qed.

(** An insertion splits a shape and an index in two parts. *)
Lemma insert_at_split (k : nat) (sh idx : list nat) :
  k <= length sh -> in_range sh idx ->
  exists l1 l2 i1 i2,
    in_range l1 i1 /\ in_range l2 i2 /\
    (forall n, insert_at k n sh = l1 ++ n :: l2) /\
    (forall i, insert_at k i idx = i1 ++ i :: i2).
Proof.
  intros Hk H. revert k Hk. unfold in_range in *.
  induction H as [|j m idx sh Hj H IH]; intros k Hk.
  - exists [], [], [], []. simpl in Hk.
    replace k with 0 by lia. repeat split; constructor.
  - destruct k as [|k].
    + exists [], (m :: sh), [], (j :: idx).
      repeat split; constructor; assumption.
    + destruct (IH k) as (l1 & l2 & i1 & i2 & R1 & R2 & E1 & E2);
        [simpl in Hk; lia|].
      exists (m :: l1), l2, (j :: i1), i2. repeat split; trivial.
      * constructor; assumption.
      * intros n. simpl. now rewrite E1.
      * intros i. simpl. now rewrite E2.
Qed.

Lemma insert_at_app (X : Type) (k : nat) (l : list X) :
  exists l1 l2, forall x, insert_at k x l = l1 ++ x :: l2.
Proof.
  revert l. induction k as [|k IH]; intros l.
  - now exists [], l.
  - destruct l as [|y l]; [now exists [], []|].
    destruct (IH l) as (l1 & l2 & E). exists (y :: l1), l2.
    intros x. simpl. now rewrite E.
Qed.

Lemma bindex_rev_app (r1 r2 x1 x2 : list nat) :
  length r1 = length x1 ->
  bindex_rev (r1 ++ r2) (x1 ++ x2) = bindex_rev r1 x1 ++ bindex_rev r2 x2.
Proof.
  revert x1. induction r1 as [|n r1 IH]; intros [|i x1] H; simpl in *;
    try discriminate; [reflexivity|].
  rewrite IH by congruence. reflexivity.
Qed.

(** The index read in an operand whose axis [k] has size 1. *)
Lemma bindex_one (l1 l2 i1 i2 : list nat) (j : nat) :
  in_range l1 i1 -> in_range l2 i2 ->
  bindex (l1 ++ 1 :: l2) (i1 ++ j :: i2) = i1 ++ 0 :: i2.
Proof.
  intros H1 H2. unfold bindex.
  rewrite !rev_app_distr. cbn [rev]. rewrite <- !app_assoc. cbn [app].
  rewrite bindex_rev_app
    by (rewrite !length_rev; apply in_range_length in H2; congruence).
  cbn [bindex_rev Nat.eqb].
  rewrite !bindex_rev_same by (apply Forall2_lt_rev; assumption).
  rewrite rev_app_distr. cbn [rev]. rewrite !rev_involutive.
  rewrite <- app_assoc. reflexivity.
Qed.

Lemma broadcast_shapes_one (l1 l2 : list nat) (n : nat) :
  broadcast_shapes (l1 ++ n :: l2) (l1 ++ 1 :: l2) = Ok (l1 ++ n :: l2).
Proof.
  unfold broadcast_shapes. rewrite !rev_app_distr. cbn [rev].
  rewrite <- !app_assoc. cbn [app]. rewrite broadcast_rev_app.
  cbn [broadcast_rev]. rewrite broadcast_dim_one_r, broadcast_rev_same.
  cbn [bind]. rewrite rev_app_distr. cbn [rev]. rewrite !rev_involutive.
  rewrite <- app_assoc. reflexivity.
Qed.

(** ** Reductions, expansions and broadcasts along an inserted axis *)

Section Primitives.

Variable g : list elt -> elt.
Variable op : elt -> elt -> elt.

(** A reduction along an axis of size [n] at position [k]. *)
Lemma reduce_inserted (a : ndarray) (axis : Z) (k n : nat) (sh : list nat) :
  shape a = insert_at k n sh -> k <= length sh ->
  normalize_axis axis (S (length sh)) = Ok k ->
  exists r, reduce g a axis = Ok r /\ shape r = sh /\
    forall idx, in_range sh idx ->
      get r idx = g (map (fun j => get a (insert_at k j idx)) (seq 0 n)).
Proof.
  intros Hs Hk Hn.
  rewrite (@reduce_ok g a axis k) by (now rewrite Hs, length_insert_at).
  rewrite Hs, remove_insert_at, nth_insert_at by assumption.
  eexists. split; [reflexivity|]. split; [reflexivity|].
  intros idx Hi. now rewrite get_tabulate.
Qed.

(** [np.expand_dims] at position [k]. *)
Lemma expand_inserted (a : ndarray) (axis : Z) (k : nat) :
  normalize_axis axis (S (length (shape a))) = Ok k ->
  exists r, expand_dims a axis = Ok r /\ shape r = insert_at k 1 (shape a) /\
    forall idx, in_range (shape a) idx -> get r (insert_at k 0 idx) = get a idx.
Proof.
  intros Hn. pose proof (normalize_axis_lt _ _ Hn) as Hk.
  destruct (expand_dims_shape a axis Hn) as (r & E & Hr & Hd).
  exists r. split; [exact E|]. split; [exact Hr|].
  intros idx Hi. unfold get. rewrite Hd, Hr. f_equal.
  rewrite ravel_insert_one.
  - rewrite remove_insert_at; [reflexivity|].
    rewrite (in_range_length Hi). lia.
  - lia.
  - apply in_range_insert_at; [lia | exact Hi].
Qed.

(** An operation on two arrays of one shape but for the axis at position
    [k], which has size 1 in the second. *)
Lemma broadcast_one (a b : ndarray) (k n : nat) (sh : list nat) :
  shape a = insert_at k n sh -> shape b = insert_at k 1 sh -> k <= length sh ->
  exists r, broadcast op a b = Ok r /\ shape r = insert_at k n sh /\
    forall j idx, j < n -> in_range sh idx ->
      get r (insert_at k j idx) =
      op (get a (insert_at k j idx)) (get b (insert_at k 0 idx)).
Proof.
  intros Ha Hb Hk. unfold broadcast. rewrite Ha, Hb.
  assert (Hsh : broadcast_shapes (insert_at k n sh) (insert_at k 1 sh)
                = Ok (insert_at k n sh)).
  { destruct (insert_at_app k sh) as (l1 & l2 & E). rewrite !E.
    apply broadcast_shapes_one. }
  rewrite Hsh. cbn [bind].
  eexists. split; [reflexivity|]. split; [reflexivity|].
  intros j idx Hj Hi.
  rewrite get_tabulate by (now apply in_range_insert_at).
  rewrite bindex_same by (now apply in_range_insert_at).
  destruct (insert_at_split Hk Hi) as (l1 & l2 & i1 & i2 & R1 & R2 & E1 & E2).
  rewrite (E1 1), !E2, bindex_one by assumption. reflexivity.
Qed.

End Primitives.

Lemma insert_at_neq (X : Type) (k : nat) (x : X) (l : list X) :
  insert_at k x l <> [].
Proof. intros E. apply (f_equal (@length X)) in E. rewrite length_insert_at in E. discriminate. Qed.

Lemma reprS_self (a : ndarray) : reprS (shape a) a (get a).
Proof. split; reflexivity. Qed.

Section Space.

Variable sp : list nat.

Section ReduceAxis.

Variable g : list elt -> elt.

Lemma reduce_axis (a : ndarray) (axis : Z) (k n : nat)
    (f : nat -> list nat -> elt) :
  repr_axis sp k n a f -> k <= length sp ->
  normalize_axis axis (S (length sp)) = Ok k ->
  exists r, reduce g a axis = Ok r /\
            reprS sp r (fun x => g (map (fun i => f i x) (seq 0 n))).
Proof.
  intros [Hs Hg] Hk Hn.
  destruct (@reduce_inserted g a axis k n sp Hs Hk Hn) as (r & E & Hr & Hv).
  exists r. split; [exact E|]. split; [exact Hr|].
  intros x Hx. rewrite Hv by assumption.
  f_equal. apply map_ext_in. intros i Hi. apply in_seq in Hi.
  apply Hg; trivial; lia.
Qed.

End ReduceAxis.

Lemma expand_space (a : ndarray) (axis : Z) (k : nat) (f : list nat -> elt) :
  reprS sp a f ->
  normalize_axis axis (S (length sp)) = Ok k ->
  exists r, expand_dims a axis = Ok r /\ repr_axis sp k 1 r (fun _ x => f x).
Proof.
  intros [Hs Hg] Hn. rewrite <- Hs in Hn.
  destruct (expand_inserted a axis Hn) as (r & E & Hr & Hv).
  exists r. split; [exact E|]. split; [now rewrite Hr, Hs|].
  intros i x Hi Hx. replace i with 0 by lia.
  rewrite Hv by (now rewrite Hs). now apply Hg.
Qed.

Section BroadcastsSpace.

Variable op : elt -> elt -> elt.

Lemma bcS (a b : ndarray) (f h : list nat -> elt) :
  reprS sp a f -> reprS sp b h ->
  exists r, broadcast op a b = Ok r /\ reprS sp r (fun x => op (f x) (h x)).
Proof.
  intros [Hs Hg] [Hs' Hg'].
  destruct (@broadcast_same_shape op a b) as (r & E & Hr & Hv); [congruence|].
  exists r; split; [assumption|]. split; [congruence|].
  intros x Hx. rewrite Hv by (now rewrite Hs). now rewrite Hg, Hg'.
Qed.

Lemma bc_axis (a b : ndarray) (k n : nat) (f h : nat -> list nat -> elt) :
  repr_axis sp k n a f -> repr_axis sp k n b h ->
  exists r, broadcast op a b = Ok r /\
            repr_axis sp k n r (fun i x => op (f i x) (h i x)).
Proof.
  intros [Hs Hg] [Hs' Hg'].
  destruct (@broadcast_same_shape op a b) as (r & E & Hr & Hv); [congruence|].
  exists r; split; [assumption|]. split; [congruence|].
  intros i x Hi Hx.
  rewrite Hv by (rewrite Hs; now apply in_range_insert_at).
  now rewrite Hg, Hg'.
Qed.

(** An array with one more axis against the same with size 1 on that axis. *)
Lemma bc_axis_one (a b : ndarray) (k n : nat) (f h : nat -> list nat -> elt) :
  repr_axis sp k n a f -> repr_axis sp k 1 b h -> k <= length sp ->
  exists r, broadcast op a b = Ok r /\
            repr_axis sp k n r (fun i x => op (f i x) (h 0 x)).
Proof.
  intros [Hs Hg] [Hs' Hg'] Hk.
  destruct (@broadcast_one op a b k n sp Hs Hs' Hk) as (r & E & Hr & Hv).
  exists r; split; [assumption|]. split; [assumption|].
  intros i x Hi Hx. rewrite Hv by assumption. now rewrite Hg, Hg' by (trivial; lia).
Qed.

End BroadcastsSpace.

End Space.

(** ** Fields with a time axis and a depth axis among the space axes *)

Section Layout.

Variable sp : list nat.
Variables p q : nat.
Hypothesis Hp : p <= length sp.
Hypothesis Hq : q <= S (length sp).

Lemma depth_reduced_le : depth_reduced p q <= length sp.
Proof. unfold depth_reduced. destruct (Nat.leb_spec q p); lia. Qed.

Lemma time_full_le : time_full p q <= S (length sp).
Proof. unfold time_full. destruct (Nat.leb_spec q p); lia. Qed.

(** The fields seen with the time axis inserted last. *)
Lemma reprF_swap (T D : nat) (a : ndarray) (f : nat -> list nat -> nat -> elt) :
  reprF sp p q T D a f ->
  shape a = insert_at (time_full p q) T (insert_at (depth_reduced p q) D sp) /\
  forall t x d, t < T -> in_range sp x -> d < D ->
    get a (insert_at (time_full p q) t (insert_at (depth_reduced p q) d x))
    = f t x d.
Proof.
  intros [Hs Hg]. split.
  - rewrite Hs. now apply insert_at_swap.
  - intros t x d Ht Hx Hd. rewrite <- (Hg t x d Ht Hx Hd). f_equal.
    symmetry. apply insert_at_swap; rewrite (in_range_length Hx); assumption.
Qed.

Lemma reprF_of_swap (T D : nat) (a : ndarray) (f : nat -> list nat -> nat -> elt) :
  shape a = insert_at (time_full p q) T (insert_at (depth_reduced p q) D sp) ->
  (forall t x d, t < T -> in_range sp x -> d < D ->
     get a (insert_at (time_full p q) t (insert_at (depth_reduced p q) d x))
     = f t x d) ->
  reprF sp p q T D a f.
Proof.
  intros Hs Hg. split.
  - rewrite Hs. symmetry. now apply insert_at_swap.
  - intros t x d Ht Hx Hd. rewrite <- (Hg t x d Ht Hx Hd). f_equal.
    apply insert_at_swap; rewrite (in_range_length Hx); assumption.
Qed.

Section Reduce.

Variable g : list elt -> elt.

Lemma reduce_depth_full (a : ndarray) (axis : Z) (T D : nat)
    (f : nat -> list nat -> nat -> elt) :
  reprF sp p q T D a f ->
  normalize_axis axis (S (S (length sp))) = Ok q ->
  exists r, reduce g a axis = Ok r /\
            repr_axis sp p T r (fun t x => g (map (f t x) (seq 0 D))).
Proof.
  intros [Hs Hg] Hn.
  destruct (@reduce_inserted g a axis q D (insert_at p T sp) Hs)
    as (r & E & Hr & Hv).
  { rewrite length_insert_at. exact Hq. }
  { now rewrite length_insert_at. }
  exists r. split; [exact E|]. split; [exact Hr|].
  intros t x Ht Hx. rewrite Hv by (now apply in_range_insert_at).
  f_equal. apply map_ext_in. intros d Hd. apply in_seq in Hd.
  apply Hg; trivial; lia.
Qed.

Lemma reduce_time_full (a : ndarray) (axis : Z) (T D : nat)
    (f : nat -> list nat -> nat -> elt) :
  reprF sp p q T D a f ->
  normalize_axis axis (S (S (length sp))) = Ok (time_full p q) ->
  exists r, reduce g a axis = Ok r /\
            repr_axis sp (depth_reduced p q) D r
              (fun d x => g (map (fun t => f t x d) (seq 0 T))).
Proof.
  intros HF Hn. destruct (reprF_swap HF) as [Hs Hg].
  destruct (@reduce_inserted g a axis (time_full p q) T
              (insert_at (depth_reduced p q) D sp) Hs)
    as (r & E & Hr & Hv).
  { rewrite length_insert_at. apply time_full_le. }
  { now rewrite length_insert_at. }
  exists r. split; [exact E|]. split; [exact Hr|].
  intros d x Hd Hx. rewrite Hv by (now apply in_range_insert_at).
  f_equal. apply map_ext_in. intros t Ht. apply in_seq in Ht.
  apply Hg; trivial; lia.
Qed.

End Reduce.

Lemma expand_depth_full (a : ndarray) (axis : Z) (T : nat)
    (f : nat -> list nat -> elt) :
  repr_axis sp p T a f ->
  normalize_axis axis (S (S (length sp))) = Ok q ->
  exists r, expand_dims a axis = Ok r /\
            reprF sp p q T 1 r (fun t x _ => f t x).
Proof.
  intros [Hs Hg] Hn.
  assert (Hn' : normalize_axis axis (S (length (shape a))) = Ok q)
    by (now rewrite Hs, length_insert_at).
  destruct (expand_inserted a axis Hn') as (r & E & Hr & Hv).
  exists r. split; [exact E|]. split; [now rewrite Hr, Hs|].
  intros t x d Ht Hx Hd. replace d with 0 by lia.
  rewrite Hv by (rewrite Hs; now apply in_range_insert_at). now apply Hg.
Qed.

Lemma expand_time_full (a : ndarray) (axis : Z) (D : nat)
    (f : nat -> list nat -> elt) :
  repr_axis sp (depth_reduced p q) D a f ->
  normalize_axis axis (S (S (length sp))) = Ok (time_full p q) ->
  exists r, expand_dims a axis = Ok r /\
            reprF sp p q 1 D r (fun _ x d => f d x).
Proof.
  intros [Hs Hg] Hn.
  assert (Hn' : normalize_axis axis (S (length (shape a))) = Ok (time_full p q))
    by (now rewrite Hs, length_insert_at).
  destruct (expand_inserted a axis Hn') as (r & E & Hr & Hv).
  exists r. split; [exact E|]. apply reprF_of_swap.
  - now rewrite Hr, Hs.
  - intros t x d Ht Hx Hd. replace t with 0 by lia.
    rewrite Hv by (rewrite Hs; now apply in_range_insert_at). now apply Hg.
Qed.

Section Broadcasts.

Variable op : elt -> elt -> elt.

Lemma bcF (a b : ndarray) (T D : nat) (f h : nat -> list nat -> nat -> elt) :
  reprF sp p q T D a f -> reprF sp p q T D b h ->
  exists r, broadcast op a b = Ok r /\
            reprF sp p q T D r (fun t x d => op (f t x d) (h t x d)).
Proof.
  intros [Hs Hg] [Hs' Hg'].
  destruct (@broadcast_same_shape op a b) as (r & E & Hr & Hv); [congruence|].
  exists r; split; [assumption|]. split; [congruence|].
  intros t x d Ht Hx Hd.
  rewrite Hv by (rewrite Hs; now repeat apply in_range_insert_at).
  now rewrite Hg, Hg'.
Qed.

(** A field against a field with a depth axis of size 1. *)
Lemma bcF_depth_one (a b : ndarray) (T D : nat)
    (f h : nat -> list nat -> nat -> elt) :
  reprF sp p q T D a f -> reprF sp p q T 1 b h ->
  exists r, broadcast op a b = Ok r /\
            reprF sp p q T D r (fun t x d => op (f t x d) (h t x 0)).
Proof.
  intros [Hs Hg] [Hs' Hg'].
  destruct (@broadcast_one op a b q D (insert_at p T sp) Hs Hs')
    as (r & E & Hr & Hv).
  { rewrite length_insert_at. exact Hq. }
  exists r; split; [assumption|]. split; [assumption|].
  intros t x d Ht Hx Hd. rewrite Hv by (trivial; now apply in_range_insert_at).
  now rewrite Hg, Hg' by (trivial; lia).
Qed.

(** A field against a field with a time axis of size 1. *)
Lemma bcF_time_one (a b : ndarray) (T D : nat)
    (f h : nat -> list nat -> nat -> elt) :
  reprF sp p q T D a f -> reprF sp p q 1 D b h ->
  exists r, broadcast op a b = Ok r /\
            reprF sp p q T D r (fun t x d => op (f t x d) (h 0 x d)).
Proof.
  intros HF HF'. destruct (reprF_swap HF) as [Hs Hg].
  destruct (reprF_swap HF') as [Hs' Hg'].
  destruct (@broadcast_one op a b (time_full p q) T
              (insert_at (depth_reduced p q) D sp) Hs Hs')
    as (r & E & Hr & Hv).
  { rewrite length_insert_at. apply time_full_le. }
  exists r; split; [assumption|]. apply reprF_of_swap; [assumption|].
  intros t x d Ht Hx Hd. rewrite Hv by (trivial; now apply in_range_insert_at).
  now rewrite Hg, Hg' by (trivial; lia).
Qed.

End Broadcasts.

End Layout.

(** ** The methods on fields of any supported layout *)

Section LayoutMethods.

Variable sp : list nat.
Variables p q T D : nat.
Variable self : SFD.
Variable A : nat -> list nat -> nat -> elt.

Hypothesis Hp : p <= length sp.
Hypothesis Hq : q <= S (length sp).
Hypothesis Htime_full :
  normalize_axis (time_axis self) (S (S (length sp))) = Ok (time_full p q).
Hypothesis Htime_reduced :
  normalize_axis (time_axis self) (S (length sp)) = Ok p.
Hypothesis Hdepth_full :
  normalize_axis (depth_axis self) (S (S (length sp))) = Ok q.
Hypothesis Hdepth_reduced :
  normalize_axis (depth_axis self) (S (length sp)) = Ok (depth_reduced p q).
Hypothesis Harea : reprF sp p q T D (cross_section self) A.

Lemma int_depth_field (v : ndarray) (V : nat -> list nat -> nat -> elt) :
  reprF sp p q T D v V ->
  exists r, int_depth self v = Ok r /\
            repr_axis sp p T r (fun t x => sum_depth D (at_place V x) t 0).
Proof.
  intros Hv. unfold int_depth.
  rewrite sum_reduce by (rewrite (proj1 Hv); apply insert_at_neq).
  apply (reduce_depth_full Hp Hq masked_sum _ Hv Hdepth_full).
Qed.

Lemma int_depth_reduced (v : ndarray) (V : nat -> list nat -> elt) :
  repr_axis sp (depth_reduced p q) D v V ->
  exists r, int_depth self v = Ok r /\
            reprS sp r (fun x => masked_sum (map (fun d => V d x) (seq 0 D))).
Proof.
  intros Hv. unfold int_depth.
  rewrite sum_reduce by (rewrite (proj1 Hv); apply insert_at_neq).
  apply (reduce_axis masked_sum _ Hv (@depth_reduced_le sp p q Hp Hq) Hdepth_reduced).
Qed.

Lemma avg_time_field (v : ndarray) (V : nat -> list nat -> nat -> elt) :
  reprF sp p q T D v V ->
  exists r, avg_time self v = Ok r /\
            repr_axis sp (depth_reduced p q) D r
              (fun d x => mean_time T (at_place V x) 0 d).
Proof.
  intros Hv. unfold avg_time.
  rewrite mean_reduce by (rewrite (proj1 Hv); apply insert_at_neq).
  apply (reduce_time_full Hp Hq masked_mean _ Hv Htime_full).
Qed.

Lemma avg_time_reduced (v : ndarray) (V : nat -> list nat -> elt) :
  repr_axis sp p T v V ->
  exists r, avg_time self v = Ok r /\
            reprS sp r (fun x => masked_mean (map (fun t => V t x) (seq 0 T))).
Proof.
  intros Hv. unfold avg_time.
  rewrite mean_reduce by (rewrite (proj1 Hv); apply insert_at_neq).
  apply (reduce_axis masked_mean _ Hv Hp Htime_reduced).
Qed.

Lemma avg_time_int_depth_field (v : ndarray) (V : nat -> list nat -> nat -> elt) :
  reprF sp p q T D v V ->
  exists r, avg_time_int_depth self v = Ok r /\
            reprS sp r (fun x => mean_sum T D (at_place V x) 0).
Proof.
  intros Hv. unfold avg_time_int_depth.
  step (int_depth_field Hv). apply (avg_time_reduced H).
Qed.

Lemma times_area_field (v : ndarray) (V : nat -> list nat -> nat -> elt) :
  reprF sp p q T D v V ->
  exists r, np.ma.multiply v (cross_section self) = Ok r /\
            reprF sp p q T D r (fun t x d => mmul (V t x d) (A t x d)).
Proof. intros Hv. apply (bcF (masked_binop Qcmult) Hv Harea). Qed.

Lemma component1_full (v : ndarray) (V : nat -> list nat -> nat -> elt) :
  reprF sp p q T D v V ->
  exists r, component1 self v = Ok r /\
            reprS sp r (fun x => den_component1 T D (at_place A x) (at_place V x) 0).
Proof.
  intros Hv. unfold component1, _component.
  step (times_area_field Hv).
  step (avg_time_int_depth_field H).
  step (avg_time_int_depth_field Harea).
  apply (bcS masked_div H0 H1).
Qed.

(** [component2], from a component 1 computed before. *)
Lemma component2_rest (v c1 : ndarray) (V : nat -> list nat -> nat -> elt) :
  reprF sp p q T D v V ->
  reprS sp c1 (fun x => den_component1 T D (at_place A x) (at_place V x) 0) ->
  exists r, component2 self v (Some c1) = Ok r /\
            repr_axis sp p T r
              (fun t x => den_component2 T D (at_place A x) (at_place V x) t 0).
Proof.
  intros Hv Hc. unfold component2, _component. cbn [bind].
  step (times_area_field Hv).
  step (int_depth_field H).
  step (int_depth_field Harea).
  step (bc_axis masked_div H0 H1).
  unfold expand_time.
  step (expand_space _ Hc Htime_reduced).
  apply (bc_axis_one (masked_binop Qcminus) H2 H3 Hp).
Qed.

Lemma component2_full (v : ndarray) (V : nat -> list nat -> nat -> elt) :
  reprF sp p q T D v V ->
  exists r, component2 self v None = Ok r /\
            repr_axis sp p T r
              (fun t x => den_component2 T D (at_place A x) (at_place V x) t 0).
Proof.
  intros Hv. unfold component2.
  step (component1_full Hv). apply (component2_rest Hv H).
Qed.

Lemma component__full (v : ndarray) (V : nat -> list nat -> nat -> elt) :
  reprF sp p q T D v V ->
  exists r, component_ self v None None = Ok r /\
            reprF sp p q T D r
              (fun t x d => den_component_ T D (at_place A x) (at_place V x) t 0 d).
Proof.
  intros Hv. unfold component_.
  step (component1_full Hv).
  step (component2_rest Hv H).
  unfold expand_time.
  step (expand_space _ H Htime_reduced).
  step (bc_axis_one (masked_binop Qcplus) H0 H1 Hp).
  unfold expand_depth.
  step (expand_depth_full Hp Hq _ H2 Hdepth_full).
  apply (bcF_depth_one Hp Hq (masked_binop Qcminus) Hv H3).
Qed.

(** [component3], from the intermediate component. *)
Lemma component3_rest (w : ndarray) (W : nat -> list nat -> nat -> elt) :
  reprF sp p q T D w W ->
  exists r, component3 self w true = Ok r /\
            repr_axis sp (depth_reduced p q) D r
              (fun d x => masked_div
                            (mean_time T (times (at_place W x) (at_place A x)) 0 d)
                            (mean_time T (at_place A x) 0 d)).
Proof.
  intros Hw. unfold component3, _component. cbn [negb bind].
  step (times_area_field Hw).
  step (avg_time_field H).
  step (avg_time_field Harea).
  apply (bc_axis masked_div H0 H1).
Qed.

Lemma component3_full (v : ndarray) (V : nat -> list nat -> nat -> elt) :
  reprF sp p q T D v V ->
  exists r, component3 self v false = Ok r /\
            repr_axis sp (depth_reduced p q) D r
              (fun d x => den_component3 T D (at_place A x) (at_place V x) 0 d).
Proof.
  intros Hv. unfold component3. cbn [negb].
  step (component__full Hv).
  apply (component3_rest H).
Qed.

Lemma component4_full (v : ndarray) (V : nat -> list nat -> nat -> elt) :
  reprF sp p q T D v V ->
  exists r, component4 self v false None = Ok r /\
            reprF sp p q T D r
              (fun t x d => den_component4 T D (at_place A x) (at_place V x) t 0 d).
Proof.
  intros Hv. unfold component4. cbn [negb].
  step (component__full Hv).
  step (component3_rest H).
  unfold expand_time.
  step (expand_time_full Hp Hq _ H0 Htime_full).
  apply (bcF_time_one Hp Hq (masked_binop Qcminus) H H1).
Qed.

Variables U Sa : nat -> list nat -> nat -> elt.
Hypothesis Hflow : reprF sp p q T D (flow self) U.
Hypothesis Hsalinity : reprF sp p q T D (salinity self) Sa.

Lemma flux1_full :
  exists c1 c2 pr a r,
    component1 self (flow self) = Ok c1 /\
    component1 self (salinity self) = Ok c2 /\
    np.ma.multiply c1 c2 = Ok pr /\
    avg_time_int_depth self (cross_section self) = Ok a /\
    np.ma.multiply pr a = Ok r /\
    flux1_value self = Ok r /\
    shape c1 = sp /\ shape c2 = sp /\ shape a = sp /\ shape r = sp /\
    (forall x, in_range sp x ->
       get r x = mmul (mmul (get c1 x) (get c2 x)) (get a x)) /\
    reprS sp r (fun x => den_flux1 T D (at_place A x) (at_place U x) (at_place Sa x) 0).
Proof.
  destruct (component1_full Hflow) as (c1 & E1 & H1).
  destruct (component1_full Hsalinity) as (c2 & E2 & H2).
  destruct (bcS (masked_binop Qcmult) H1 H2) as (pr & E3 & H3).
  destruct (avg_time_int_depth_field Harea) as (a & E4 & H4).
  destruct (bcS (masked_binop Qcmult) H3 H4) as (r & E5 & H5).
  exists c1, c2, pr, a, r. repeat (split; [assumption|]).
  split.
  { unfold flux1_value, flux1_product. rewrite calc_flux_value.
    rewrite E1, E2. cbn [bind]. unfold ma.multiply.
    rewrite E3. cbn [bind]. rewrite E4. cbn [bind]. exact E5. }
  split; [apply H1|]. split; [apply H2|]. split; [apply H4|].
  split; [apply H5|]. split; [|exact H5].
  intros x Hx. rewrite (proj2 H5 x Hx), (proj2 H1 x Hx), (proj2 H2 x Hx),
    (proj2 H4 x Hx). reflexivity.
Qed.

Lemma flux2_full :
  exists r, flux2_value self = Ok r /\
    reprS sp r (fun x => den_flux2 T D (at_place A x) (at_place U x) (at_place Sa x) 0).
Proof.
  unfold flux2_value, flux2_product. rewrite calc_flux_value.
  step (component2_full Hflow).
  step (component2_full Hsalinity).
  step (bc_axis (masked_binop Qcmult) H H0).
  step (int_depth_field Harea).
  step (bc_axis (masked_binop Qcmult) H1 H2).
  apply (avg_time_reduced H3).
Qed.

Lemma flux3_full :
  exists r, flux3_value self = Ok r /\
    reprS sp r (fun x => den_flux3 T D (at_place A x) (at_place U x) (at_place Sa x) 0).
Proof.
  unfold flux3_value, flux3_product. rewrite calc_flux_value.
  step (component3_full Hflow).
  step (component3_full Hsalinity).
  step (bc_axis (masked_binop Qcmult) H H0).
  step (avg_time_field Harea).
  step (bc_axis (masked_binop Qcmult) H1 H2).
  apply (int_depth_reduced H3).
Qed.

Lemma flux4_full :
  exists r, flux4_value self = Ok r /\
    reprS sp r (fun x => den_flux4 T D (at_place A x) (at_place U x) (at_place Sa x) 0).
Proof.
  unfold flux4_value, flux4_product. rewrite calc_flux_value.
  step (component4_full Hflow).
  step (component4_full Hsalinity).
  step (bcF (masked_binop Qcmult) H H0).
  step (bcF (masked_binop Qcmult) H1 Harea).
  apply (avg_time_int_depth_field H2).
Qed.

Lemma total_transport_full :
  exists r, total_transport self = Ok r /\
    reprS sp r (fun x => den_total T D (at_place A x) (at_place U x) (at_place Sa x) 0).
Proof.
  unfold total_transport.
  step (bcF (masked_binop Qcmult) Hflow Hsalinity).
  step (bcF (masked_binop Qcmult) H Harea).
  apply (avg_time_int_depth_field H0).
Qed.

End LayoutMethods.

(** ** Entries masked by time step and by depth level *)

Lemma unmasked_In (m : nat -> bool) (n i : nat) :
  In i (unmasked m n) <-> i < n /\ m i = false.
Proof.
  unfold unmasked. rewrite filter_In, in_seq, negb_true_iff. intuition lia.
Qed.

Lemma unmasked_nth (m : nat -> bool) (n i : nat) :
  i < n_unmasked m n ->
  nth_unmasked m n i < n /\ m (nth_unmasked m n i) = false.
Proof. intros H. apply unmasked_In. now apply nth_In. Qed.

Lemma unmasked_nil (m : nat -> bool) (n i : nat) :
  unmasked m n = [] -> i < n -> m i = true.
Proof.
  intros E Hi. destruct (m i) eqn:Hm; [reflexivity|].
  assert (H : In i (unmasked m n)) by (now apply unmasked_In).
  rewrite E in H. now elim H.
Qed.

Lemma map_nth_seq (X : Type) (g : nat -> X) (l : list nat) :
  map g l = map (fun i => g (nth i l 0)) (seq 0 (length l)).
Proof.
  induction l as [|a l IH]; [reflexivity|].
  cbn [length seq map nth]. f_equal.
  rewrite <- seq_shift, map_map. exact IH.
Qed.

(** The mean and the sum of entries that are masked outside of [keep]. *)
Lemma count_filter (X : Type) (F : X -> elt) (keep : X -> bool) (l : list X) :
  (forall i, In i l -> keep i = false -> F i = None) ->
  (forall i, In i l -> keep i = true -> F i <> None) ->
  count (map F l) = length (filter keep l).
Proof.
  intros Ho Hi. unfold count. induction l as [|i l IH]; [reflexivity|].
  cbn [map filter].
  assert (IH' : length (filter (fun x => negb (is_masked x)) (map F l))
                = length (filter keep l)).
  { apply IH; intros j Hj; [apply Ho | apply Hi]; now right. }
  destruct (keep i) eqn:K.
  - specialize (Hi i (or_introl eq_refl) K).
    destruct (F i); [|now elim Hi]. cbn [is_masked negb length]. now rewrite IH'.
  - rewrite (Ho i (or_introl eq_refl) K). cbn [is_masked negb]. exact IH'.
Qed.

Lemma qsum_filled_filter (X : Type) (F : X -> elt) (keep : X -> bool) (l : list X) :
  (forall i, In i l -> keep i = false -> F i = None) ->
  qsum (map filled (map F l)) = qsum (map (fun i => filled (F i)) (filter keep l)).
Proof.
  intros Ho. induction l as [|i l IH]; [reflexivity|].
  cbn [map filter qsum fold_right].
  assert (IH' : qsum (map filled (map F l))
                = qsum (map (fun i => filled (F i)) (filter keep l))).
  { apply IH. intros j Hj. apply Ho. now right. }
  unfold qsum in *. destruct (keep i) eqn:K.
  - cbn [map fold_right]. now rewrite IH'.
  - rewrite (Ho i (or_introl eq_refl) K). cbn [filled]. rewrite IH'. ring.
Qed.

Lemma masked_mean_unmasked (F : nat -> elt) (m : nat -> bool) (h : nat -> Qc)
    (n : nat) :
  (forall t, t < n -> m t = true -> F t = None) ->
  (forall i, i < n_unmasked m n -> F (nth_unmasked m n i) = Some (h i)) ->
  unmasked m n <> [] ->
  masked_mean (map F (seq 0 n)) =
  Some (sumT (n_unmasked m n) h / of_nat (n_unmasked m n))%Qc.
Proof.
  unfold n_unmasked, nth_unmasked. intros Ho Hi Hne.
  assert (Hi' : forall t, In t (seq 0 n) -> negb (m t) = true -> F t <> None).
  { intros t Ht Hm.
    assert (Hin : In t (unmasked m n))
      by (apply unmasked_In; apply in_seq in Ht; apply negb_true_iff in Hm;
          split; [lia | exact Hm]).
    destruct (In_nth _ _ 0 Hin) as (i & Hlt & <-). rewrite (Hi i Hlt).
    discriminate. }
  assert (Ho' : forall t, In t (seq 0 n) -> negb (m t) = false -> F t = None).
  { intros t Ht Hm. apply in_seq in Ht. apply negb_false_iff in Hm.
    apply Ho; [lia | exact Hm]. }
  unfold masked_mean.
  rewrite (count_filter F (fun t => negb (m t)) (seq 0 n) Ho' Hi').
  fold (unmasked m n).
  destruct (length (unmasked m n)) eqn:L.
  { destruct (unmasked m n); [now elim Hne | discriminate]. }
  rewrite <- L. do 2 f_equal.
  rewrite (qsum_filled_filter F (fun t => negb (m t)) (seq 0 n) Ho').
  fold (unmasked m n). unfold sumT.
  rewrite (map_nth_seq (fun i => filled (F i)) (unmasked m n)).
  apply qsum_map_ext_in. intros i Hlt. apply in_seq in Hlt.
  rewrite Hi by lia. reflexivity.
Qed.

Lemma masked_sum_unmasked (F : nat -> elt) (m : nat -> bool) (h : nat -> Qc)
    (n : nat) :
  (forall t, t < n -> m t = true -> F t = None) ->
  (forall i, i < n_unmasked m n -> F (nth_unmasked m n i) = Some (h i)) ->
  unmasked m n <> [] ->
  masked_sum (map F (seq 0 n)) = Some (sumD (n_unmasked m n) h).
Proof.
  unfold n_unmasked, nth_unmasked. intros Ho Hi Hne.
  assert (Ho' : forall t, In t (seq 0 n) -> negb (m t) = false -> F t = None).
  { intros t Ht Hm. apply in_seq in Ht. apply negb_false_iff in Hm.
    apply Ho; [lia | exact Hm]. }
  assert (Hex : exists t, In t (seq 0 n) /\ F t <> None).
  { destruct (unmasked m n) as [|t0 l0] eqn:E; [now elim Hne|].
    exists t0. assert (Hin : In t0 (unmasked m n)) by (rewrite E; now left).
    split.
    - apply unmasked_In in Hin. apply in_seq. lia.
    - specialize (Hi 0). cbn [nth length] in Hi.
      rewrite Hi by lia. discriminate. }
  destruct Hex as (t0 & Hin0 & Hn0).
  pose proof (masked_sum_not_masked F (seq 0 n) t0 Hin0 Hn0) as Hm.
  unfold masked_sum in *. destruct (map F (seq 0 n)) as [|e l] eqn:E.
  { destruct (seq 0 n); [now elim Hin0 | discriminate]. }
  destruct (forallb is_masked (e :: l)); [discriminate|].
  f_equal. rewrite <- E.
  rewrite (qsum_filled_filter F (fun t => negb (m t)) (seq 0 n) Ho').
  fold (unmasked m n). unfold sumD.
  rewrite (map_nth_seq (fun i => filled (F i)) (unmasked m n)).
  apply qsum_map_ext_in. intros i Hlt. apply in_seq in Hlt.
  rewrite Hi by lia. reflexivity.
Qed.

(** ** The decomposition with masked time steps and depth levels

    At one place, [mt] and [md] mask whole time steps and whole depth levels.
    The times and depths left are numbered from 0: [a i j], [u i j] and
    [s i j] are the area, the flow velocity and the salinity at the [i]-th
    time and the [j]-th depth that are not masked. *)

Section MaskedBridge.

Variables T D x : nat.
Variables mt md : nat -> bool.
Variables A U Sa : nat -> nat -> nat -> elt.
Variables a u s : nat -> nat -> Qc.

Hypothesis HT' : unmasked mt T <> [].
Hypothesis HD' : unmasked md D <> [].

Hypothesis HA : forall i j, i < n_unmasked mt T -> j < n_unmasked md D ->
  A (nth_unmasked mt T i) x (nth_unmasked md D j) = Some (a i j).
Hypothesis HAm : forall t d, t < T -> d < D -> mt t || md d = true ->
  A t x d = None.
Hypothesis HU : forall i j, i < n_unmasked mt T -> j < n_unmasked md D ->
  U (nth_unmasked mt T i) x (nth_unmasked md D j) = Some (u i j).
Hypothesis HS : forall i j, i < n_unmasked mt T -> j < n_unmasked md D ->
  Sa (nth_unmasked mt T i) x (nth_unmasked md D j) = Some (s i j).

Lemma n_unmasked_neq0 : n_unmasked mt T <> 0.
Proof.
  unfold n_unmasked. destruct (unmasked mt T); [now elim HT' | discriminate].
Qed.

Lemma m_sum_depth (V : nat -> nat -> nat -> elt) (v : nat -> nat -> Qc) (i : nat) :
  (forall i j, i < n_unmasked mt T -> j < n_unmasked md D ->
     V (nth_unmasked mt T i) x (nth_unmasked md D j) = Some (v i j)) ->
  (forall t d, t < T -> d < D -> mt t || md d = true -> V t x d = None) ->
  i < n_unmasked mt T ->
  sum_depth D V (nth_unmasked mt T i) x = Some (sumD (n_unmasked md D) (v i)).
Proof.
  intros HV HVm Hi. unfold sum_depth.
  destruct (unmasked_nth mt T Hi) as [Ht _].
  apply masked_sum_unmasked; trivial.
  - intros d Hd Hm. apply HVm; trivial. rewrite Hm. apply orb_true_r.
  - intros j Hj. now apply HV.
Qed.

Lemma m_sum_depth_masked (V : nat -> nat -> nat -> elt) (t : nat) :
  (forall t d, t < T -> d < D -> mt t || md d = true -> V t x d = None) ->
  t < T -> mt t = true -> sum_depth D V t x = None.
Proof.
  intros HVm Ht Hm. unfold sum_depth. apply masked_sum_all_None.
  - destruct D; [now elim HD' | discriminate].
  - intros d Hd. apply in_seq in Hd. apply HVm; [assumption | lia |].
    now rewrite Hm.
Qed.

Lemma m_mean_time (V : nat -> nat -> nat -> elt) (v : nat -> nat -> Qc) (j : nat) :
  (forall i j, i < n_unmasked mt T -> j < n_unmasked md D ->
     V (nth_unmasked mt T i) x (nth_unmasked md D j) = Some (v i j)) ->
  (forall t d, t < T -> d < D -> mt t || md d = true -> V t x d = None) ->
  j < n_unmasked md D ->
  mean_time T V x (nth_unmasked md D j)
  = Some (sumT (n_unmasked mt T) (fun i => v i j) / of_nat (n_unmasked mt T))%Qc.
Proof.
  intros HV HVm Hj. unfold mean_time.
  destruct (unmasked_nth md D Hj) as [Hd _].
  apply masked_mean_unmasked with (h := fun i => v i j); trivial.
  - intros t Ht Hm. apply HVm; trivial. now rewrite Hm.
  - intros i Hi. now apply HV.
Qed.

Lemma m_mean_time_masked (V : nat -> nat -> nat -> elt) (d : nat) :
  (forall t d, t < T -> d < D -> mt t || md d = true -> V t x d = None) ->
  d < D -> md d = true -> mean_time T V x d = None.
Proof.
  intros HVm Hd Hm. unfold mean_time. apply masked_mean_all_None.
  intros t Ht. apply in_seq in Ht. apply HVm; [lia | assumption |].
  rewrite Hm. apply orb_true_r.
Qed.

Lemma m_mean_sum (V : nat -> nat -> nat -> elt) (v : nat -> nat -> Qc) :
  (forall i j, i < n_unmasked mt T -> j < n_unmasked md D ->
     V (nth_unmasked mt T i) x (nth_unmasked md D j) = Some (v i j)) ->
  (forall t d, t < T -> d < D -> mt t || md d = true -> V t x d = None) ->
  mean_sum T D V x
  = Some (sumT (n_unmasked mt T) (fun i => sumD (n_unmasked md D) (v i))
          / of_nat (n_unmasked mt T))%Qc.
Proof.
  intros HV HVm. unfold mean_sum.
  apply masked_mean_unmasked
    with (h := fun i => sumD (n_unmasked md D) (v i)); trivial.
  - intros t Ht Hm. now apply m_sum_depth_masked.
  - intros i Hi. now apply m_sum_depth.
Qed.

Lemma m_times (V W : nat -> nat -> nat -> elt) (v w : nat -> nat -> Qc) :
  (forall i j, i < n_unmasked mt T -> j < n_unmasked md D ->
     V (nth_unmasked mt T i) x (nth_unmasked md D j) = Some (v i j)) ->
  (forall i j, i < n_unmasked mt T -> j < n_unmasked md D ->
     W (nth_unmasked mt T i) x (nth_unmasked md D j) = Some (w i j)) ->
  forall i j, i < n_unmasked mt T -> j < n_unmasked md D ->
    times V W (nth_unmasked mt T i) x (nth_unmasked md D j)
    = Some (v i j * w i j)%Qc.
Proof. intros HV HW i j Hi Hj. unfold times. now rewrite HV, HW. Qed.

Lemma m_times_masked (V : nat -> nat -> nat -> elt) :
  forall t d, t < T -> d < D -> mt t || md d = true -> times V A t x d = None.
Proof.
  intros t d Ht Hd Hm. unfold times. rewrite (HAm Ht Hd Hm).
  apply masked_binop_None_r.
Qed.

Hypothesis Hden1 : mean_sum T D A x <> Some 0%Qc.
Hypothesis Hden2 : forall t, t < T -> sum_depth D A t x <> Some 0%Qc.
Hypothesis Hden3 : forall d, d < D -> mean_time T A x d <> Some 0%Qc.

Lemma m_den1 :
  (area (n_unmasked mt T) (n_unmasked md D) a / of_nat (n_unmasked mt T))%Qc
  <> 0%Qc.
Proof.
  intros E. apply Hden1. rewrite (@m_mean_sum A a HA HAm). f_equal. exact E.
Qed.

Lemma m_den2 (i : nat) :
  i < n_unmasked mt T -> area_t (n_unmasked md D) a i <> 0%Qc.
Proof.
  intros Hi E. destruct (unmasked_nth mt T Hi) as [Ht _].
  apply (Hden2 Ht). rewrite (@m_sum_depth A a i HA HAm Hi). f_equal. exact E.
Qed.

Lemma m_den3 (j : nat) :
  j < n_unmasked md D ->
  (area_d (n_unmasked mt T) a j / of_nat (n_unmasked mt T))%Qc <> 0%Qc.
Proof.
  intros Hj E. destruct (unmasked_nth md D Hj) as [Hd _].
  apply (Hden3 Hd). rewrite (@m_mean_time A a j HA HAm Hj). f_equal. exact E.
Qed.

Section MaskedComponents.

Variable V : nat -> nat -> nat -> elt.
Variable v : nat -> nat -> Qc.
Hypothesis HV : forall i j, i < n_unmasked mt T -> j < n_unmasked md D ->
  V (nth_unmasked mt T i) x (nth_unmasked md D j) = Some (v i j).

Lemma m_component1 :
  den_component1 T D A V x
  = Some (q_comp1 (n_unmasked mt T) (n_unmasked md D) a v).
Proof.
  unfold den_component1.
  rewrite (@m_mean_sum (times V A) (fun i j => v i j * a i j)%Qc
             (@m_times _ _ _ _ HV HA) (@m_times_masked V)).
  rewrite (@m_mean_sum A a HA HAm).
  rewrite masked_div_Some by apply m_den1.
  reflexivity.
Qed.

Lemma m_component2 (i : nat) :
  i < n_unmasked mt T ->
  den_component2 T D A V (nth_unmasked mt T i) x
  = Some (q_comp2 (n_unmasked mt T) (n_unmasked md D) a v i).
Proof.
  intros Hi. unfold den_component2.
  rewrite (@m_sum_depth (times V A) (fun i j => v i j * a i j)%Qc i
             (@m_times _ _ _ _ HV HA) (@m_times_masked V) Hi).
  rewrite (@m_sum_depth A a i HA HAm Hi).
  rewrite masked_div_Some by (now apply m_den2).
  rewrite m_component1. reflexivity.
Qed.

Lemma m_component_ (i j : nat) :
  i < n_unmasked mt T -> j < n_unmasked md D ->
  den_component_ T D A V (nth_unmasked mt T i) x (nth_unmasked md D j)
  = Some (q_comp_ (n_unmasked mt T) (n_unmasked md D) a v i j).
Proof.
  intros Hi Hj. unfold den_component_.
  rewrite HV, m_component2, m_component1 by assumption. reflexivity.
Qed.

Lemma m_component3 (j : nat) :
  j < n_unmasked md D ->
  den_component3 T D A V x (nth_unmasked md D j)
  = Some (q_comp3 (n_unmasked mt T) (n_unmasked md D) a v j).
Proof.
  intros Hj. unfold den_component3.
  rewrite (@m_mean_time (times (den_component_ T D A V) A)
             (fun i j => q_comp_ (n_unmasked mt T) (n_unmasked md D) a v i j
                         * a i j)%Qc j
             (@m_times _ _ _ _ m_component_ HA)
             (@m_times_masked (den_component_ T D A V)) Hj).
  rewrite (@m_mean_time A a j HA HAm Hj).
  rewrite masked_div_Some by (now apply m_den3).
  reflexivity.
Qed.

Lemma m_component4 (i j : nat) :
  i < n_unmasked mt T -> j < n_unmasked md D ->
  den_component4 T D A V (nth_unmasked mt T i) x (nth_unmasked md D j)
  = Some (q_comp4 (n_unmasked mt T) (n_unmasked md D) a v i j).
Proof.
  intros Hi Hj. unfold den_component4.
  rewrite m_component_, m_component3 by assumption. reflexivity.
Qed.

End MaskedComponents.

Lemma m_flux1 :
  den_flux1 T D A U Sa x
  = Some (q_flux1 (n_unmasked mt T) (n_unmasked md D) a u s).
Proof.
  unfold den_flux1.
  rewrite (@m_component1 U u HU), (@m_component1 Sa s HS), (@m_mean_sum A a HA HAm).
  reflexivity.
Qed.

Lemma m_flux2 :
  den_flux2 T D A U Sa x
  = Some (q_flux2 (n_unmasked mt T) (n_unmasked md D) a u s).
Proof.
  unfold den_flux2, q_flux2.
  apply masked_mean_unmasked
    with (h := fun i => (q_comp2 (n_unmasked mt T) (n_unmasked md D) a u i
                         * q_comp2 (n_unmasked mt T) (n_unmasked md D) a s i
                         * area_t (n_unmasked md D) a i)%Qc); trivial.
  - intros t Ht Hm. rewrite (@m_sum_depth_masked A t HAm Ht Hm).
    apply masked_binop_None_r.
  - intros i Hi.
    rewrite (@m_component2 U u HU i Hi), (@m_component2 Sa s HS i Hi),
      (@m_sum_depth A a i HA HAm Hi).
    reflexivity.
Qed.

Lemma m_flux3 :
  den_flux3 T D A U Sa x
  = Some (q_flux3 (n_unmasked mt T) (n_unmasked md D) a u s).
Proof.
  unfold den_flux3, q_flux3.
  apply masked_sum_unmasked
    with (h := fun j => (q_comp3 (n_unmasked mt T) (n_unmasked md D) a u j
                         * q_comp3 (n_unmasked mt T) (n_unmasked md D) a s j
                         * (area_d (n_unmasked mt T) a j
                            / of_nat (n_unmasked mt T)))%Qc); trivial.
  - intros d Hd Hm. rewrite (@m_mean_time_masked A d HAm Hd Hm).
    apply masked_binop_None_r.
  - intros j Hj.
    rewrite (@m_component3 U u HU j Hj), (@m_component3 Sa s HS j Hj),
      (@m_mean_time A a j HA HAm Hj).
    reflexivity.
Qed.

Lemma m_flux4 :
  den_flux4 T D A U Sa x
  = Some (q_flux4 (n_unmasked mt T) (n_unmasked md D) a u s).
Proof.
  unfold den_flux4.
  apply (@m_mean_sum _
           (fun i j => q_comp4 (n_unmasked mt T) (n_unmasked md D) a u i j
                       * q_comp4 (n_unmasked mt T) (n_unmasked md D) a s i j
                       * a i j)%Qc).
  - apply m_times; [|exact HA].
    apply m_times; [apply (@m_component4 U u HU) | apply (@m_component4 Sa s HS)].
  - apply m_times_masked.
Qed.

Lemma m_total :
  den_total T D A U Sa x
  = Some (q_total (n_unmasked mt T) (n_unmasked md D) a u s).
Proof.
  unfold den_total.
  apply (@m_mean_sum _ (fun i j => u i j * s i j * a i j)%Qc).
  - apply m_times; [|exact HA]. now apply m_times.
  - apply m_times_masked.
Qed.

Lemma m_decomposition :
  madd (madd (madd (den_flux1 T D A U Sa x) (den_flux2 T D A U Sa x))
             (den_flux3 T D A U Sa x))
       (den_flux4 T D A U Sa x)
  = den_total T D A U Sa x.
Proof.
  rewrite m_flux1, m_flux2, m_flux3, m_flux4, m_total.
  cbn [madd masked_binop]. f_equal. symmetry. apply q_decomposition.
  - apply of_nat_neq0, n_unmasked_neq0.
  - apply Qcdiv_neq0_l with (q := of_nat (n_unmasked mt T)). apply m_den1.
  - intros i Hi. now apply m_den2.
  - intros j Hj. apply Qcdiv_neq0_l with (q := of_nat (n_unmasked mt T)).
    now apply m_den3.
Qed.

End MaskedBridge.

(** *** The masks as they are given *)

Lemma masked_entry (e : elt) : is_masked e = true -> e = None.
Proof. now destruct e. Qed.

Lemma unmasked_entry (e : elt) : is_masked e = false -> e = Some (filled e).
Proof. now destruct e. Qed.

Lemma mean_sum_all_None (T D x : nat) (V : nat -> nat -> nat -> elt) :
  D <> 0 -> (forall t d, t < T -> d < D -> V t x d = None) ->
  mean_sum T D V x = None.
Proof.
  intros HD H. unfold mean_sum. apply masked_mean_all_None.
  intros t Ht. apply in_seq in Ht. unfold sum_depth.
  apply masked_sum_all_None.
  - destruct D; [now elim HD | discriminate].
  - intros d Hd. apply in_seq in Hd. apply H; lia.
Qed.

(** The decomposition at a place where whole time steps and whole depth
    levels of the areas are masked. *)
Lemma den_decomposition_masked (T D x : nat) (mt md : nat -> bool)
    (A U Sa : nat -> nat -> nat -> elt) :
  (forall t d, t < T -> d < D -> is_masked (A t x d) = mt t || md d) ->
  (forall t d, t < T -> d < D ->
     is_masked (U t x d) = true -> is_masked (A t x d) = true) ->
  (forall t d, t < T -> d < D ->
     is_masked (Sa t x d) = true -> is_masked (A t x d) = true) ->
  mean_sum T D A x <> Some 0%Qc ->
  (forall t, t < T -> sum_depth D A t x <> Some 0%Qc) ->
  (forall d, d < D -> mean_time T A x d <> Some 0%Qc) ->
  madd (madd (madd (den_flux1 T D A U Sa x) (den_flux2 T D A U Sa x))
             (den_flux3 T D A U Sa x))
       (den_flux4 T D A U Sa x)
  = den_total T D A U Sa x.
Proof.
  intros HA HU HS H1 H2 H3.
  assert (Hin : forall (V : nat -> nat -> nat -> elt),
             (forall t d, t < T -> d < D ->
                is_masked (V t x d) = true -> is_masked (A t x d) = true) ->
             forall i j, i < n_unmasked mt T -> j < n_unmasked md D ->
               V (nth_unmasked mt T i) x (nth_unmasked md D j)
               = Some (filled (V (nth_unmasked mt T i) x (nth_unmasked md D j)))).
  { intros V HV i j Hi Hj.
    destruct (unmasked_nth mt T Hi) as [Ht Hmt].
    destruct (unmasked_nth md D Hj) as [Hd Hmd].
    apply unmasked_entry.
    destruct (is_masked (V _ x _)) eqn:E; [|reflexivity].
    apply HV in E; trivial. rewrite HA, Hmt, Hmd in E by assumption.
    discriminate. }
  assert (Hout : forall t d, t < T -> d < D -> mt t || md d = true ->
                             A t x d = None).
  { intros t d Ht Hd Hm. apply masked_entry. now rewrite HA. }
  destruct (unmasked mt T) as [|t0 lt] eqn:ET;
    [|destruct (unmasked md D) as [|d0 ld] eqn:ED].
  3: { apply m_decomposition
         with (mt := mt) (md := md)
              (a := fun i j => filled (A (nth_unmasked mt T i) x (nth_unmasked md D j)))
              (u := fun i j => filled (U (nth_unmasked mt T i) x (nth_unmasked md D j)))
              (s := fun i j => filled (Sa (nth_unmasked mt T i) x (nth_unmasked md D j)));
         trivial.
       - now rewrite ET.
       - now rewrite ED.
       - apply Hin. auto.
       - now apply Hin.
       - now apply Hin. }
  all: assert (Hall : forall t d, t < T -> d < D -> A t x d = None).
  { intros t d Ht Hd. apply Hout; trivial.
    now rewrite (@unmasked_nil mt T t ET Ht). }
  2: { intros t d Ht Hd. apply Hout; trivial.
       rewrite (@unmasked_nil md D d ED Hd). apply orb_true_r. }
  all: destruct D as [|D'];
    [ destruct T as [|T']; [reflexivity|];
      elim (H2 0); [lia | reflexivity] |].
  all: assert (Hprod : forall t d, t < T -> d < S D' ->
                         times (times U Sa) A t x d = None)
    by (intros t d Ht Hd; unfold times; rewrite (Hall t d Ht Hd);
        apply masked_binop_None_r).
  all: unfold den_flux1, den_total, mmul, madd;
    rewrite (@mean_sum_all_None T (S D') x A) by (trivial; lia);
    rewrite (@mean_sum_all_None T (S D') x (times (times U Sa) A))
      by (trivial; lia);
    now rewrite masked_binop_None_r.
Qed.

(** ** The supported axes *)

Lemma normalize_axis_inv (axis : Z) (ndim k : nat) :
  normalize_axis axis ndim = Ok k ->
  (- Z.of_nat ndim <= axis < Z.of_nat ndim)%Z /\
  Z.of_nat k = (if (axis <? 0)%Z then axis + Z.of_nat ndim else axis)%Z.
Proof.
  unfold normalize_axis.
  destruct (Z.leb_spec (- Z.of_nat ndim) axis); [|discriminate].
  destruct (Z.ltb_spec axis (Z.of_nat ndim)); [|discriminate].
  cbn [andb]. intros E. injection E as <-. split; [lia|].
  destruct (Z.ltb_spec axis 0); lia.
Qed.

(** The supported axes are the pairs of distinct axes that the axis
    arguments still name on an array reduced once: the time axis without the
    depth axis, the depth axis without the time axis. *)
Lemma supported_axes_spec (n : nat) (ta da : Z) (tp dp : nat) :
  normalize_axis ta n = Ok tp -> normalize_axis da n = Ok dp -> tp <> dp ->
  supported_axes n ta da = true <->
  normalize_axis ta (n - 1) = Ok (if dp <? tp then tp - 1 else tp) /\
  normalize_axis da (n - 1) = Ok (if tp <? dp then dp - 1 else dp).
Proof.
  intros Ht Hd Hne.
  destruct (normalize_axis_inv _ _ Ht) as [Rt Et].
  destruct (normalize_axis_inv _ _ Hd) as [Rd Ed].
  unfold supported_axes, normalize_axis.
  destruct (Z.ltb_spec ta 0); destruct (Z.ltb_spec da 0);
    destruct (Nat.ltb_spec dp tp); destruct (Nat.ltb_spec tp dp); try lia;
    repeat match goal with
           | |- context [(?a <=? ?b)%Z] => destruct (Z.leb_spec a b)
           | |- context [(?a <? ?b)%Z] => destruct (Z.ltb_spec a b)
           end; cbn [andb orb];
    (split; [intros H'; try discriminate; split; f_equal; lia
            | intros [K1 K2]; try discriminate; try reflexivity;
              try (injection K1 as K1); try (injection K2 as K2); lia]).
Qed.

Lemma supported_layout (n : nat) (ta da : Z) :
  supported_axes n ta da = true ->
  exists m p q,
    n = S (S m) /\ p <= m /\ q <= S m /\
    normalize_axis ta (S (S m)) = Ok (time_full p q) /\
    normalize_axis ta (S m) = Ok p /\
    normalize_axis da (S (S m)) = Ok q /\
    normalize_axis da (S m) = Ok (depth_reduced p q).
Proof.
  unfold supported_axes. intros H.
  apply orb_prop in H as [H|H];
    apply andb_prop in H as [H H3]; apply andb_prop in H as [H1 H2];
    apply Z.leb_le in H1; apply Z.ltb_lt in H2; apply Z.ltb_lt in H3;
    (destruct n as [|[|m]]; [lia | lia |]); exists m.
  - exists (Z.to_nat ta), (Z.to_nat (da + Z.of_nat (S (S m)))).
    split; [reflexivity|]. split; [lia|]. split; [lia|].
    unfold time_full, depth_reduced.
    destruct (Nat.leb_spec (Z.to_nat (da + Z.of_nat (S (S m)))) (Z.to_nat ta));
      [lia|].
    repeat split; rewrite normalize_axis_ok by lia; f_equal;
      destruct (Z.ltb_spec ta 0); destruct (Z.ltb_spec da 0); lia.
  - exists (Z.to_nat (ta + Z.of_nat (S m))), (Z.to_nat da).
    split; [reflexivity|]. split; [lia|]. split; [lia|].
    unfold time_full, depth_reduced.
    destruct (Nat.leb_spec (Z.to_nat da) (Z.to_nat (ta + Z.of_nat (S m))));
      [|lia].
    repeat split; rewrite normalize_axis_ok by lia; f_equal;
      destruct (Z.ltb_spec ta 0); destruct (Z.ltb_spec da 0); lia.
Qed.

Section Supported.

Variable self : SFD.
Hypothesis Hax :
  supported_axes (ndim self) (time_axis self) (depth_axis self) = true.

Lemma supported_self :
  time_pos_reduced self <= length (space_shape self) /\
  depth_pos self <= S (length (space_shape self)) /\
  normalize_axis (time_axis self) (S (S (length (space_shape self))))
  = Ok (time_full (time_pos_reduced self) (depth_pos self)) /\
  normalize_axis (time_axis self) (S (length (space_shape self)))
  = Ok (time_pos_reduced self) /\
  normalize_axis (depth_axis self) (S (S (length (space_shape self))))
  = Ok (depth_pos self) /\
  normalize_axis (depth_axis self) (S (length (space_shape self)))
  = Ok (depth_reduced (time_pos_reduced self) (depth_pos self)) /\
  depth_pos_reduced self
  = depth_reduced (time_pos_reduced self) (depth_pos self) /\
  shape (cross_section self)
  = insert_at (depth_pos self) (n_depths self)
      (insert_at (time_pos_reduced self) (n_times self) (space_shape self)).
Proof.
  destruct (supported_layout _ _ _ Hax)
    as (m & p & q & Hn & Hp & Hq & N1 & N2 & N3 & N4).
  assert (Etp : time_pos self = time_full p q)
    by (unfold time_pos, axis_pos; now rewrite Hn, N1).
  assert (Edp : depth_pos self = q)
    by (unfold depth_pos, axis_pos; now rewrite Hn, N3).
  assert (Etr : time_pos_reduced self = p).
  { unfold time_pos_reduced. rewrite Etp, Edp. unfold time_full.
    destruct (Nat.leb_spec q p);
      [destruct (Nat.ltb_spec q (S p)) | destruct (Nat.ltb_spec q p)]; lia. }
  assert (Edr : depth_pos_reduced self = depth_reduced p q).
  { unfold depth_pos_reduced. rewrite Etp, Edp. unfold time_full, depth_reduced.
    destruct (Nat.leb_spec q p);
      [destruct (Nat.ltb_spec (S p) q) | destruct (Nat.ltb_spec p q)]; lia. }
  unfold ndim in Hn.
  assert (L1 : length (remove_at q (shape (cross_section self))) = S m).
  { pose proof (@length_remove_at _ q (shape (cross_section self))). lia. }
  assert (L2 : length (space_shape self) = m).
  { unfold space_shape. rewrite Etr, Edp.
    pose proof (@length_remove_at _ p (remove_at q (shape (cross_section self)))).
    lia. }
  rewrite Edr, Etr, Edp, L2.
  repeat (split; [assumption || reflexivity|]).
  unfold n_depths, n_times, space_shape. rewrite Etr, Edp, Etp.
  replace (nth (time_full p q) (shape (cross_section self)) 0)
    with (nth p (remove_at q (shape (cross_section self))) 0).
  - rewrite insert_at_nth by lia. rewrite insert_at_nth by lia. reflexivity.
  - rewrite nth_remove_at. unfold time_full.
    destruct (Nat.leb_spec q p); destruct (Nat.ltb_spec p q); try lia;
      reflexivity.
Qed.

Lemma entry_reprF (a : ndarray) :
  shape a = shape (cross_section self) ->
  reprF (space_shape self) (time_pos_reduced self) (depth_pos self)
        (n_times self) (n_depths self) a (entry self a).
Proof.
  intros H. split; [|reflexivity].
  rewrite H. apply supported_self.
Qed.

End Supported.

(** Fields of shape [(T, S, D)] with the default axes: the layout of the
    test fixtures. *)
Lemma layout_default (self : SFD) (T S D : nat) :
  shape (cross_section self) = [T; S; D] ->
  time_axis self = 0%Z -> depth_axis self = (-1)%Z ->
  supported_axes (ndim self) (time_axis self) (depth_axis self) = true /\
  space_shape self = [S] /\ n_times self = T /\ n_depths self = D /\
  forall t x d, entry_index self t [x] d = [t; x; d].
Proof.
  intros Hs Ht Hd.
  unfold space_shape, entry_index, n_times, n_depths, time_pos_reduced,
    depth_pos, time_pos, ndim.
  rewrite Hs, Ht, Hd. repeat split.
Qed.

(** A reduction takes one axis away. *)
Lemma reduce_rank (g : list elt -> elt) (a r : ndarray) (axis : Z) :
  reduce g a axis = Ok r -> S (length (shape r)) = length (shape a).
Proof.
  unfold reduce. destruct (normalize_axis axis (length (shape a))) as [k|] eqn:E;
    [|discriminate].
  cbn [bind]. intros H. injection H as <-. cbn [shape tabulate].
  apply length_remove_at. now apply normalize_axis_lt with (axis := axis).
Qed.

Lemma avg_time_int_depth_rank (self : SFD) (v r : ndarray) :
  shape v <> [] -> avg_time_int_depth self v = Ok r ->
  length (shape r) < length (shape v).
Proof.
  intros Hv. unfold avg_time_int_depth, int_depth, avg_time.
  rewrite sum_reduce by exact Hv.
  destruct (reduce masked_sum v (depth_axis self)) as [w|] eqn:E; [|discriminate].
  apply reduce_rank in E. cbn [bind]. unfold ma.mean.
  destruct (shape w) as [|n sh] eqn:Ew.
  - destruct (_ && _); [|discriminate]. intros H. injection H as <-.
    rewrite Ew. simpl in *. lia.
  - intros H. apply reduce_rank in H. rewrite Ew in H. simpl in *. lia.
Qed.

(** ** The decomposition of the total transport *)

Lemma regular_masks_inv (self : SFD) (x : list nat) (t d : nat) :
  regular_masks self x = true -> t < n_times self -> d < n_depths self ->
  is_masked (entry self (cross_section self) t x d)
  = step_masked self x t || level_masked self x d /\
  (is_masked (entry self (flow self) t x d) = true ->
   is_masked (entry self (cross_section self) t x d) = true) /\
  (is_masked (entry self (salinity self) t x d) = true ->
   is_masked (entry self (cross_section self) t x d) = true).
Proof.
  unfold regular_masks. intros H Ht Hd.
  rewrite forallb_forall in H. specialize (H t).
  rewrite in_seq in H. specialize (H (conj (Nat.le_0_l t) Ht)).
  rewrite forallb_forall in H. specialize (H d).
  rewrite in_seq in H. specialize (H (conj (Nat.le_0_l d) Hd)).
  apply andb_prop in H as [H H3]. apply andb_prop in H as [H1 H2].
  apply eqb_prop in H1. split; [exact H1|].
  split; intros E; [rewrite E in H2 | rewrite E in H3]; assumption.
Qed.



(** *** The conditions of the decomposition

    Each condition is needed.  With one masked entry the masks are not
    regular.  With a masked entry in the flow velocity alone, or with both
    axes counted from the front (the depth axis is then not where
    [int_depth] looks for it once the time axis is gone), no denominator is
    zero and the fluxes do not add up to the total transport, or a flux
    raises. *)

Lemma elt_eqb_neq (x y : elt) : elt_eqb x y = false -> x <> y.
Proof.
  intros H E. subst y. destruct x as [q|]; simpl in H; [|discriminate].
  rewrite Qeq_bool_refl in H. discriminate.
Qed.

Lemma decomposition_differs_neq (self : SFD) (x : list nat) :
  decomposition_differs self x = true ->
  exists sum total, decomposition_at self x = Some (sum, total) /\ sum <> total.
Proof.
  unfold decomposition_differs.
  destruct (decomposition_at self x) as [[sum total]|]; [|discriminate].
  intros H. exists sum, total. split; [reflexivity|].
  apply elt_eqb_neq. now apply negb_true_iff.
Qed.

Lemma irregular_masks_fixture :
  supported_axes (ndim masked_self) (time_axis masked_self)
                 (depth_axis masked_self) = true /\
  denominators_nonzero_at masked_self [0] = true /\
  regular_masks masked_self [0] = false /\
  exists sum total,
    decomposition_at masked_self [0] = Some (sum, total) /\ sum <> total.
Proof.
  split; [reflexivity|]. split; [vm_compute; reflexivity|].
  split; [vm_compute; reflexivity|].
  apply decomposition_differs_neq. vm_compute. reflexivity.
Qed.

Lemma flow_masked_fixture :
  supported_axes (ndim flow_masked_self) (time_axis flow_masked_self)
                 (depth_axis flow_masked_self) = true /\
  denominators_nonzero_at flow_masked_self [0] = true /\
  regular_masks flow_masked_self [0] = false /\
  exists sum total,
    decomposition_at flow_masked_self [0] = Some (sum, total) /\ sum <> total.
Proof.
  split; [reflexivity|]. split; [vm_compute; reflexivity|].
  split; [vm_compute; reflexivity|].
  apply decomposition_differs_neq. vm_compute. reflexivity.
Qed.

Lemma front_axes_fixture :
  supported_axes (ndim front_axes_self) (time_axis front_axes_self)
                 (depth_axis front_axes_self) = false /\
  no_mask cube = true /\
  (exists sum total,
     decomposition_at front_axes_self [0] = Some (sum, total) /\ sum <> total) /\
  supported_axes (ndim front_axes_small_self) (time_axis front_axes_small_self)
                 (depth_axis front_axes_small_self) = false /\
  value (fluxes front_axes_small_self) = Raise (AxisError 2 2).
Proof.
  split; [reflexivity|]. split; [reflexivity|].
  split; [apply decomposition_differs_neq; vm_compute; reflexivity|].
  split; [reflexivity|]. vm_compute. reflexivity.
Qed.

(** ** The formula of [flux1] on any supported layout *)

(** C2.  On an instance whose fields have one shape, with supported axes
    and an empty slot, [flux1] returns the product
    [component1(flow) * component1(salinity) *
     avg_time_int_depth(cross_section)] itself: the three factors and the
    product have the shape of the space axes, the product is taken entry by
    entry, and no outer reduction is applied; with a space axis,
    [avg_time_int_depth] of this product is not the value of [flux1]. *)
Theorem flux1_formula (self : SFD) :
  shape (flow self) = shape (cross_section self) ->
  shape (salinity self) = shape (cross_section self) ->
  supported_axes (ndim self) (time_axis self) (depth_axis self) = true ->
  _flux0 self = None ->
  exists c1 c2 p a r self',
    component1 self (flow self) = Ok c1 /\
    component1 self (salinity self) = Ok c2 /\
    np.ma.multiply c1 c2 = Ok p /\
    avg_time_int_depth self (cross_section self) = Ok a /\
    np.ma.multiply p a = Ok r /\
    flux1 self = Ok (r, self') /\
    shape c1 = space_shape self /\ shape c2 = space_shape self /\
    shape a = space_shape self /\ shape r = space_shape self /\
    (forall x, in_range (space_shape self) x ->
       get r x = mmul (mmul (get c1 x) (get c2 x)) (get a x)) /\
    (space_shape self <> [] -> flux1_spec_formula self <> Ok r).
Proof.
  intros Hf Hs Hax H0.
  destruct (supported_self self Hax)
    as (Hp & Hq & N1 & N2 & N3 & N4 & Edr & Hsh).
  pose proof (entry_reprF self Hax (cross_section self) eq_refl) as HA.
  pose proof (entry_reprF self Hax (flow self) Hf) as HU.
  pose proof (entry_reprF self Hax (salinity self) Hs) as HS.
  destruct (flux1_full self Hp Hq N2 N3 HA HU HS)
    as (c1 & c2 & p & a & r & E1 & E2 & E3 & E4 & E5 & V1 &
        S1 & S2 & S3 & S4 & Hr & _).
  exists c1, c2, p, a, r, (set_flux0 (log_calc self r) r).
  repeat (split; [assumption|]).
  split; [now rewrite (flux1_miss self H0), V1|].
  repeat (split; [assumption|]).
  intros Hsp E. unfold flux1_spec_formula in E. rewrite V1 in E. cbn [bind] in E.
  apply avg_time_int_depth_rank in E; [lia|]. now rewrite S4.
Qed.

Lemma flux1_formula_witness :
  exists c1 c2 p a r self',
    component1 tidal_self (flow tidal_self) = Ok c1 /\
    component1 tidal_self (salinity tidal_self) = Ok c2 /\
    np.ma.multiply c1 c2 = Ok p /\
    avg_time_int_depth tidal_self (cross_section tidal_self) = Ok a /\
    np.ma.multiply p a = Ok r /\
    flux1 tidal_self = Ok (r, self') /\
    shape c1 = space_shape tidal_self /\ shape c2 = space_shape tidal_self /\
    shape a = space_shape tidal_self /\ shape r = space_shape tidal_self /\
    (forall x, in_range (space_shape tidal_self) x ->
       get r x = mmul (mmul (get c1 x) (get c2 x)) (get a x)) /\
    (space_shape tidal_self <> [] -> flux1_spec_formula tidal_self <> Ok r).
Proof. apply (@flux1_formula tidal_self); reflexivity. Defined.

(** * Further properties of the code *)

(** ** Shapes of the results, whatever the entries *)

(** A reduction followed by [np.expand_dims] with the same axis argument. *)
Lemma expand_reduce (g : list elt -> elt) (a : ndarray) (axis : Z) (k : nat) :
  normalize_axis axis (length (shape a)) = Ok k ->
  exists r e,
    reduce g a axis = Ok r /\ expand_dims r axis = Ok e /\
    shape e = firstn k (shape a) ++ 1 :: skipn (S k) (shape a) /\
    forall idx, in_range (shape e) idx -> get e idx = get r (remove_at k idx).
Proof.
  intros H. pose proof (normalize_axis_lt _ _ H) as Hk.
  destruct (reduce_shape g a axis H) as (r & Er & Hr).
  assert (H' : normalize_axis axis (S (length (shape r))) = Ok k)
    by (now rewrite Hr, length_remove_at).
  destruct (expand_dims_shape r axis H') as (e & Ee & He & Hd).
  exists r, e. split; [exact Er|]. split; [exact Ee|]. split.
  - rewrite He, Hr. now apply insert_remove_at.
  - intros idx Hi. unfold get. rewrite Hd, He. f_equal.
    rewrite He in Hi. apply ravel_insert_one; [|exact Hi].
    rewrite Hr. pose proof (@length_remove_at _ k (shape a) Hk). lia.
Qed.

(** X1.  For every choice of the axes that is in range for the variable,
    [expand_depth] after [int_depth] and [expand_time] after [avg_time]
    succeed and give back the shape of the variable with size 1 on the
    reduced axis; the entries are those of the reduced array, read without
    that axis. *)
Theorem expand_restores_axis (self : SFD) (v : ndarray) :
  (forall k, normalize_axis (depth_axis self) (length (shape v)) = Ok k ->
     exists r e,
       int_depth self v = Ok r /\ expand_depth self r = Ok e /\
       shape e = firstn k (shape v) ++ 1 :: skipn (S k) (shape v) /\
       forall idx, in_range (shape e) idx -> get e idx = get r (remove_at k idx)) /\
  (forall k, normalize_axis (time_axis self) (length (shape v)) = Ok k ->
     exists r e,
       avg_time self v = Ok r /\ expand_time self r = Ok e /\
       shape e = firstn k (shape v) ++ 1 :: skipn (S k) (shape v) /\
       forall idx, in_range (shape e) idx -> get e idx = get r (remove_at k idx)).
Proof.
  split; intros k H.
  - unfold int_depth. rewrite sum_reduce by apply (@normalize_axis_neq _ _ _ H).
    apply (expand_reduce masked_sum v (depth_axis self) H).
  - unfold avg_time. rewrite mean_reduce by apply (@normalize_axis_neq _ _ _ H).
    apply (expand_reduce masked_mean v (time_axis self) H).
Qed.

(** On the cube with the depth axis 0 and the time axis 1. *)
Lemma expand_restores_axis_witness :
  (exists r e,
     int_depth depth_first_self cube = Ok r /\
     expand_depth depth_first_self r = Ok e /\
     shape e = [1; 2; 2] /\
     forall idx, in_range (shape e) idx -> get e idx = get r (remove_at 0 idx)) /\
  (exists r e,
     avg_time depth_first_self cube = Ok r /\
     expand_time depth_first_self r = Ok e /\
     shape e = [2; 1; 2] /\
     forall idx, in_range (shape e) idx -> get e idx = get r (remove_at 1 idx)).
Proof.
  destruct (expand_restores_axis depth_first_self cube) as [Hd Ht].
  split; [apply (Hd 0) | apply (Ht 1)]; reflexivity.
Defined.

(** ** Fields with a single axis *)

Lemma component1_rank1 (self : SFD) (v : ndarray) (n i : nat) :
  time_axis self = 0%Z -> depth_axis self = (-1)%Z ->
  shape v = [n] -> shape (cross_section self) = [n] ->
  i < n -> get v [i] <> None -> get (cross_section self) [i] <> None ->
  component1 self v = Raise (AxisError 0 0).
Proof.
  intros Ht Hd Hv Hc Hi Nv Nc. unfold component1, _component.
  destruct (bc1 (masked_binop Qcmult) (repr1_self v Hv)
              (repr1_self (cross_section self) Hc)) as (p & Ep & Hp & Gp).
  unfold ma.multiply. rewrite Ep. cbn [bind].
  unfold avg_time_int_depth at 1, int_depth.
  rewrite sum_reduce by (now rewrite Hp). rewrite Hd.
  rewrite (@reduce_ok masked_sum p (-1)%Z 0) by (now rewrite Hp).
  cbn [bind]. unfold avg_time, ma.mean. rewrite Ht, Hp.
  cbn [remove_at nth tabulate shape data indices map insert_at forallb].
  rewrite (@masked_sum_not_masked _ (fun j => get p [j]) (seq 0 n) i).
  - reflexivity.
  - apply in_seq. lia.
  - rewrite (Gp i Hi). destruct (get v [i]); [|now elim Nv].
    destruct (get (cross_section self) [i]); [discriminate | now elim Nc].
Qed.

(** X2.  Fields with a single axis pass the check of the constructor.  When
    the flow velocity and the areas have an entry that is masked in neither,
    every flux then raises [AxisError] with the default axes: the sum over
    the only axis, taken as the depth, is a number, and no axis is left for
    the time. *)
Theorem fluxes_rank1 (fl sa cs : ndarray) (n i : nat) :
  shape fl = [n] -> shape sa = [n] -> shape cs = [n] ->
  i < n -> get fl [i] <> None -> get cs [i] <> None ->
  exists self,
    __init__ fl sa cs [] = Ok self /\
    flux1 self = Raise (AxisError 0 0) /\
    flux2 self = Raise (AxisError 0 0) /\
    flux3 self = Raise (AxisError 0 0) /\
    flux4 self = Raise (AxisError 0 0) /\
    fluxes self = Raise (AxisError 0 0).
Proof.
  intros Hf Hs Hc Hi Nf Nc. rewrite init_ok by congruence.
  eexists. split; [reflexivity|]. cbn [kwargs_get].
  set (self := mkSFD fl sa cs 0%Z (-1)%Z None None None None []).
  assert (E : component1 self fl = Raise (AxisError 0 0))
    by (now apply (@component1_rank1 self fl n i)).
  assert (F1 : flux1 self = Raise (AxisError 0 0)).
  { unfold flux1, _calc_flux. cbn [_flux0 self flow]. now rewrite E. }
  split; [exact F1|]. split; [|split; [|split]].
  - unfold flux2, _calc_flux, component2. cbn [_flux1 self flow]. now rewrite E.
  - unfold flux3, _calc_flux, component3, component_. cbn [_flux3 self flow negb].
    now rewrite E.
  - unfold flux4, _calc_flux, component4, component_. cbn [_flux4 self flow negb].
    now rewrite E.
  - unfold fluxes. now rewrite F1.
Qed.

Lemma fluxes_rank1_witness :
  exists self,
    __init__ (np.full [4] 1%Qc) (np.full [4] (of_nat 30)) (np.full [4] 1%Qc) []
      = Ok self /\
    flux1 self = Raise (AxisError 0 0) /\
    flux2 self = Raise (AxisError 0 0) /\
    flux3 self = Raise (AxisError 0 0) /\
    flux4 self = Raise (AxisError 0 0) /\
    fluxes self = Raise (AxisError 0 0).
Proof.
  apply (@fluxes_rank1 (np.full [4] 1%Qc) (np.full [4] (of_nat 30))
           (np.full [4] 1%Qc) 4 0); try reflexivity; try lia;
    rewrite get_full by (apply in_range_1; lia); discriminate.
Defined.

(** ** A space dimension of any rank *)

(** Shape [n :: l] against shape [1 :: l]. *)
Lemma broadcast_shapes_first1 (n : nat) (l : list nat) :
  broadcast_shapes (n :: l) (1 :: l) = Ok (n :: l).
Proof.
  unfold broadcast_shapes. cbn [rev]. rewrite broadcast_rev_app.
  cbn [broadcast_rev]. rewrite broadcast_dim_one_r. cbn [bind].
  now rewrite rev_app_distr, rev_involutive.
Qed.

(** Shape [l ++ [n]] against shape [l ++ [1]]. *)
Lemma broadcast_shapes_last1 (n : nat) (l : list nat) :
  broadcast_shapes (l ++ [n]) (l ++ [1]) = Ok (l ++ [n]).
Proof.
  unfold broadcast_shapes. rewrite !rev_app_distr. cbn [rev app broadcast_rev].
  rewrite broadcast_dim_one_r, broadcast_rev_same. cbn [bind rev].
  now rewrite rev_involutive.
Qed.

Lemma reduce_last_shape (g : list elt -> elt) (a : ndarray) (l : list nat) (n : nat) :
  shape a = l ++ [n] ->
  exists r, reduce g a (-1) = Ok r /\ shape r = l.
Proof.
  intros H. destruct (@reduce_shape g a (-1)%Z (length l)) as (r & Er & Hr).
  { rewrite H, length_app, Nat.add_1_r. apply normalize_axis_last. }
  exists r. split; [exact Er|]. rewrite Hr, H. apply remove_at_last.
Qed.

Lemma reduce_first_shape (g : list elt -> elt) (a : ndarray) (l : list nat) (n : nat) :
  shape a = n :: l ->
  exists r, reduce g a 0 = Ok r /\ shape r = l.
Proof.
  intros H. destruct (@reduce_shape g a 0%Z 0) as (r & Er & Hr).
  { rewrite H. apply normalize_axis_first. }
  exists r. split; [exact Er|]. now rewrite Hr, H.
Qed.

Lemma expand_first_shape (a : ndarray) (l : list nat) :
  shape a = l -> exists r, expand_dims a 0 = Ok r /\ shape r = 1 :: l.
Proof.
  intros H. destruct (@expand_dims_shape a 0%Z 0) as (r & Er & Hr & _).
  { apply normalize_axis_first. }
  exists r. split; [exact Er|]. rewrite Hr, H. now destruct l.
Qed.

Lemma expand_last_shape (a : ndarray) (l : list nat) :
  shape a = l -> exists r, expand_dims a (-1) = Ok r /\ shape r = l ++ [1].
Proof.
  intros H. destruct (@expand_dims_shape a (-1)%Z (length l)) as (r & Er & Hr & _).
  { rewrite H. apply normalize_axis_last. }
  exists r. split; [exact Er|]. rewrite Hr, H. apply insert_at_last.
Qed.

Lemma broadcast_same (f : elt -> elt -> elt) (a b : ndarray) (l : list nat) :
  shape a = l -> shape b = l ->
  exists r, broadcast f a b = Ok r /\ shape r = l.
Proof.
  intros Ha Hb. apply broadcast_shape. rewrite Ha, Hb.
  apply broadcast_shapes_same.
Qed.

Lemma broadcast_first1 (f : elt -> elt -> elt) (a b : ndarray) (n : nat)
    (l : list nat) :
  shape a = n :: l -> shape b = 1 :: l ->
  exists r, broadcast f a b = Ok r /\ shape r = n :: l.
Proof.
  intros Ha Hb. apply broadcast_shape. rewrite Ha, Hb.
  apply broadcast_shapes_first1.
Qed.

Lemma broadcast_last1 (f : elt -> elt -> elt) (a b : ndarray) (n : nat)
    (l : list nat) :
  shape a = l ++ [n] -> shape b = l ++ [1] ->
  exists r, broadcast f a b = Ok r /\ shape r = l ++ [n].
Proof.
  intros Ha Hb. apply broadcast_shape. rewrite Ha, Hb.
  apply broadcast_shapes_last1.
Qed.

Section SpaceShape.

Variables T D : nat.
Variable sp : list nat.
Variable self : SFD.

Hypothesis Htime : time_axis self = 0%Z.
Hypothesis Hdepth : depth_axis self = (-1)%Z.
Hypothesis Harea : shape (cross_section self) = (T :: sp) ++ [D].

Lemma int_depth_full (v : ndarray) :
  shape v = (T :: sp) ++ [D] ->
  exists r, int_depth self v = Ok r /\ shape r = T :: sp.
Proof.
  intros Hv. unfold int_depth. rewrite sum_reduce by (now rewrite Hv).
  rewrite Hdepth. now apply reduce_last_shape with (n := D).
Qed.

Lemma int_depth_space (v : ndarray) :
  shape v = sp ++ [D] -> exists r, int_depth self v = Ok r /\ shape r = sp.
Proof.
  intros Hv. unfold int_depth.
  rewrite sum_reduce by (rewrite Hv; apply not_eq_sym, app_cons_not_nil).
  rewrite Hdepth. now apply reduce_last_shape with (n := D).
Qed.

Lemma avg_time_full (v : ndarray) :
  shape v = (T :: sp) ++ [D] ->
  exists r, avg_time self v = Ok r /\ shape r = sp ++ [D].
Proof.
  intros Hv. unfold avg_time. rewrite mean_reduce by (now rewrite Hv).
  rewrite Htime. now apply reduce_first_shape with (n := T).
Qed.

Lemma avg_time_space (v : ndarray) :
  shape v = T :: sp -> exists r, avg_time self v = Ok r /\ shape r = sp.
Proof.
  intros Hv. unfold avg_time. rewrite mean_reduce by (now rewrite Hv).
  rewrite Htime. now apply reduce_first_shape with (n := T).
Qed.

Lemma avg_time_int_depth_full (v : ndarray) :
  shape v = (T :: sp) ++ [D] ->
  exists r, avg_time_int_depth self v = Ok r /\ shape r = sp.
Proof.
  intros Hv. unfold avg_time_int_depth.
  step (int_depth_full v Hv). now apply avg_time_space.
Qed.

Lemma times_area_full (v : ndarray) :
  shape v = (T :: sp) ++ [D] ->
  exists r, np.ma.multiply v (cross_section self) = Ok r /\
            shape r = (T :: sp) ++ [D].
Proof. intros Hv. now apply broadcast_same. Qed.

Lemma component1_shape (v : ndarray) :
  shape v = (T :: sp) ++ [D] ->
  exists r, component1 self v = Ok r /\ shape r = sp.
Proof.
  intros Hv. unfold component1, _component.
  step (times_area_full v Hv).
  step (avg_time_int_depth_full r H).
  step (avg_time_int_depth_full (cross_section self) Harea).
  now apply broadcast_same.
Qed.

(** The part of [component2] that follows component 1. *)
Lemma component2_rest_shape (v c1 : ndarray) :
  shape v = (T :: sp) ++ [D] -> shape c1 = sp ->
  exists r, component2 self v (Some c1) = Ok r /\ shape r = T :: sp.
Proof.
  intros Hv Hc. unfold component2, _component. cbn [bind].
  step (times_area_full v Hv).
  step (int_depth_full r H).
  step (int_depth_full (cross_section self) Harea).
  step (broadcast_same masked_div r0 r1 H0 H1).
  unfold expand_time. rewrite Htime.
  step (expand_first_shape c1 Hc).
  now apply broadcast_first1.
Qed.

Lemma component2_shape (v : ndarray) :
  shape v = (T :: sp) ++ [D] ->
  exists r, component2 self v None = Ok r /\ shape r = T :: sp.
Proof.
  intros Hv. unfold component2.
  step (component1_shape v Hv).
  apply (component2_rest_shape v r Hv H).
Qed.

Lemma component__shape (v : ndarray) :
  shape v = (T :: sp) ++ [D] ->
  exists r, component_ self v None None = Ok r /\ shape r = (T :: sp) ++ [D].
Proof.
  intros Hv. unfold component_.
  step (component1_shape v Hv).
  step (component2_rest_shape v r Hv H).
  unfold expand_time. rewrite Htime.
  step (expand_first_shape r H).
  step (broadcast_first1 (masked_binop Qcplus) r0 r1 H0 H1).
  unfold expand_depth. rewrite Hdepth.
  step (expand_last_shape r2 H2).
  now apply broadcast_last1.
Qed.

(** The part of [component3] that follows the intermediate component. *)
Lemma component3_rest_shape (w : ndarray) :
  shape w = (T :: sp) ++ [D] ->
  exists r, component3 self w true = Ok r /\ shape r = sp ++ [D].
Proof.
  intros Hw. unfold component3, _component. cbn [negb bind].
  step (times_area_full w Hw).
  step (avg_time_full r H).
  step (avg_time_full (cross_section self) Harea).
  now apply broadcast_same.
Qed.

Lemma component3_shape (v : ndarray) :
  shape v = (T :: sp) ++ [D] ->
  exists r, component3 self v false = Ok r /\ shape r = sp ++ [D].
Proof.
  intros Hv. unfold component3. cbn [negb].
  step (component__shape v Hv).
  apply (component3_rest_shape r H).
Qed.

Lemma component4_shape (v : ndarray) :
  shape v = (T :: sp) ++ [D] ->
  exists r, component4 self v false None = Ok r /\ shape r = (T :: sp) ++ [D].
Proof.
  intros Hv. unfold component4. cbn [negb].
  step (component__shape v Hv).
  step (component3_rest_shape r H).
  unfold expand_time. rewrite Htime.
  step (expand_first_shape r0 H0).
  apply (broadcast_first1 (masked_binop Qcminus) r r1 (l := sp ++ [D]) H H1).
Qed.

Hypothesis Hflow : shape (flow self) = (T :: sp) ++ [D].
Hypothesis Hsalinity : shape (salinity self) = (T :: sp) ++ [D].

Lemma flux1_value_shape :
  exists r, flux1_value self = Ok r /\ shape r = sp.
Proof.
  unfold flux1_value, flux1_product. rewrite calc_flux_value.
  step (component1_shape (flow self) Hflow).
  step (component1_shape (salinity self) Hsalinity).
  step (broadcast_same (masked_binop Qcmult) r r0 H H0).
  step (avg_time_int_depth_full (cross_section self) Harea).
  now apply broadcast_same.
Qed.

Lemma flux2_value_shape :
  exists r, flux2_value self = Ok r /\ shape r = sp.
Proof.
  unfold flux2_value, flux2_product. rewrite calc_flux_value.
  step (component2_shape (flow self) Hflow).
  step (component2_shape (salinity self) Hsalinity).
  step (broadcast_same (masked_binop Qcmult) r r0 H H0).
  step (int_depth_full (cross_section self) Harea).
  step (broadcast_same (masked_binop Qcmult) r1 r2 H1 H2).
  now apply avg_time_space.
Qed.

Lemma flux3_value_shape :
  exists r, flux3_value self = Ok r /\ shape r = sp.
Proof.
  unfold flux3_value, flux3_product. rewrite calc_flux_value.
  step (component3_shape (flow self) Hflow).
  step (component3_shape (salinity self) Hsalinity).
  step (broadcast_same (masked_binop Qcmult) r r0 H H0).
  step (avg_time_full (cross_section self) Harea).
  step (broadcast_same (masked_binop Qcmult) r1 r2 H1 H2).
  now apply int_depth_space.
Qed.

Lemma flux4_value_shape :
  exists r, flux4_value self = Ok r /\ shape r = sp.
Proof.
  unfold flux4_value, flux4_product. rewrite calc_flux_value.
  step (component4_shape (flow self) Hflow).
  step (component4_shape (salinity self) Hsalinity).
  step (broadcast_same (masked_binop Qcmult) r r0 H H0).
  step (broadcast_same (masked_binop Qcmult) r1 (cross_section self) H1 Harea).
  now apply avg_time_int_depth_full.
Qed.

End SpaceShape.

(** X3.  The space dimension may have any rank: for fields of shape
    [(T, *space, D)] with the same [space], whatever its number of axes, and
    the default axes, construction succeeds and each of the four fluxes is
    computed and has the shape [space]. *)
Theorem fluxes_space_shape (fl sa cs : ndarray) (T D : nat) (sp : list nat) :
  shape fl = T :: sp ++ [D] -> shape sa = T :: sp ++ [D] ->
  shape cs = T :: sp ++ [D] ->
  exists self f1 f2 f3 f4 self',
    __init__ fl sa cs [] = Ok self /\
    fluxes self = Ok ((f1, f2, f3, f4), self') /\
    shape f1 = sp /\ shape f2 = sp /\ shape f3 = sp /\ shape f4 = sp.
Proof.
  intros Hf Hs Hc. rewrite init_ok by congruence. cbn [kwargs_get].
  set (self := mkSFD fl sa cs 0%Z (-1)%Z None None None None []).
  assert (Ht : time_axis self = 0%Z) by reflexivity.
  assert (Hd : depth_axis self = (-1)%Z) by reflexivity.
  destruct (@flux1_value_shape T D sp self Ht Hd Hc Hf Hs) as (f1 & E1 & S1).
  destruct (@flux2_value_shape T D sp self Ht Hd Hc Hf Hs) as (f2 & E2 & S2).
  destruct (@flux3_value_shape T D sp self Ht Hd Hc Hf Hs) as (f3 & E3 & S3).
  destruct (@flux4_value_shape T D sp self Ht Hd Hc Hf Hs) as (f4 & E4 & S4).
  destruct (@fluxes_fresh_ok self f1 f2 f3 f4 eq_refl eq_refl eq_refl eq_refl
              E1 E2 E3 E4) as (self' & Hfl).
  exists self, f1, f2, f3, f4, self'.
  split; [reflexivity|]. split; [exact Hfl|].
  repeat split; assumption.
Qed.

(** ** The entries of the components and of the fluxes at a place *)

Lemma denominators_den (self : SFD) (T S D x : nat)
    (A : nat -> nat -> nat -> elt) :
  time_axis self = 0%Z -> depth_axis self = (-1)%Z ->
  repr3 (cross_section self) T S D A -> x < S ->
  denominators_nonzero self T D x = true ->
  mean_sum T D A x <> Some 0%Qc /\
  (forall t, t < T -> sum_depth D A t x <> Some 0%Qc) /\
  (forall d, d < D -> mean_time T A x d <> Some 0%Qc).
Proof.
  intros Ht Hd HA Hx Hden. unfold denominators_nonzero in Hden.
  apply andb_prop in Hden as [Hden H3]. apply andb_prop in Hden as [H1 H2].
  rewrite forallb_forall in H2, H3.
  destruct (avg_time_int_depth_3 self Ht Hd HA) as (a1 & Ea1 & Ra1).
  destruct (int_depth_3 self Hd HA) as (a2 & Ea2 & Ra2).
  destruct (avg_time_3 self Ht HA) as (a3 & Ea3 & Ra3).
  rewrite Ea1 in H1. rewrite Ea2 in H2. rewrite Ea3 in H3.
  split; [|split].
  - rewrite <- (proj2 Ra1 x Hx). now apply nonzero_at_neq.
  - intros t Ht'. rewrite <- (proj2 Ra2 t x Ht' Hx).
    apply nonzero_at_neq, H2, in_seq. lia.
  - intros d Hd'. rewrite <- (proj2 Ra3 x d Hx Hd').
    apply nonzero_at_neq, H3, in_seq. lia.
Qed.

Lemma denominators_pure (T D x : nat) (A : nat -> nat -> nat -> elt)
    (a : nat -> nat -> Qc) :
  (forall t d, A t x d = Some (a t d)) -> T <> 0 ->
  mean_sum T D A x <> Some 0%Qc ->
  (forall t, t < T -> sum_depth D A t x <> Some 0%Qc) ->
  (forall d, d < D -> mean_time T A x d <> Some 0%Qc) ->
  of_nat T <> 0%Qc /\ area T D a <> 0%Qc /\
  (forall t, t < T -> area_t D a t <> 0%Qc) /\
  (forall d, d < D -> area_d T a d <> 0%Qc).
Proof.
  intros HA HT H1 H2 H3. split; [now apply of_nat_neq0|]. split; [|split].
  - apply Qcdiv_neq0_l with (q := of_nat T). now apply (@den1_neq0 T D x A a).
  - intros t Ht. now apply (@den2_neq0 T D x A a).
  - intros d Hd. apply Qcdiv_neq0_l with (q := of_nat T).
    now apply (@den3_neq0 T D x A a).
Qed.

(** The fluxes of a fresh instance on fields without masked entries: at a
    place where no denominator is zero, each flux is the rational given by
    the formulas of the decomposition. *)
Lemma fluxes_eval (fl sa cs : ndarray) (T S D : nat) :
  shape fl = [T; S; D] -> shape sa = [T; S; D] -> shape cs = [T; S; D] ->
  valid fl = true -> valid sa = true -> valid cs = true ->
  no_mask fl = true -> no_mask sa = true -> no_mask cs = true ->
  exists self f1 f2 f3 f4 self',
    __init__ fl sa cs [] = Ok self /\
    fluxes self = Ok ((f1, f2, f3, f4), self') /\
    forall x, x < S -> T <> 0 -> denominators_nonzero self T D x = true ->
      (of_nat T <> 0%Qc /\
       area T D (fun t d => filled (get cs [t; x; d])) <> 0%Qc /\
       (forall t, t < T ->
          area_t D (fun t d => filled (get cs [t; x; d])) t <> 0%Qc) /\
       (forall d, d < D ->
          area_d T (fun t d => filled (get cs [t; x; d])) d <> 0%Qc)) /\
      get f1 [x] = Some (q_flux1 T D (fun t d => filled (get cs [t; x; d]))
                           (fun t d => filled (get fl [t; x; d]))
                           (fun t d => filled (get sa [t; x; d]))) /\
      get f2 [x] = Some (q_flux2 T D (fun t d => filled (get cs [t; x; d]))
                           (fun t d => filled (get fl [t; x; d]))
                           (fun t d => filled (get sa [t; x; d]))) /\
      get f3 [x] = Some (q_flux3 T D (fun t d => filled (get cs [t; x; d]))
                           (fun t d => filled (get fl [t; x; d]))
                           (fun t d => filled (get sa [t; x; d]))) /\
      get f4 [x] = Some (q_flux4 T D (fun t d => filled (get cs [t; x; d]))
                           (fun t d => filled (get fl [t; x; d]))
                           (fun t d => filled (get sa [t; x; d]))).
Proof.
  intros Hf Hs Hc Vf Vs Vc Mf Ms Mc.
  pose proof (repr3_filled fl Hf Vf Mf) as HU.
  pose proof (repr3_filled sa Hs Vs Ms) as HS.
  pose proof (repr3_filled cs Hc Vc Mc) as HA.
  destruct (fluxes_repr HU HS HA)
    as (self & f1 & f2 & f3 & f4 & self' & tot & Hinit & Hfl & _ &
        _ & _ & _ & _ & R1 & R2 & R3 & R4 & _).
  exists self, f1, f2, f3, f4, self'.
  split; [assumption|]. split; [assumption|].
  intros x Hx HT Hden.
  rewrite init_ok in Hinit by congruence. injection Hinit as <-.
  destruct (@denominators_den
              (mkSFD fl sa cs 0%Z (-1)%Z None None None None [])
              T S D x _ eq_refl eq_refl HA Hx Hden)
    as (H1 & H2 & H3).
  split.
  { apply (@denominators_pure T D x
             (fun t x d => Some (filled (get cs [t; x; d]))));
      trivial. }
  rewrite (proj2 R1 x Hx), (proj2 R2 x Hx), (proj2 R3 x Hx), (proj2 R4 x Hx).
  repeat split.
  - now apply eval_flux1.
  - now apply eval_flux2.
  - now apply eval_flux3.
  - now apply eval_flux4.
Qed.

(** ** Fields that do not vary *)

Section Invariance.

Local Open Scope Qc_scope.

Lemma Qcmult_cancel (p q w : Qc) : w <> 0 -> p * w = q * w -> p = q.
Proof.
  intros Hw H.
  assert (E : forall r, r = r * w / w) by (intros r; field; exact Hw).
  rewrite (E p), (E q). now rewrite H.
Qed.

Lemma qsum_map_all_zero (X : Type) (f : X -> Qc) (l : list X) :
  (forall i, In i l -> f i = 0) -> qsum (map f l) = 0.
Proof.
  intros H. rewrite (@qsum_map_ext_in _ f (fun _ => 0) l H).
  apply qsum_map_zero.
Qed.

Lemma qsum_map_scal_l (X : Type) (c : Qc) (f : X -> Qc) (l : list X) :
  qsum (map (fun i => c * f i) l) = c * qsum (map f l).
Proof. induction l as [|i l IH]; simpl; [ring|]. rewrite IH. ring. Qed.

Variables T D : nat.
Variables a u : nat -> nat -> Qc.

Hypothesis HT : of_nat T <> 0.
Hypothesis Harea : area T D a <> 0.
Hypothesis Harea_t : forall t, (t < T)%nat -> area_t D a t <> 0.
Hypothesis Harea_d : forall d, (d < D)%nat -> area_d T a d <> 0.

Lemma q_comp2_bar (t : nat) : q_comp2 T D a u t = q_bar D a u t - q_comp1 T D a u.
Proof. reflexivity. Qed.

(** When the depth mean is the same [b] at every time, component 1 is [b]
    and component 2 vanishes. *)
Lemma q_bar_constant (b : Qc) :
  (forall t, (t < T)%nat -> q_bar D a u t = b) ->
  q_comp1 T D a u = b /\ forall t, (t < T)%nat -> q_comp2 T D a u t = 0.
Proof.
  intros Hb.
  assert (E : q_comp1 T D a u = b).
  { apply Qcmult_cancel with (w := area T D a); [exact Harea|].
    rewrite (@q_comp1_area T D a HT Harea Harea_t u). unfold area, sumT.
    rewrite <- qsum_map_scal_l. apply qsum_map_ext_in.
    intros t Ht. apply in_seq in Ht. rewrite Hb by lia. reflexivity. }
  split; [exact E|].
  intros t Ht. rewrite q_comp2_bar, E, Hb by assumption. ring.
Qed.

(** When the remainder at a depth is the same [r] at every time, component 3
    is [r] and component 4 vanishes. *)
Lemma q_remainder_constant (d : nat) (r : Qc) :
  (d < D)%nat ->
  (forall t, (t < T)%nat -> q_comp_ T D a u t d = r) ->
  q_comp3 T D a u d = r /\ forall t, (t < T)%nat -> q_comp4 T D a u t d = 0.
Proof.
  intros Hd Hr.
  assert (E : q_comp3 T D a u d = r).
  { apply Qcmult_cancel with (w := area_d T a d); [now apply Harea_d|].
    rewrite (@q_comp3_area T D a HT Harea_d u d Hd). unfold area_d, sumT.
    rewrite <- qsum_map_scal_l. apply qsum_map_ext_in.
    intros t Ht. apply in_seq in Ht. rewrite Hr by lia. reflexivity. }
  split; [exact E|].
  intros t Ht. unfold q_comp4. rewrite E, Hr by assumption. ring.
Qed.

(** A variable with the same value [c] at every time and depth. *)
Lemma q_constant (c : Qc) :
  (forall t d, (t < T)%nat -> (d < D)%nat -> u t d = c) ->
  (forall t, (t < T)%nat -> q_comp2 T D a u t = 0) /\
  (forall d, (d < D)%nat -> q_comp3 T D a u d = 0) /\
  (forall t d, (t < T)%nat -> (d < D)%nat -> q_comp4 T D a u t d = 0).
Proof.
  intros Hu.
  assert (Hbar : forall t, (t < T)%nat -> q_bar D a u t = c).
  { intros t Ht. apply Qcmult_cancel with (w := area_t D a t);
      [now apply Harea_t|].
    rewrite (@q_bar_area T D a Harea_t u t Ht). unfold area_t, sumD.
    rewrite <- qsum_map_scal_l. apply qsum_map_ext_in.
    intros d Hd. apply in_seq in Hd. rewrite Hu by lia. reflexivity. }
  destruct (q_bar_constant Hbar) as [_ H2].
  assert (Hrem : forall t d, (t < T)%nat -> (d < D)%nat ->
                             q_comp_ T D a u t d = 0).
  { intros t d Ht Hd. rewrite q_comp__bar, Hu, Hbar by assumption. ring. }
  split; [exact H2|]. split.
  - intros d Hd.
    apply (q_remainder_constant Hd (fun t Ht => Hrem t d Ht Hd)).
  - intros t d Ht Hd.
    apply (q_remainder_constant Hd (fun t Ht => Hrem t d Ht Hd)). exact Ht.
Qed.

(** A variable and areas that are the same at every time. *)
Lemma q_steady (u0 a0 : nat -> Qc) :
  (forall t d, (t < T)%nat -> (d < D)%nat -> u t d = u0 d) ->
  (forall t d, (t < T)%nat -> (d < D)%nat -> a t d = a0 d) ->
  (forall t, (t < T)%nat -> q_comp2 T D a u t = 0) /\
  (forall t d, (t < T)%nat -> (d < D)%nat -> q_comp4 T D a u t d = 0).
Proof.
  intros Hu Ha.
  set (b := sumD D (fun d => u0 d * a0 d) / sumD D a0).
  assert (Hbar : forall t, (t < T)%nat -> q_bar D a u t = b).
  { intros t Ht. unfold q_bar, area_t, b. f_equal; unfold sumD.
    - apply qsum_map_ext_in. intros d Hd. apply in_seq in Hd.
      rewrite Hu, Ha by lia. reflexivity.
    - apply qsum_map_ext_in. intros d Hd. apply in_seq in Hd.
      rewrite Ha by lia. reflexivity. }
  destruct (q_bar_constant Hbar) as [_ H2].
  split; [exact H2|].
  intros t d Ht Hd.
  apply (@q_remainder_constant d (u0 d - b) Hd); [|exact Ht].
  intros t' Ht'. rewrite q_comp__bar, Hu, Hbar by assumption. reflexivity.
Qed.

End Invariance.

Lemma qsum_all_zero_div (X : Type) (f : X -> Qc) (l : list X) (n : Qc) :
  (forall i, In i l -> f i = 0%Qc) -> (qsum (map f l) / n)%Qc = 0%Qc.
Proof. intros H. rewrite (qsum_map_all_zero f l H). unfold Qcdiv. ring. Qed.

(** X4.  On fields of shape [(T, S, D)] without masked entries and with the
    default axes, at a place where no denominator is zero and the flow
    velocity has one value at every time and depth, [flux2], [flux3] and
    [flux4] are zero, whatever the salinity and the areas. *)
Theorem fluxes_constant_flow (fl sa cs : ndarray) (T S D : nat) :
  shape fl = [T; S; D] -> shape sa = [T; S; D] -> shape cs = [T; S; D] ->
  valid fl = true -> valid sa = true -> valid cs = true ->
  no_mask fl = true -> no_mask sa = true -> no_mask cs = true ->
  exists self f1 f2 f3 f4 self',
    __init__ fl sa cs [] = Ok self /\
    fluxes self = Ok ((f1, f2, f3, f4), self') /\
    forall x c, x < S -> T <> 0 -> denominators_nonzero self T D x = true ->
      (forall t d, t < T -> d < D -> get fl [t; x; d] = Some c) ->
      get f2 [x] = Some 0%Qc /\ get f3 [x] = Some 0%Qc /\ get f4 [x] = Some 0%Qc.
Proof.
  intros Hf Hs Hc Vf Vs Vc Mf Ms Mc.
  destruct (@fluxes_eval fl sa cs T S D Hf Hs Hc Vf Vs Vc Mf Ms Mc)
    as (self & f1 & f2 & f3 & f4 & self' & Hinit & Hfl & Hev).
  exists self, f1, f2, f3, f4, self'.
  split; [assumption|]. split; [assumption|].
  intros x c Hx HT Hden Hu.
  destruct (Hev x Hx HT Hden) as ((Hn & Ha & Hat & Had) & _ & E2 & E3 & E4).
  destruct (@q_constant T D (fun t d => filled (get cs [t; x; d]))
              (fun t d => filled (get fl [t; x; d])) Hn Ha Hat Had c)
    as (C2 & C3 & C4).
  { intros t d Ht Hd. now rewrite (Hu t d Ht Hd). }
  rewrite E2, E3, E4. repeat split; f_equal.
  - unfold q_flux2, sumT. apply qsum_all_zero_div.
    intros t Ht. apply in_seq in Ht. rewrite C2 by lia. ring.
  - unfold q_flux3, sumD. apply qsum_map_all_zero.
    intros d Hd. apply in_seq in Hd. rewrite C3 by lia. ring.
  - unfold q_flux4, sumT. apply qsum_all_zero_div.
    intros t Ht. apply in_seq in Ht. unfold sumD. apply qsum_map_all_zero.
    intros d Hd. apply in_seq in Hd. rewrite C4 by lia. ring.
Qed.

Ltac index_cases t d :=
  destruct t as [|[|t]]; destruct d as [|[|d]]; try lia; reflexivity.

Lemma fluxes_constant_flow_witness :
  exists self f1 f2 f3 f4 self',
    __init__ constant_flow small_salinity small_cross_section [] = Ok self /\
    fluxes self = Ok ((f1, f2, f3, f4), self') /\
    get f2 [0] = Some 0%Qc /\ get f3 [0] = Some 0%Qc /\ get f4 [0] = Some 0%Qc.
Proof.
  destruct (@fluxes_constant_flow constant_flow small_salinity
              small_cross_section 2 1 2)
    as (self & f1 & f2 & f3 & f4 & self' & Hi & Hfl & H); try reflexivity.
  exists self, f1, f2, f3, f4, self'.
  split; [exact Hi|]. split; [exact Hfl|].
  apply (H 0 (of_nat 3)); [lia | lia | | ].
  - rewrite init_ok in Hi by reflexivity. injection Hi as <-.
    vm_compute. reflexivity.
  - intros t d Ht Hd. index_cases t d.
Defined.

(** X5.  On fields of shape [(T, S, D)] without masked entries and with the
    default axes, at a place where no denominator is zero and neither the
    flow velocity nor the areas vary in time, [flux2] and [flux4] are zero,
    whatever the salinity. *)
Theorem fluxes_steady_flow (fl sa cs : ndarray) (T S D : nat) :
  shape fl = [T; S; D] -> shape sa = [T; S; D] -> shape cs = [T; S; D] ->
  valid fl = true -> valid sa = true -> valid cs = true ->
  no_mask fl = true -> no_mask sa = true -> no_mask cs = true ->
  exists self f1 f2 f3 f4 self',
    __init__ fl sa cs [] = Ok self /\
    fluxes self = Ok ((f1, f2, f3, f4), self') /\
    forall x, x < S -> T <> 0 -> denominators_nonzero self T D x = true ->
      (forall t d, t < T -> d < D -> get fl [t; x; d] = get fl [0; x; d]) ->
      (forall t d, t < T -> d < D -> get cs [t; x; d] = get cs [0; x; d]) ->
      get f2 [x] = Some 0%Qc /\ get f4 [x] = Some 0%Qc.
Proof.
  intros Hf Hs Hc Vf Vs Vc Mf Ms Mc.
  destruct (@fluxes_eval fl sa cs T S D Hf Hs Hc Vf Vs Vc Mf Ms Mc)
    as (self & f1 & f2 & f3 & f4 & self' & Hinit & Hfl & Hev).
  exists self, f1, f2, f3, f4, self'.
  split; [assumption|]. split; [assumption|].
  intros x Hx HT Hden Hu Ha'.
  destruct (Hev x Hx HT Hden) as ((Hn & Ha & Hat & Had) & _ & E2 & _ & E4).
  destruct (@q_steady T D (fun t d => filled (get cs [t; x; d]))
              (fun t d => filled (get fl [t; x; d])) Hn Ha Hat Had
              (fun d => filled (get fl [0; x; d]))
              (fun d => filled (get cs [0; x; d])))
    as (C2 & C4).
  { intros t d Ht Hd. now rewrite (Hu t d Ht Hd). }
  { intros t d Ht Hd. now rewrite (Ha' t d Ht Hd). }
  rewrite E2, E4. split; f_equal.
  - unfold q_flux2, sumT. apply qsum_all_zero_div.
    intros t Ht. apply in_seq in Ht. rewrite C2 by lia. ring.
  - unfold q_flux4, sumT. apply qsum_all_zero_div.
    intros t Ht. apply in_seq in Ht. unfold sumD. apply qsum_map_all_zero.
    intros d Hd. apply in_seq in Hd. rewrite C4 by lia. ring.
Qed.

Lemma fluxes_steady_flow_witness :
  exists self f1 f2 f3 f4 self',
    __init__ steady_flow small_salinity steady_cross_section [] = Ok self /\
    fluxes self = Ok ((f1, f2, f3, f4), self') /\
    get f2 [0] = Some 0%Qc /\ get f4 [0] = Some 0%Qc.
Proof.
  destruct (@fluxes_steady_flow steady_flow small_salinity
              steady_cross_section 2 1 2)
    as (self & f1 & f2 & f3 & f4 & self' & Hi & Hfl & H); try reflexivity.
  exists self, f1, f2, f3, f4, self'.
  split; [exact Hi|]. split; [exact Hfl|].
  apply (H 0); [lia | lia | | | ].
  - rewrite init_ok in Hi by reflexivity. injection Hi as <-.
    vm_compute. reflexivity.
  - intros t d Ht Hd. index_cases t d.
  - intros t d Ht Hd. index_cases t d.
Defined.

Lemma fluxes_space_shape_witness :
  exists self f1 f2 f3 f4 self',
    __init__ (wide_field 1%Qc) (wide_field (of_nat 30)) (wide_field 1%Qc) []
      = Ok self /\
    fluxes self = Ok ((f1, f2, f3, f4), self') /\
    shape f1 = [2; 3] /\ shape f2 = [2; 3] /\ shape f3 = [2; 3] /\
    shape f4 = [2; 3].
Proof.
  apply (@fluxes_space_shape (wide_field 1%Qc) (wide_field (of_nat 30))
           (wide_field 1%Qc) 2 2 [2; 3]); reflexivity.
Defined.

(** ** The four components of a variable *)

(** X6.  On a variable and areas of shape [(T, S, D)] without masked entries
    and with the default axes, at a place where no denominator is zero the
    four components add up to the variable, exactly over the rationals:
    component 1 at the place, component 2 at the time, component 3 at the
    depth and component 4 at the time and depth. *)
Theorem components_sum_to_variable (self : SFD) (v : ndarray) (T S D t x d : nat) :
  time_axis self = 0%Z -> depth_axis self = (-1)%Z ->
  shape v = [T; S; D] -> shape (cross_section self) = [T; S; D] ->
  valid v = true -> valid (cross_section self) = true ->
  no_mask v = true -> no_mask (cross_section self) = true ->
  t < T -> x < S -> d < D ->
  denominators_nonzero self T D x = true ->
  exists c1 c2 c3 c4,
    component1 self v = Ok c1 /\
    component2 self v None = Ok c2 /\
    component3 self v false = Ok c3 /\
    component4 self v false None = Ok c4 /\
    madd (madd (madd (get c1 [x]) (get c2 [t; x])) (get c3 [x; d]))
         (get c4 [t; x; d])
    = get v [t; x; d].
Proof.
  intros Ht Hd Hv Hc Vv Vc Mv Mc Ht' Hx Hd' Hden.
  pose proof (repr3_filled v Hv Vv Mv) as HV.
  pose proof (repr3_filled (cross_section self) Hc Vc Mc) as HA.
  destruct (component1_repr self Ht Hd HA HV) as (c1 & E1 & R1).
  destruct (component2_repr self Ht Hd HA HV) as (c2 & E2 & R2).
  destruct (component3_repr self Ht Hd HA HV) as (c3 & E3 & R3).
  destruct (component4_repr self Ht Hd HA HV) as (c4 & E4 & R4).
  exists c1, c2, c3, c4. repeat (split; [assumption|]).
  destruct (denominators_den self Ht Hd HA Hx Hden) as (H1 & H2 & H3).
  assert (HT : T <> 0) by lia.
  rewrite (proj2 R1 x Hx), (proj2 R2 t x Ht' Hx), (proj2 R3 x d Hx Hd'),
    (proj2 R4 t x d Ht' Hx Hd'), (proj2 HV t x d Ht' Hx Hd').
  rewrite (@eval_component1 T D x _
             (fun t d => filled (get (cross_section self) [t; x; d])))
    with (v := fun t d => filled (get v [t; x; d])) by trivial.
  rewrite (@eval_component2 T D x _
             (fun t d => filled (get (cross_section self) [t; x; d])))
    with (v := fun t d => filled (get v [t; x; d])) by trivial.
  rewrite (@eval_component3 T D x _
             (fun t d => filled (get (cross_section self) [t; x; d])))
    with (v := fun t d => filled (get v [t; x; d])) by trivial.
  rewrite (@eval_component4 T D x _
             (fun t d => filled (get (cross_section self) [t; x; d])))
    with (v := fun t d => filled (get v [t; x; d])) by trivial.
  cbn [madd masked_binop]. f_equal. unfold q_comp4, q_comp_. ring.
Qed.

Lemma components_sum_to_variable_witness :
  exists c1 c2 c3 c4,
    component1 small_self small_flow = Ok c1 /\
    component2 small_self small_flow None = Ok c2 /\
    component3 small_self small_flow false = Ok c3 /\
    component4 small_self small_flow false None = Ok c4 /\
    madd (madd (madd (get c1 [0]) (get c2 [1; 0])) (get c3 [0; 1]))
         (get c4 [1; 0; 1])
    = get small_flow [1; 0; 1].
Proof.
  apply (@components_sum_to_variable small_self small_flow 2 1 2 1 0 1);
    try lia; try (vm_compute; reflexivity).
Defined.

(** ** The order of the two reductions *)

(** X7.  On a variable of shape [(T, S, D)] without masked entries, with at
    least one time and the default axes, the mean over time of the sum over
    depth ([avg_time_int_depth]) and the sum over depth of the mean over
    time have the same entries, exactly over the rationals. *)
Theorem reductions_commute (self : SFD) (v : ndarray) (T S D : nat) :
  time_axis self = 0%Z -> depth_axis self = (-1)%Z ->
  shape v = [T; S; D] -> valid v = true -> no_mask v = true -> T <> 0 ->
  exists r1 r2,
    avg_time_int_depth self v = Ok r1 /\
    (w <- avg_time self v ;; int_depth self w) = Ok r2 /\
    shape r1 = [S] /\ shape r2 = [S] /\
    forall x, x < S -> get r1 [x] = get r2 [x].
Proof.
  intros Ht Hd Hv Vv Mv HT.
  pose proof (repr3_filled v Hv Vv Mv) as HV.
  destruct (avg_time_int_depth_3 self Ht Hd HV) as (r1 & E1 & R1).
  destruct (avg_time_3 self Ht HV) as (w & Ew & Rw).
  destruct (int_depth_2 self Hd Rw) as (r2 & E2 & R2).
  exists r1, r2. split; [exact E1|]. split; [now rewrite Ew|].
  split; [apply R1|]. split; [apply R2|].
  intros x Hx. rewrite (proj2 R1 x Hx), (proj2 R2 x Hx).
  rewrite (@eval_mean_sum T D x _ (fun t d => filled (get v [t; x; d])) HT)
    by reflexivity.
  rewrite (@masked_sum_eval _ _
             (fun d => sumT T (fun t => filled (get v [t; x; d])) / of_nat T)%Qc).
  - f_equal. unfold sumT, sumD.
    rewrite (qsum_exchange (fun t d => filled (get v [t; x; d]))
               (seq 0 T) (seq 0 D)).
    unfold Qcdiv. now rewrite qsum_map_scal.
  - intros d _.
    now apply (@eval_mean_time T x _ (fun t d => filled (get v [t; x; d])) d HT).
Qed.

Lemma reductions_commute_witness :
  exists r1 r2,
    avg_time_int_depth small_self small_flow = Ok r1 /\
    (w <- avg_time small_self small_flow ;; int_depth small_self w) = Ok r2 /\
    shape r1 = [1] /\ shape r2 = [1] /\
    forall x, x < 1 -> get r1 [x] = get r2 [x].
Proof.
  apply (@reductions_commute small_self small_flow 2 1 2);
    try reflexivity. lia.
Defined.

(** ** A place without area *)

Lemma masked_binop_None_l (f : Qc -> Qc -> Qc) (y : elt) :
  masked_binop f None y = None.
Proof. reflexivity. Qed.

Lemma masked_div_zero (x y : elt) :
  y = None \/ y = Some 0%Qc -> masked_div x y = None.
Proof. intros [-> | ->]; destruct x; reflexivity. Qed.

Section Dry.

Variables T D x : nat.
Variables A U Sa : nat -> nat -> nat -> elt.

Hypothesis HD : D <> 0.
Hypothesis Hdry : mean_sum T D A x = None \/ mean_sum T D A x = Some 0%Qc.

Lemma dry_component1 (V : nat -> nat -> nat -> elt) :
  den_component1 T D A V x = None.
Proof. unfold den_component1. now apply masked_div_zero. Qed.

Lemma dry_component2 (V : nat -> nat -> nat -> elt) (t : nat) :
  den_component2 T D A V t x = None.
Proof.
  unfold den_component2, msub. rewrite dry_component1.
  apply masked_binop_None_r.
Qed.

Lemma dry_component_ (V : nat -> nat -> nat -> elt) (t d : nat) :
  den_component_ T D A V t x d = None.
Proof.
  unfold den_component_, msub, madd. rewrite dry_component1.
  now rewrite !masked_binop_None_r.
Qed.

Lemma dry_component3 (V : nat -> nat -> nat -> elt) (d : nat) :
  den_component3 T D A V x d = None.
Proof.
  unfold den_component3, mean_time.
  rewrite masked_mean_all_None; [reflexivity|].
  intros t _. unfold times. now rewrite dry_component_.
Qed.

Lemma dry_component4 (V : nat -> nat -> nat -> elt) (t d : nat) :
  den_component4 T D A V t x d = None.
Proof. unfold den_component4, msub. now rewrite dry_component_. Qed.

Lemma dry_fluxes :
  den_flux1 T D A U Sa x = None /\ den_flux2 T D A U Sa x = None /\
  den_flux3 T D A U Sa x = None /\ den_flux4 T D A U Sa x = None.
Proof.
  split; [|split; [|split]].
  - unfold den_flux1. now rewrite dry_component1.
  - unfold den_flux2. apply masked_mean_all_None.
    intros t _. now rewrite dry_component2.
  - unfold den_flux3. apply masked_sum_all_None.
    + destruct D; [congruence | discriminate].
    + intros d _. now rewrite dry_component3.
  - unfold den_flux4, mean_sum. apply masked_mean_all_None.
    intros t _. unfold sum_depth. apply masked_sum_all_None.
    + destruct D; [congruence | discriminate].
    + intros d _. unfold times. now rewrite dry_component4.
Qed.

End Dry.

(** X8.  On fields of shape [(T, S, D)] with at least one depth, masked
    entries or not, and with the default axes: at a place where
    [avg_time_int_depth] of the areas is zero or masked, the four fluxes are
    masked; no flux is zero there and nothing raises. *)
Theorem fluxes_masked_without_area (fl sa cs : ndarray) (T S D : nat) :
  shape fl = [T; S; D] -> shape sa = [T; S; D] -> shape cs = [T; S; D] ->
  D <> 0 ->
  exists self f1 f2 f3 f4 self' a,
    __init__ fl sa cs [] = Ok self /\
    fluxes self = Ok ((f1, f2, f3, f4), self') /\
    avg_time_int_depth self cs = Ok a /\
    forall x, x < S -> get a [x] = None \/ get a [x] = Some 0%Qc ->
      get f1 [x] = None /\ get f2 [x] = None /\
      get f3 [x] = None /\ get f4 [x] = None.
Proof.
  intros Hf Hs Hc HD.
  pose proof (repr3_self fl Hf) as HU.
  pose proof (repr3_self sa Hs) as HS.
  pose proof (repr3_self cs Hc) as HA.
  destruct (fluxes_repr HU HS HA)
    as (self & f1 & f2 & f3 & f4 & self' & tot & Hinit & Hfl & _ &
        _ & _ & _ & _ & R1 & R2 & R3 & R4 & _).
  rewrite init_ok in Hinit by congruence. injection Hinit as <-.
  cbn [kwargs_get] in *.
  set (self := mkSFD fl sa cs 0%Z (-1)%Z None None None None []) in *.
  destruct (avg_time_int_depth_3 self (eq_refl : time_axis self = 0%Z)
              (eq_refl : depth_axis self = (-1)%Z) HA) as (a & Ea & Ra).
  exists self, f1, f2, f3, f4, self', a.
  split; [apply init_ok; congruence|]. split; [assumption|].
  split; [assumption|].
  intros x Hx Hz. rewrite (proj2 Ra x Hx) in Hz.
  rewrite (proj2 R1 x Hx), (proj2 R2 x Hx), (proj2 R3 x Hx), (proj2 R4 x Hx).
  now apply dry_fluxes.
Qed.

(** Areas that are zero at the first of two places. *)
Lemma fluxes_masked_without_area_witness :
  exists self f1 f2 f3 f4 self' a,
    __init__ dry_variable dry_variable dry_cross_section [] = Ok self /\
    fluxes self = Ok ((f1, f2, f3, f4), self') /\
    avg_time_int_depth self dry_cross_section = Ok a /\
    get a [0] = Some 0%Qc /\
    get f1 [0] = None /\ get f2 [0] = None /\
    get f3 [0] = None /\ get f4 [0] = None.
Proof.
  destruct (@fluxes_masked_without_area dry_variable dry_variable
              dry_cross_section 1 2 1)
    as (self & f1 & f2 & f3 & f4 & self' & a & Hi & Hfl & Ha & H);
    try reflexivity; try lia.
  exists self, f1, f2, f3, f4, self', a.
  split; [exact Hi|]. split; [exact Hfl|]. split; [exact Ha|].
  assert (E : get a [0] = Some 0%Qc).
  { rewrite init_ok in Hi by reflexivity. injection Hi as <-.
    assert (Ha' : result_eqb
                    (avg_time_int_depth
                       (mkSFD dry_variable dry_variable dry_cross_section
                          0%Z (-1)%Z None None None None []) dry_cross_section)
                    (np.mk [2] [Some 0%Qc; Some 1%Qc]) = true)
      by (vm_compute; reflexivity).
    apply result_eqb_eq in Ha'. cbn [kwargs_get] in Ha. rewrite Ha' in Ha.
    injection Ha as <-. reflexivity. }
  split; [exact E|]. apply (H 0); [lia | now right].
Defined.

(** ** The flow velocity and the salinity exchanged *)

Lemma mmul_comm (p q : elt) : mmul p q = mmul q p.
Proof.
  destruct p as [p|], q as [q|]; try reflexivity.
  unfold mmul, masked_binop. f_equal. ring.
Qed.

Lemma den_fluxes_symmetric (T D x : nat) (A U Sa : nat -> nat -> nat -> elt) :
  den_flux1 T D A U Sa x = den_flux1 T D A Sa U x /\
  den_flux2 T D A U Sa x = den_flux2 T D A Sa U x /\
  den_flux3 T D A U Sa x = den_flux3 T D A Sa U x /\
  den_flux4 T D A U Sa x = den_flux4 T D A Sa U x.
Proof.
  split; [|split; [|split]].
  - unfold den_flux1.
    now rewrite (mmul_comm (den_component1 T D A U x)).
  - unfold den_flux2. f_equal. apply map_ext. intros t.
    now rewrite (mmul_comm (den_component2 T D A U t x)).
  - unfold den_flux3. f_equal. apply map_ext. intros d.
    now rewrite (mmul_comm (den_component3 T D A U x d)).
  - unfold den_flux4, mean_sum, sum_depth, times. f_equal. apply map_ext.
    intros t. f_equal. apply map_ext. intros d.
    now rewrite (mmul_comm (den_component4 T D A U t x d)).
Qed.

(** X9.  On fields of shape [(T, S, D)], masked entries or not, with the
    default axes, the four fluxes have the same entries when the flow
    velocity and the salinity are exchanged. *)
Theorem fluxes_symmetric (fl sa cs : ndarray) (T S D : nat) :
  shape fl = [T; S; D] -> shape sa = [T; S; D] -> shape cs = [T; S; D] ->
  exists self f1 f2 f3 f4 self' other g1 g2 g3 g4 other',
    __init__ fl sa cs [] = Ok self /\
    fluxes self = Ok ((f1, f2, f3, f4), self') /\
    __init__ sa fl cs [] = Ok other /\
    fluxes other = Ok ((g1, g2, g3, g4), other') /\
    forall x, x < S ->
      get f1 [x] = get g1 [x] /\ get f2 [x] = get g2 [x] /\
      get f3 [x] = get g3 [x] /\ get f4 [x] = get g4 [x].
Proof.
  intros Hf Hs Hc.
  pose proof (repr3_self fl Hf) as HU.
  pose proof (repr3_self sa Hs) as HS.
  pose proof (repr3_self cs Hc) as HA.
  destruct (fluxes_repr HU HS HA)
    as (self & f1 & f2 & f3 & f4 & self' & _ & Hinit & Hfl & _ &
        _ & _ & _ & _ & R1 & R2 & R3 & R4 & _).
  destruct (fluxes_repr HS HU HA)
    as (other & g1 & g2 & g3 & g4 & other' & _ & Hinit' & Hfl' & _ &
        _ & _ & _ & _ & Q1 & Q2 & Q3 & Q4 & _).
  exists self, f1, f2, f3, f4, self', other, g1, g2, g3, g4, other'.
  repeat (split; [assumption|]).
  intros x Hx.
  rewrite (proj2 R1 x Hx), (proj2 R2 x Hx), (proj2 R3 x Hx), (proj2 R4 x Hx),
    (proj2 Q1 x Hx), (proj2 Q2 x Hx), (proj2 Q3 x Hx), (proj2 Q4 x Hx).
  apply den_fluxes_symmetric.
Qed.

Lemma fluxes_symmetric_witness :
  exists self f1 f2 f3 f4 self' other g1 g2 g3 g4 other',
    __init__ small_flow small_salinity small_cross_section [] = Ok self /\
    fluxes self = Ok ((f1, f2, f3, f4), self') /\
    __init__ small_salinity small_flow small_cross_section [] = Ok other /\
    fluxes other = Ok ((g1, g2, g3, g4), other') /\
    forall x, x < 1 ->
      get f1 [x] = get g1 [x] /\ get f2 [x] = get g2 [x] /\
      get f3 [x] = get g3 [x] /\ get f4 [x] = get g4 [x].
Proof.
  apply (@fluxes_symmetric small_flow small_salinity small_cross_section 2 1 2);
    reflexivity.
Defined.

(** ** What an access leaves unchanged *)

Lemma value_flux1_same (s self : SFD) :
  same_fields s self -> _flux0 s = _flux0 self ->
  value (flux1 s) = value (flux1 self).
Proof.
  intros Hf Hc. destruct (flux_values_same_fields Hf) as (E & _).
  destruct (_flux0 self) as [c|] eqn:Es.
  - now rewrite (flux1_hit s Hc), (flux1_hit self Es).
  - now rewrite (value_flux1_miss s Hc), (value_flux1_miss self Es).
Qed.

Lemma value_flux2_same (s self : SFD) :
  same_fields s self -> _flux1 s = _flux1 self ->
  value (flux2 s) = value (flux2 self).
Proof.
  intros Hf Hc. destruct (flux_values_same_fields Hf) as (_ & E & _).
  destruct (_flux1 self) as [c|] eqn:Es.
  - now rewrite (flux2_hit s Hc), (flux2_hit self Es).
  - now rewrite (value_flux2_miss s Hc), (value_flux2_miss self Es).
Qed.

Lemma value_flux3_same (s self : SFD) :
  same_fields s self -> _flux3 s = _flux3 self ->
  value (flux3 s) = value (flux3 self).
Proof.
  intros Hf Hc. destruct (flux_values_same_fields Hf) as (_ & _ & E & _).
  destruct (_flux3 self) as [c|] eqn:Es.
  - now rewrite (flux3_hit s Hc), (flux3_hit self Es).
  - now rewrite (value_flux3_miss s Hc), (value_flux3_miss self Es).
Qed.

Lemma value_flux4_same (s self : SFD) :
  same_fields s self -> _flux4 s = _flux4 self ->
  value (flux4 s) = value (flux4 self).
Proof.
  intros Hf Hc. destruct (flux_values_same_fields Hf) as (_ & _ & _ & E).
  destruct (_flux4 self) as [c|] eqn:Es.
  - now rewrite (flux4_hit s Hc), (flux4_hit self Es).
  - now rewrite (value_flux4_miss s Hc), (value_flux4_miss self Es).
Qed.

(** X10.  An access to one flux keeps the fields and the axes of the
    instance, and the value of each of the four fluxes is the same after
    the access as before it: the order of the accesses does not matter. *)
Theorem flux_access_preserves (self s : SFD) (v : ndarray) :
  flux1 self = Ok (v, s) \/ flux2 self = Ok (v, s) \/
  flux3 self = Ok (v, s) \/ flux4 self = Ok (v, s) ->
  same_fields s self /\
  value (flux1 s) = value (flux1 self) /\
  value (flux2 s) = value (flux2 self) /\
  value (flux3 s) = value (flux3 self) /\
  value (flux4 s) = value (flux4 self).
Proof.
  intros [H | [H | [H | H]]].
  - destruct (flux1_access _ H) as (Hf & A0 & A1 & A3 & A4).
    split; [exact Hf|]. split; [|split; [|split]].
    + rewrite (flux1_hit s A0), H. reflexivity.
    + now apply value_flux2_same.
    + now apply value_flux3_same.
    + now apply value_flux4_same.
  - destruct (flux2_access _ H) as (Hf & A0 & A1 & A3 & A4).
    split; [exact Hf|]. split; [|split; [|split]].
    + now apply value_flux1_same.
    + rewrite (flux2_hit s A1), H. reflexivity.
    + now apply value_flux3_same.
    + now apply value_flux4_same.
  - destruct (flux3_access _ H) as (Hf & A0 & A1 & A3 & A4).
    split; [exact Hf|]. split; [|split; [|split]].
    + now apply value_flux1_same.
    + now apply value_flux2_same.
    + rewrite (flux3_hit s A3), H. reflexivity.
    + now apply value_flux4_same.
  - destruct (flux4_access _ H) as (Hf & A0 & A1 & A3 & A4).
    split; [exact Hf|]. split; [|split; [|split]].
    + now apply value_flux1_same.
    + now apply value_flux2_same.
    + now apply value_flux3_same.
    + rewrite (flux4_hit s A4), H. reflexivity.
Qed.

(** After [flux2] on the small instance. *)
Lemma flux_access_preserves_witness :
  same_fields (snd small_flux2) small_self /\
  value (flux1 (snd small_flux2)) = value (flux1 small_self) /\
  value (flux2 (snd small_flux2)) = value (flux2 small_self) /\
  value (flux3 (snd small_flux2)) = value (flux3 small_self) /\
  value (flux4 (snd small_flux2)) = value (flux4 small_self).
Proof.
  apply (@flux_access_preserves small_self (snd small_flux2) (fst small_flux2)).
  right. left. vm_compute. reflexivity.
Defined.

(** ** The keyword arguments *)

Lemma kwargs_get_absent (kwargs : kwargs_t) (key : string) (default : Z) :
  (forall v, ~ In (key, v) kwargs) -> kwargs_get kwargs key default = default.
Proof.
  induction kwargs as [|[k v] rest IH]; intros H; [reflexivity|].
  cbn [kwargs_get]. destruct (String.eqb_spec k key) as [->|Hk].
  - elim (H v). now left.
  - apply IH. intros w Hw. apply (H w). now right.
Qed.

Lemma kwargs_get_present (kwargs : kwargs_t) (key : string) (default v : Z) :
  NoDup (map fst kwargs) -> In (key, v) kwargs ->
  kwargs_get kwargs key default = v.
Proof.
  induction kwargs as [|[k w] rest IH]; intros Hn Hi; [now elim Hi|].
  cbn [kwargs_get]. cbn [map fst] in Hn. inversion Hn as [|? ? Hk Hn']; subst.
  destruct Hi as [E | Hi].
  - injection E as -> ->. now rewrite String.eqb_refl.
  - destruct (String.eqb_spec k key) as [->|_]; [|now apply IH].
    elim Hk. apply in_map_iff. now exists (key, v).
Qed.

(** X11.  The constructor reads the axes from the keyword arguments: an
    axis whose keyword is absent takes its default, 0 for the time and -1
    for the depth, an axis whose keyword is given takes the value given,
    and any other keyword is ignored. *)
Theorem init_reads_kwargs (fl sa cs : ndarray) (kwargs : kwargs_t) :
  shape fl = shape sa -> shape sa = shape cs ->
  NoDup (map fst kwargs) ->
  exists self,
    __init__ fl sa cs kwargs = Ok self /\
    ((forall v, ~ In ("time_axis"%string, v) kwargs) -> time_axis self = 0%Z) /\
    ((forall v, ~ In ("depth_axis"%string, v) kwargs) ->
     depth_axis self = (-1)%Z) /\
    (forall v, In ("time_axis"%string, v) kwargs -> time_axis self = v) /\
    (forall v, In ("depth_axis"%string, v) kwargs -> depth_axis self = v).
Proof.
  intros H1 H2 Hn. rewrite (init_ok fl sa cs kwargs H1 H2).
  eexists. split; [reflexivity|]. cbn [time_axis depth_axis].
  split; [|split; [|split]].
  - now apply kwargs_get_absent.
  - now apply kwargs_get_absent.
  - intros v Hv. now apply kwargs_get_present.
  - intros v Hv. now apply kwargs_get_present.
Qed.

Lemma init_reads_kwargs_witness :
  exists self,
    __init__ uniform_flow uniform_salinity uniform_cross_section
      [("depth_axis"%string, 2%Z); ("verbose"%string, 1%Z)] = Ok self /\
    time_axis self = 0%Z /\ depth_axis self = 2%Z.
Proof.
  destruct (@init_reads_kwargs uniform_flow uniform_salinity
              uniform_cross_section
              [("depth_axis"%string, 2%Z); ("verbose"%string, 1%Z)])
    as (self & Hi & Ht & _ & _ & Hd); try reflexivity.
  { repeat constructor; cbn; intuition discriminate. }
  exists self. split; [exact Hi|]. split.
  - apply Ht. intros v [E | [E | []]]; discriminate E.
  - apply Hd. now left.
Defined.

(** ** The axes for which [avg_time_int_depth] is right *)

Lemma normalize_axis_nat (k ndim : nat) :
  k < ndim -> normalize_axis (Z.of_nat k) ndim = Ok k.
Proof.
  intros H. rewrite normalize_axis_ok by lia. f_equal.
  destruct (Z.ltb_spec (Z.of_nat k) 0); lia.
Qed.

(** A reduction depends on its axis argument through the axis it names. *)
Lemma reduce_normalized (g : list elt -> elt) (a : ndarray) (axis : Z) (k : nat) :
  normalize_axis axis (length (shape a)) = Ok k ->
  reduce g a axis = reduce g a (Z.of_nat k).
Proof.
  intros H. rewrite (reduce_ok g a axis H).
  symmetry. apply reduce_ok. apply normalize_axis_nat.
  now apply normalize_axis_lt with (axis := axis).
Qed.

(** X12.  [avg_time_int_depth] sums over the depth axis and averages over
    the time axis, as the reduction that follows the axes does, when the
    time axis is given from the front and lies before the depth axis, or is
    given from the end and lies after it. *)
Theorem avg_time_int_depth_safe_axes (self : SFD) (v : ndarray) (d t : nat) :
  normalize_axis (depth_axis self) (length (shape v)) = Ok d ->
  normalize_axis (time_axis self) (length (shape v)) = Ok t ->
  (0 <= time_axis self)%Z /\ t < d \/ (time_axis self < 0)%Z /\ d < t ->
  avg_time_int_depth self v = avg_time_int_depth_tracked self v.
Proof.
  intros Hd Ht Hax.
  pose proof (normalize_axis_lt _ _ Hd) as Hdn.
  pose proof (normalize_axis_lt _ _ Ht) as Htn.
  pose proof (@length_remove_at _ d (shape v) Hdn) as Hlen.
  assert (Hv : shape v <> []) by apply (@normalize_axis_neq _ _ _ Hd).
  unfold avg_time_int_depth, avg_time_int_depth_tracked, int_depth, avg_time.
  rewrite Hd, Ht. cbn [bind]. rewrite !sum_reduce by exact Hv.
  rewrite (reduce_normalized masked_sum v _ Hd).
  destruct (reduce_shape masked_sum v _ Hd) as (r & Er & Hr).
  rewrite (reduce_normalized masked_sum v _ Hd) in Er. rewrite Er. cbn [bind].
  assert (Hrne : shape r <> []).
  { rewrite Hr. intros E. rewrite E in Hlen. simpl in Hlen.
    destruct Hax as [[_ H] | [_ H]]; lia. }
  rewrite !mean_reduce by exact Hrne.
  apply reduce_normalized.
  destruct (normalize_axis_inv _ _ Ht) as [Hrange Hk].
  rewrite Hr.
  destruct Hax as [[H0 Htd] | [H0 Hdt]];
    destruct (Z.ltb_spec (time_axis self) 0) as [Hneg|Hpos]; try lia;
    rewrite normalize_axis_ok by lia; f_equal;
    destruct (Z.ltb_spec (time_axis self) 0); try lia;
    destruct (Nat.ltb_spec d t); lia.
Qed.

(** The default axes on a field with three axes. *)
Lemma avg_time_int_depth_safe_axes_witness :
  avg_time_int_depth small_self small_flow
  = avg_time_int_depth_tracked small_self small_flow.
Proof.
  apply (@avg_time_int_depth_safe_axes small_self small_flow 2 0);
    try reflexivity.
  left. cbn. lia.
Defined.
